(** * ui5-typescript, ts-interface-generator: metadata normalisation and
    interface generation

    A shallow embedding of [collectClassInfo.ts] (the metadata normaliser with
    its helpers [expandDefaultKey] and [guessSingularName]) and of the parts of
    [generateTSInterfaces.ts] that drive it ([getInterestingBaseClass],
    [generateInterface], [generateInterfaces]).

    Conventions of the embedding.
    - A JavaScript string is the list of its UTF-16 code units.
    - A metadata value is a tree of plain data (what a JSON-like parser
      returns): an object is the list of its own enumerable properties in
      [for-in] order, with [Object.prototype] as prototype.
    - A computation that may throw or write to the console is the pair of
      its completion and of what it has written. *)

From Stdlib Require Import String Ascii List NArith Bool Lia Floats DecimalString.
Import ListNotations.
Local Open Scope N_scope.
Local Open Scope list_scope.

(** ** Strings *)

Definition code_unit := N.
Definition jsstring := list code_unit.

(** The string literal ["..."] of the source, as code units. *)
Definition js (s : string) : jsstring :=
  map N_of_ascii (list_ascii_of_string s).
Arguments js s%_string.

(** [a === b] on strings. *)
Fixpoint jsstring_eqb (a b : jsstring) : bool :=
  match a, b with
  | [], [] => true
  | x :: a', y :: b' => (x =? y) && jsstring_eqb a' b'
  | _, _ => false
  end.

(** [s.slice(0, k)] and [s.slice(k)] for [k >= 0], and [s.slice(0, -k)]. *)
Definition slice_to (k : nat) (s : jsstring) : jsstring := firstn k s.
Definition slice_from (k : nat) (s : jsstring) : jsstring := skipn k s.
Definition slice_drop_last (k : nat) (s : jsstring) : jsstring :=
  firstn (length s - k) s.

(** Simple case mapping on the ASCII letters. *)
Definition ascii_upper (c : code_unit) : code_unit :=
  if (97 <=? c) && (c <=? 122) then c - 32 else c.
Definition ascii_lower (c : code_unit) : code_unit :=
  if (65 <=? c) && (c <=? 90) then c + 32 else c.

(** ** Metadata values *)

#[warnings="-register-all"]
Inductive value : Type :=
| VUndefined
| VNull
| VBool (b : bool)
| VNum (x : float)
| VStr (s : jsstring)
| VArr (elems : list value)
| VObj (props : list (jsstring * value)).

(** ToBoolean. *)
Definition truthy (v : value) : bool :=
  match v with
  | VUndefined | VNull => false
  | VBool b => b
  | VNum x => negb (PrimFloat.is_zero x || PrimFloat.is_nan x)
  | VStr s => match s with [] => false | _ => true end
  | VArr _ | VObj _ => true
  end.

(** [v == null]. *)
Definition is_nullish (v : value) : bool :=
  match v with VUndefined | VNull => true | _ => false end.

Fixpoint assoc {A : Type} (l : list (jsstring * A)) (k : jsstring) : option A :=
  match l with
  | [] => None
  | (k', a) :: l' => if jsstring_eqb k' k then Some a else assoc l' k
  end.

(** [o[k] = a] on own data properties: an existing property keeps its place,
    a new one goes last. *)
Fixpoint assoc_set {A : Type} (l : list (jsstring * A)) (k : jsstring) (a : A)
  : list (jsstring * A) :=
  match l with
  | [] => [(k, a)]
  | (k', a') :: l' =>
      if jsstring_eqb k' k then (k', a) :: l' else (k', a') :: assoc_set l' k a
  end.

(** [v.k] for a non-nullish [v] and one of the fixed names the normaliser
    reads (none of which a built-in prototype defines). *)
Definition get_prop (v : value) (k : string) : value :=
  match v with
  | VObj props => match assoc props (js k) with Some x => x | None => VUndefined end
  | _ => VUndefined
  end.

(** [a || b] and [a ? a : b]. *)
Definition or_else (a b : value) : value := if truthy a then a else b.

(** ** expandDefaultKey *)

Definition proto_key : jsstring := js "__proto__".

(** [result[defaultKey] = node] on the fresh [{}], [node] a string: the
    assignment creates the own property, unless the key is [__proto__], whose
    inherited setter ignores a primitive. *)
Definition wrap (defaultKey : jsstring) (node : value) : value :=
  if jsstring_eqb defaultKey proto_key then VObj [] else VObj [(defaultKey, node)].

(** [defaultKey] is [None] for [null]/[undefined]. *)
Definition expandDefaultKey (node : value) (defaultKey : option jsstring) : value :=
  match node, defaultKey with
  | VStr _, Some k => wrap k node
  | _, _ => node
  end.

(** ** guessSingularName *)

Inductive replacement : Type :=
| ReplaceBy (s : jsstring)   (* a string entry of mSingular *)
| SliceTo (k : nat).         (* a negative number -k: sPlural.slice(0, -k) *)

Definition mSingular : list (jsstring * replacement) :=
  [ (js "children", SliceTo 3);
    (js "ies", ReplaceBy (js "y"));
    (js "ves", ReplaceBy (js "f"));
    (js "oes", SliceTo 2);
    (js "ses", SliceTo 2);
    (js "ches", SliceTo 2);
    (js "shes", SliceTo 2);
    (js "xes", SliceTo 2);
    (js "s", SliceTo 1) ].

(** The alternatives of [rPlural], in the order of the pattern. *)
Definition rPlural_alternatives : list jsstring := map fst mSingular.

(** One pattern character against one code unit under the [i] flag: both
    are canonicalised by upper-casing; a code unit outside ASCII is never
    canonicalised into ASCII, so only the two ASCII case variants match. *)
Definition char_matches_i (c p : code_unit) : bool :=
  ascii_upper c =? ascii_upper p.

(** [alt] followed by [$] matches at the start of [rest]: [rest] is [alt]
    up to case. *)
Fixpoint matches_to_end (rest alt : jsstring) : bool :=
  match rest, alt with
  | [], [] => true
  | c :: rest', p :: alt' => char_matches_i c p && matches_to_end rest' alt'
  | _, _ => false
  end.

Definition toLowerCase_ascii (s : jsstring) : jsstring := map ascii_lower s.

(** The callback of [replace]: [$] is the match, [sPlural] its only group,
    here the whole match. *)
Definition singular_callback (sPlural : jsstring) : jsstring :=
  match assoc mSingular (toLowerCase_ascii sPlural) with
  | Some (ReplaceBy r) => r
  | Some (SliceTo k) => slice_drop_last k sPlural
  | None => sPlural   (* vRepl undefined, slice(0, undefined): never reached *)
  end.

(** [sPluralName.replace(rPlural, callback)]: the regular expression is tried
    at each start position from the left; the first position where an
    alternative matches up to the end is replaced. *)
Fixpoint guessSingularName (sPluralName : jsstring) : jsstring :=
  if existsb (matches_to_end sPluralName) rPlural_alternatives
  then singular_callback sPluralName
  else match sPluralName with
       | [] => []
       | c :: rest => c :: guessSingularName rest
       end.


(** ** Effects: exceptions, the console and the result processor *)

Inductive exception : Type :=
| TypeError                   (* a call or property access on a wrong value *)
| Error (message : jsstring). (* [throw new Error(message)] *)

Inductive completion (A : Type) : Type :=
| Normal (a : A)
| Throw (e : exception).
Arguments Normal {A} a.
Arguments Throw {A} e.

Inductive effect : Type :=
| ConsoleWarn (text : jsstring)
| ConsoleLog (text : jsstring)
| ResultProcessor (sourceFileName className interfaceText : jsstring).

(** What a computation has written, oldest first. *)
Definition effects := list effect.

(** A computation: how it completes, and what it has written until then. *)
Definition M (A : Type) : Type := (completion A * effects)%type.

Definition ret {A : Type} (a : A) : M A := (Normal a, []).
Definition throw {A : Type} (e : exception) : M A := (Throw e, []).
Definition bind {A B : Type} (c : M A) (k : A -> M B) : M B :=
  match c with
  | (Normal a, w) => let (r, w') := k a in (r, w ++ w')
  | (Throw e, w) => (Throw e, w)
  end.
Definition perform (e : effect) : M unit := (Normal tt, [e]).
Definition lift {A : Type} (c : completion A) : M A := (c, []).

Declare Scope js_scope.
Delimit Scope js_scope with js.
Notation "x <- c1 ;; c2" := (bind c1 (fun x => c2))
  (at level 61, c1 at next level, right associativity) : js_scope.
Notation "c1 ;; c2" := (bind c1 (fun _ => c2))
  (at level 61, right associativity) : js_scope.
Local Open Scope js_scope.

(** ** Objects used as maps from member names to records

    [m[k] = record] creates or overwrites the own property [k]; for the key
    [__proto__] it replaces the prototype instead, and [m[k]] then reads the
    prototype back. *)

Record jsmap (A : Type) : Type := { own : list (jsstring * A); proto : option A }.
Arguments own {A} _.
Arguments proto {A} _.

Definition jsmap_empty {A : Type} : jsmap A := {| own := []; proto := None |}.

Definition jsmap_set {A : Type} (m : jsmap A) (k : jsstring) (a : A) : jsmap A :=
  if jsstring_eqb k proto_key
  then {| own := own m; proto := Some a |}
  else {| own := assoc_set (own m) k a; proto := proto m |}.

Definition jsmap_get {A : Type} (m : jsmap A) (k : jsstring) : option A :=
  if jsstring_eqb k proto_key then proto m else assoc (own m) k.

(** ** The records of ClassInfo (types.d.ts) *)

Definition methods_map := list (jsstring * jsstring).

(** [cardinality: "0..1" | "0..n"] *)
Definition cardinality_0_1 : jsstring := js "0..1".
Definition cardinality_0_n : jsstring := js "0..n".

Record SpecialSetting : Type := {
  ss_name : jsstring; ss_doc : value; ss_since : value; ss_deprecation : value;
  ss_experimental : value; ss_visibility : value; ss_type : value }.

Record Property : Type := {
  prop_name : jsstring; prop_doc : value; prop_since : value;
  prop_deprecation : value; prop_experimental : value; prop_visibility : value;
  prop_type : value; prop_defaultValue : value; prop_bindable : bool;
  prop_methods : methods_map }.

Record Aggregation : Type := {
  aggr_name : jsstring; aggr_doc : value; aggr_deprecation : value;
  aggr_since : value; aggr_experimental : value; aggr_visibility : value;
  aggr_type : value; aggr_altTypes : value; aggr_singularName : value;
  aggr_cardinality : jsstring; aggr_bindable : value; aggr_methods : methods_map }.

Record Association : Type := {
  asso_name : jsstring; asso_doc : value; asso_deprecation : value;
  asso_since : value; asso_experimental : value; asso_visibility : value;
  asso_type : value; asso_singularName : value; asso_cardinality : jsstring;
  asso_methods : methods_map }.

Record EventParameter : Type := {
  param_name : jsstring; param_doc : value; param_deprecation : value;
  param_since : value; param_experimental : value; param_type : value }.

Record UI5Event : Type := {
  ev_name : jsstring; ev_doc : value; ev_deprecation : value; ev_since : value;
  ev_experimental : value; ev_visibility : value; ev_allowPreventDefault : bool;
  ev_enableEventBubbling : bool; ev_parameters : jsmap EventParameter;
  ev_methods : methods_map }.

Record ClassInfo : Type := {
  ci_name : jsstring; ci_interfaces : value; ci_doc : value;
  ci_deprecation : value; ci_since : value; ci_experimental : value;
  ci_specialSettings : jsmap SpecialSetting; ci_properties : jsmap Property;
  ci_aggregations : jsmap Aggregation; ci_associations : jsmap Association;
  ci_events : jsmap UI5Event; ci_methods : value; ci_annotations : value;
  ci_designtime : value; ci_designTime : value; ci_stereotype : value;
  ci_metadataClass : value; ci_defaultProperty : value;
  ci_defaultAggregation : value; ci_abstract : bool; ci_final : bool;
  ci_library : value }.

(** ** collectClassInfo *)

(** [doclet && doclet.description] and the like: every doclet is [null]. *)
Definition no_doclet : value := VNull.

(** The own enumerable properties [for (let n in map)] visits, with [map[n]]:
    the properties of an object, the indices of an array, the code units of
    a string; nothing for a number or a boolean. *)
Definition index_key (i : nat) : jsstring :=
  js (NilEmpty.string_of_uint (Nat.to_uint i)).

Fixpoint indexed_from (i : nat) (l : list value) : list (jsstring * value) :=
  match l with
  | [] => []
  | v :: l' => (index_key i, v) :: indexed_from (S i) l'
  end.

Definition own_entries (map : value) : list (jsstring * value) :=
  match map with
  | VObj props => props
  | VArr elems => indexed_from 0 elems
  | VStr s => indexed_from 0 (List.map (fun c => VStr [c]) s)
  | _ => []
  end.

(** [map.hasOwnProperty] is looked up on [map] itself: a member named
    [hasOwnProperty] hides the method of [Object.prototype] behind a data
    value, and the call [map.hasOwnProperty(n)] throws. *)
Definition hides_hasOwnProperty (map : value) : bool :=
  match map with
  | VObj props => match assoc props (js "hasOwnProperty") with
                  | Some _ => true
                  | None => false
                  end
  | _ => false
  end.

(** The text of [${map[n]}] for the values the warning is reached with. *)
Definition nullish_text (v : value) : jsstring :=
  match v with
  | VNull => js "null"
  | _ => js "undefined"
  end.

Definition no_valid_metadata (n : jsstring) (entry : value) : effect :=
  ConsoleWarn (js "no valid metadata for " ++ n ++ js " (AST type '"
               ++ nullish_text entry ++ js "')").

Section Each.
Context {St : Type}.
Variable defaultKey : option jsstring.
(** [callback(n, settings, doc, apiMember)] *)
Variable callback : jsstring -> value -> value -> value -> St -> M St.

(** The body of the [for-in] loop over the remaining entries; [st] is the
    part of [oClassInfo] the callback writes. *)
Fixpoint each_entries (entries : list (jsstring * value)) (st : St) : M St :=
  match entries with
  | [] => ret st
  | (n, entry) :: rest =>
      let settings := expandDefaultKey entry defaultKey in
      if is_nullish settings
      then perform (no_valid_metadata n entry) ;; each_entries rest st
      else st' <- callback n settings no_doclet entry st ;; each_entries rest st'
  end.

Definition each (map : value) (st : St) : M St :=
  if truthy map
  then if hides_hasOwnProperty map
       then throw TypeError
       else each_entries (own_entries map) st
  else ret st.
End Each.

(** The callbacks of [collectClassInfo] are written with the parameters
    [(n, settings, doclet)]: they do not read the fourth argument, and the
    doclet, [null] in every call, leaves [null] in the doc fields of the
    record. *)
Definition on_settings {St : Type} (callback : jsstring -> value -> St -> M St)
  : jsstring -> value -> value -> value -> St -> M St :=
  fun n settings doclet apiMember => callback n settings.
Arguments on_settings {St} callback n settings doclet apiMember /.

Section Normalizer.
(** [String.prototype.toUpperCase], a function of the JavaScript engine. *)
Variable toUpperCase : jsstring -> jsstring.

(** [n.slice(0, 1).toUpperCase() + n.slice(1)] *)
Definition upper (n : jsstring) : jsstring :=
  toUpperCase (slice_to 1 n) ++ slice_from 1 n.

(** [upper] applied to a value that need not be a string: a number or a
    boolean has no [slice], an array's slice has no [toUpperCase], an object
    holds data only. *)
Definition upper_of (v : value) : completion jsstring :=
  match v with
  | VStr s => Normal (upper s)
  | _ => Throw TypeError
  end.

Definition type_key : option jsstring := Some (js "type").

Definition specialSetting_callback (n : jsstring) (settings : value)
    (specialSettings : jsmap SpecialSetting) : M (jsmap SpecialSetting) :=
  ret (jsmap_set specialSettings n
    {| ss_name := n;
       ss_doc := no_doclet; ss_since := no_doclet;
       ss_deprecation := no_doclet; ss_experimental := no_doclet;
       ss_visibility := or_else (get_prop settings "visibility") (VStr (js "public"));
       ss_type := or_else (get_prop settings "type") (VStr (js "any")) |}).

Definition property_callback (n : jsstring) (settings : value)
    (properties : jsmap Property) : M (jsmap Property) :=
  let N := upper n in
  let bindable := truthy (get_prop settings "bindable") in
  let methods := [(js "get", js "get" ++ N); (js "set", js "set" ++ N)] in
  (* methods is the object held by the record: the two assignments below
     are seen through oClassInfo.properties[n] *)
  let methods :=
    if bindable
    then assoc_set (assoc_set methods (js "bind") (js "bind" ++ N))
                   (js "unbind") (js "unbind" ++ N)
    else methods in
  ret (jsmap_set properties n
    {| prop_name := n;
       prop_doc := no_doclet; prop_since := no_doclet;
       prop_deprecation := no_doclet; prop_experimental := no_doclet;
       prop_visibility := or_else (get_prop settings "visibility") (VStr (js "public"));
       prop_type := or_else (get_prop settings "type") (VStr (js "string"));
       prop_defaultValue := get_prop settings "defaultValue";
       prop_bindable := bindable;
       prop_methods := methods |}).

(** [settings.multiple !== undefined && !settings.multiple ? "0..1" : "0..n"] *)
Definition aggregation_cardinality (multiple : value) : jsstring :=
  if match multiple with VUndefined => false | _ => true end && negb (truthy multiple)
  then cardinality_0_1 else cardinality_0_n.

Definition aggregation_callback (n : jsstring) (settings : value)
    (aggregations : jsmap Aggregation) : M (jsmap Aggregation) :=
  let N := upper n in
  let singularName :=
    if truthy (get_prop settings "singularName")
    then get_prop settings "singularName"
    else VStr (guessSingularName n) in
  let cardinality := aggregation_cardinality (get_prop settings "multiple") in
  let bindable := get_prop settings "bindable" in
  let methods := [(js "get", js "get" ++ N); (js "destroy", js "destroy" ++ N)] in
  (* aggr is stored in oClassInfo.aggregations[n] here; methods stays shared
     with it, so the record is written below with the final method map *)
  methods <-
    (if jsstring_eqb cardinality cardinality_0_1
     then ret (assoc_set methods (js "set") (js "set" ++ N))
     else
       N1 <- lift (upper_of singularName) ;;
       let methods := assoc_set methods (js "insert") (js "insert" ++ N1) in
       let methods := assoc_set methods (js "add") (js "add" ++ N1) in
       let methods := assoc_set methods (js "remove") (js "remove" ++ N1) in
       let methods := assoc_set methods (js "indexOf") (js "indexOf" ++ N1) in
       ret (assoc_set methods (js "removeAll") (js "removeAll" ++ N))) ;;
  let methods :=
    if truthy bindable
    then assoc_set (assoc_set methods (js "bind") (js "bind" ++ N))
                   (js "unbind") (js "unbind" ++ N)
    else methods in
  ret (jsmap_set aggregations n
    {| aggr_name := n;
       aggr_doc := no_doclet; aggr_deprecation := no_doclet;
       aggr_since := no_doclet; aggr_experimental := no_doclet;
       aggr_visibility := or_else (get_prop settings "visibility") (VStr (js "public"));
       aggr_type := or_else (get_prop settings "type") (VStr (js "sap.ui.core.Control"));
       aggr_altTypes := or_else (get_prop settings "altTypes") VUndefined;
       aggr_singularName := singularName;
       aggr_cardinality := cardinality;
       aggr_bindable := bindable;
       aggr_methods := methods |}).

(** [settings.multiple && settings.multiple ? "0..n" : "0..1"] *)
Definition association_cardinality (multiple : value) : jsstring :=
  if truthy multiple then cardinality_0_n else cardinality_0_1.

Definition association_callback (n : jsstring) (settings : value)
    (associations : jsmap Association) : M (jsmap Association) :=
  let N := upper n in
  let singularName :=
    if truthy (get_prop settings "singularName")
    then get_prop settings "singularName"
    else VStr (guessSingularName n) in
  let cardinality := association_cardinality (get_prop settings "multiple") in
  let methods := [(js "get", js "get" ++ N)] in
  methods <-
    (if jsstring_eqb cardinality cardinality_0_1
     then ret (assoc_set methods (js "set") (js "set" ++ N))
     else
       N1 <- lift (upper_of singularName) ;;
       let methods := assoc_set methods (js "add") (js "add" ++ N1) in
       let methods := assoc_set methods (js "remove") (js "remove" ++ N1) in
       ret (assoc_set methods (js "removeAll") (js "removeAll" ++ N))) ;;
  ret (jsmap_set associations n
    {| asso_name := n;
       asso_doc := no_doclet; asso_deprecation := no_doclet;
       asso_since := no_doclet; asso_experimental := no_doclet;
       asso_visibility := or_else (get_prop settings "visibility") (VStr (js "public"));
       asso_type := or_else (get_prop settings "type") (VStr (js "sap.ui.core.Control"));
       asso_singularName := singularName;
       asso_cardinality := cardinality;
       asso_methods := methods |}).

Definition parameter_callback (pName : jsstring) (pSettings : value)
    (parameters : jsmap EventParameter) : M (jsmap EventParameter) :=
  ret (jsmap_set parameters pName
    {| param_name := pName;
       param_doc := no_doclet; param_deprecation := no_doclet;
       param_since := no_doclet; param_experimental := no_doclet;
       (* pSettings && pSettings.type ? pSettings.type : "" *)
       param_type :=
         if truthy pSettings && truthy (get_prop pSettings "type")
         then get_prop pSettings "type" else VStr (js "") |}).

Definition event_callback (n : jsstring) (settings : value)
    (events : jsmap UI5Event) : M (jsmap UI5Event) :=
  let N := upper n in
  (* info is stored in oClassInfo.events[n] here; info.parameters is filled
     through the same object *)
  parameters <- each type_key (on_settings parameter_callback)
                  (get_prop settings "parameters") jsmap_empty ;;
  ret (jsmap_set events n
    {| ev_name := n;
       ev_doc := no_doclet; ev_deprecation := no_doclet;
       ev_since := no_doclet; ev_experimental := no_doclet;
       ev_visibility := VStr (js "public");
       ev_allowPreventDefault := truthy (get_prop settings "allowPreventDefault");
       ev_enableEventBubbling := truthy (get_prop settings "enableEventBubbling");
       ev_parameters := parameters;
       ev_methods := [(js "attach", js "attach" ++ N);
                      (js "detach", js "detach" ++ N);
                      (js "fire", js "fire" ++ N)] |}).

(** [typeof v === "string" || typeof v === "boolean"] *)
Definition is_string_or_boolean (v : value) : bool :=
  match v with VStr _ | VBool _ => true | _ => false end.

(** The object literal [oClassInfo] starts from; [classDoclet] is [null]. *)
Definition initial_ClassInfo (className : jsstring) : ClassInfo :=
  {| ci_name := className; ci_interfaces := VArr [];
     ci_doc := no_doclet; ci_deprecation := no_doclet;
     ci_since := no_doclet; ci_experimental := no_doclet;
     ci_specialSettings := jsmap_empty; ci_properties := jsmap_empty;
     ci_aggregations := jsmap_empty; ci_associations := jsmap_empty;
     ci_events := jsmap_empty; ci_methods := VObj []; ci_annotations := VObj [];
     ci_designtime := VBool false; ci_designTime := VBool false;
     ci_stereotype := VNull; ci_metadataClass := VUndefined;
     ci_defaultProperty := VUndefined; ci_defaultAggregation := VUndefined;
     ci_abstract := false; ci_final := false; ci_library := VUndefined |}.

(** The five loops run in the order of the source; each one writes its own
    map of [oClassInfo], the other fields are plain assignments. *)
Definition collectClassInfo (metadata : value) (className : jsstring) : M ClassInfo :=
  if truthy metadata then
    specialSettings <- each type_key (on_settings specialSetting_callback)
                         (get_prop metadata "specialSettings") jsmap_empty ;;
    properties <- each type_key (on_settings property_callback)
                    (get_prop metadata "properties") jsmap_empty ;;
    aggregations <- each type_key (on_settings aggregation_callback)
                      (get_prop metadata "aggregations") jsmap_empty ;;
    associations <- each type_key (on_settings association_callback)
                      (get_prop metadata "associations") jsmap_empty ;;
    events <- each None (on_settings event_callback)
                (get_prop metadata "events") jsmap_empty ;;
    let designtime :=
      or_else (get_prop metadata "designtime") (get_prop metadata "designTime") in
    ret {| ci_name := className;
           ci_interfaces := or_else (get_prop metadata "interfaces") (VArr []);
           ci_doc := no_doclet; ci_deprecation := no_doclet;
           ci_since := no_doclet; ci_experimental := no_doclet;
           ci_specialSettings := specialSettings; ci_properties := properties;
           ci_aggregations := aggregations; ci_associations := associations;
           ci_events := events; ci_methods := VObj []; ci_annotations := VObj [];
           ci_designtime :=
             if is_string_or_boolean designtime then designtime else VBool false;
           ci_designTime := VBool false;
           ci_stereotype := or_else (get_prop metadata "stereotype") VUndefined;
           ci_metadataClass := VUndefined;
           ci_defaultProperty := or_else (get_prop metadata "defaultProperty") VUndefined;
           ci_defaultAggregation :=
             or_else (get_prop metadata "defaultAggregation") VUndefined;
           ci_abstract := truthy (get_prop metadata "abstract");
           ci_final := truthy (get_prop metadata "final");
           ci_library := or_else (get_prop metadata "library") VUndefined |}
  else ret (initial_ClassInfo className).
End Normalizer.

(** ** Base-type discovery (generateTSInterfaces.ts) *)

Inductive InterestingBaseClass : Type :=
| ManagedObject | EventProvider | Element | Control.

(** The name the type checker gives an export of a module: the module path
    in double quotes (code unit 34), a dot, the exported name. *)
Definition exported (module name : string) : jsstring :=
  [34] ++ js module ++ [34] ++ js "." ++ js name.

(** The registry [interestingBaseClasses], keyed by fully qualified name. *)
Definition interestingBaseClasses : list (jsstring * InterestingBaseClass) :=
  [ (exported "sap/ui/base/ManagedObject" "ManagedObject", ManagedObject);
    (exported "sap/ui/base/EventProvider" "EventProvider", EventProvider);
    (exported "sap/ui/core/Element" "UI5Element", Element);
    (exported "sap/ui/core/Control" "Control", Control) ].

(** The properties every object inherits from [Object.prototype]. The
    registry is an object literal, so [interestingBaseClasses[name]] finds
    them too; each holds a function, or for [__proto__] the prototype
    itself: a value that counts as true. *)
Definition Object_prototype_keys : list jsstring :=
  List.map js
    [ "constructor"; "__defineGetter__"; "__defineSetter__"; "hasOwnProperty";
      "__lookupGetter__"; "__lookupSetter__"; "isPrototypeOf";
      "propertyIsEnumerable"; "toString"; "valueOf"; "__proto__";
      "toLocaleString" ]%string.

(** What [interestingBaseClasses[name]] holds when it is not [undefined]:
    the tier of a registered name, or the value inherited under [key]. *)
Inductive RegistryValue : Type :=
| Tier (interestingBaseClass : InterestingBaseClass)
| Inherited (key : jsstring).

(** [interestingBaseClasses[name]]; [None] is [undefined]. *)
Definition registry_lookup (name : jsstring) : option RegistryValue :=
  match assoc interestingBaseClasses name with
  | Some interestingBaseClass => Some (Tier interestingBaseClass)
  | None =>
      if existsb (jsstring_eqb name) Object_prototype_keys
      then Some (Inherited name) else None
  end.

Section Discovery.
(** The type checker, as far as the walk consults it. A type need not have
    a symbol, and [typeChecker.getFullyQualifiedName] reads its argument:
    on [undefined] it throws. *)
Variable type : Type.
Variable symbol : Type.
Variable getSymbol : type -> option symbol.
Variable getFullyQualifiedName : symbol -> jsstring.
Variable isClassOrInterface : type -> bool.
Variable getBaseTypes : type -> list type.

(** The [for] loop over [baseTypes]: the first base type for which the
    recursive call returns a value that counts as true decides, and the
    first one for which it throws ends the loop; [None] says that a
    recursive call did not return. *)
Fixpoint for_baseTypes (visit : type -> option (completion (option RegistryValue)))
    (baseTypes : list type) : option (completion (option RegistryValue)) :=
  match baseTypes with
  | [] => Some (Normal None)
  | b :: rest =>
      match visit b with
      | None => None
      | Some (Throw e) => Some (Throw e)
      | Some (Normal (Some interestingBaseClass)) =>
          Some (Normal (Some interestingBaseClass))
      | Some (Normal None) => for_baseTypes visit rest
      end
  end.

(** [getInterestingBaseClass] calls itself on the base types with nothing
    that bounds the depth; [fuel] is the depth of calls the engine's stack
    affords, and [None] says it was used up before the walk ended.
    A returned [Normal None] is [undefined]. The call of [typeToString],
    whose result is not used, is taken as returning. *)
Fixpoint getInterestingBaseClass (fuel : nat) (t : type)
  : option (completion (option RegistryValue)) :=
  match fuel with
  | O => None
  | S fuel' =>
      match getSymbol t with
      | None => Some (Throw TypeError)   (* getFullyQualifiedName(undefined) *)
      | Some s =>
          match registry_lookup (getFullyQualifiedName s) with
          | Some interestingBaseClass => Some (Normal (Some interestingBaseClass))
          | None =>
              if negb (isClassOrInterface t) then Some (Normal None)
              else for_baseTypes (getInterestingBaseClass fuel') (getBaseTypes t)
          end
      end
  end.


(** [t] is left for its base types: it has a symbol whose name the
    registry object does not hold, and is a class or an interface. *)
Definition passed (t : type) : Prop :=
  exists s,
    getSymbol t = Some s
    /\ registry_lookup (getFullyQualifiedName s) = None
    /\ isClassOrInterface t = true.

(** [walked t a]: [a] is [t], or is reached from [t] along base types,
    through types that are passed. *)
Inductive walked : type -> type -> Prop :=
| walked_here (t : type) : walked t t
| walked_base (t b a : type) :
    passed t -> In b (getBaseTypes t) -> walked b a -> walked t a.

End Discovery.

(** ** Interface generation (generateTSInterfaces.ts) *)

(** The members of a class declaration, as far as [generateInterface] looks
    at them. [modifiers] is absent on a member written without any modifier
    ([modifiers?: NodeArray<Modifier>]); [initializer] holds the source text
    [getText] returns. *)
Inductive ModifierKind : Type := StaticKeyword | OtherModifier.

Inductive PropertyName : Type :=
| Identifier (escapedText : jsstring)
| OtherName.

Inductive ClassElement : Type :=
| PropertyDeclaration (name : PropertyName)
    (modifiers : option (list ModifierKind)) (initializer : option jsstring)
| OtherElement.

Record ManagedObjectInfo : Type := {
  fileName : jsstring;             (* sourceFile.fileName *)
  className : jsstring;
  members : list ClassElement;     (* classDeclaration.members *)
  settingsTypeFullName : jsstring;
  interestingBaseClass : InterestingBaseClass;
  constructorSignaturesAvailable : bool }.

Definition is_static (m : ModifierKind) : bool :=
  match m with StaticKeyword => true | OtherModifier => false end.

(** The predicate of [classDeclaration.members.filter]: the conjunction is
    evaluated left to right, and [member.modifiers.some] throws when the
    member has no modifiers. *)
Definition is_static_metadata (member : ClassElement) : completion bool :=
  match member with
  | PropertyDeclaration (Identifier escapedText) modifiers _ =>
      if jsstring_eqb escapedText (js "metadata")
      then match modifiers with
           | Some ms => Normal (existsb is_static ms)
           | None => Throw TypeError
           end
      else Normal false
  | _ => Normal false
  end.

Fixpoint filter_static_metadata (ms : list ClassElement)
  : completion (list ClassElement) :=
  match ms with
  | [] => Normal []
  | member :: rest =>
      match is_static_metadata member with
      | Throw e => Throw e
      | Normal keep =>
          match filter_static_metadata rest with
          | Throw e => Throw e
          | Normal kept => Normal (if keep then member :: kept else kept)
          end
      end
  end.

Definition tier_name (b : InterestingBaseClass) : jsstring :=
  match b with
  | ManagedObject => js "ManagedObject"
  | EventProvider => js "EventProvider"
  | Element => js "Element"
  | Control => js "Control"
  end.

Definition parse_error_message (className fileName message : jsstring) : jsstring :=
  js "When parsing the metadata of " ++ className ++ js " in " ++ fileName
  ++ js ": metadata is no valid JSON and could not be quick-fixed to be. "
  ++ js "Please make the metadata at least close to valid JSON. "
  ++ js "In particular, TypeScript type annotations cannot be used. Error: "
  ++ message.

Definition contains_metadata_message (className fileName : jsstring)
    (b : InterestingBaseClass) : jsstring :=
  [10; 10] ++ js "Class " ++ className ++ js " inside " ++ fileName
  ++ js " inherits from " ++ tier_name b ++ js " and contains metadata.".

Definition initializer_of (member : ClassElement) : option jsstring :=
  match member with
  | PropertyDeclaration _ _ initializer => initializer
  | OtherElement => None
  end.

Section Generator.
Variable toUpperCase : jsstring -> jsstring.
(** [Hjson.parse]: the parsed value, or the message of the error it throws. *)
Variable Hjson_parse : jsstring -> value + jsstring.
(** [buildAST] rests on astGenerationHelper, [astToString] and [path] are
    modules of their own: they are taken as given, and as returning. *)
Variable Globals : Type.
Variable AST : Type.
Variable moduleName_of : jsstring -> jsstring.
Variable buildAST :
  ClassInfo -> jsstring -> bool -> jsstring -> jsstring -> Globals -> option AST.
Variable astToString : AST -> jsstring.

(** The result is [None] for [undefined], else the interface text. *)
Definition generateInterface (mo : ManagedObjectInfo) (allKnownGlobals : Globals)
  : M (option jsstring) :=
  metadata <- lift (filter_static_metadata (members mo)) ;;
  match metadata with
  | [member] =>
      match initializer_of member with
      | None => throw TypeError   (* metadata[0].initializer is undefined *)
      | Some metadataText =>
          match Hjson_parse metadataText with
          | inr message =>
              throw (Error (parse_error_message (className mo) (fileName mo) message))
          | inl metadataObject =>
              if is_nullish metadataObject then throw TypeError
              else if negb (truthy (get_prop metadataObject "properties"))
                   && negb (truthy (get_prop metadataObject "aggregations"))
                   && negb (truthy (get_prop metadataObject "associations"))
                   && negb (truthy (get_prop metadataObject "events"))
              then ret None
              else
                perform (ConsoleLog (contains_metadata_message (className mo)
                           (fileName mo) (interestingBaseClass mo))) ;;
                classInfo <- collectClassInfo toUpperCase metadataObject (className mo) ;;
                match buildAST classInfo (fileName mo)
                        (constructorSignaturesAvailable mo)
                        (moduleName_of (fileName mo))
                        (settingsTypeFullName mo) allKnownGlobals with
                | None => ret None
                | Some ast => ret (Some (astToString ast))
                end
          end
      end
  | _ => ret None   (* metadata.length !== 1 *)
  end.

(** [mos.forEach]: [mos] is what [getManagedObjects] returned for the source
    file. *)
Fixpoint generateInterfaces (mos : list ManagedObjectInfo) (allKnownGlobals : Globals)
  : M unit :=
  match mos with
  | [] => ret tt
  | managedObjectOccurrence :: rest =>
      interfaceText <- generateInterface managedObjectOccurrence allKnownGlobals ;;
      match interfaceText with
      | Some (c :: text) =>
          perform (ResultProcessor (fileName managedObjectOccurrence)
                     (className managedObjectOccurrence) (c :: text))
      | _ => ret tt   (* undefined or the empty string *)
      end ;;
      generateInterfaces rest allKnownGlobals
  end.
End Generator.

(** An engine-independent stand-in for [toUpperCase], exact on ASCII text. *)
Definition toUpperCase_ascii (s : jsstring) : jsstring := List.map ascii_upper s.

(** ** The pluralisation rules as the specification words them *)

Inductive suffix_rule : Type :=
| DropLast (k : nat)        (* drop the last k characters *)
| Becomes (r : jsstring).   (* the suffix is replaced by r *)

Definition singular_rules : list (jsstring * suffix_rule) :=
  [ (js "children", DropLast 3);
    (js "ies", Becomes (js "y"));
    (js "ves", Becomes (js "f"));
    (js "oes", DropLast 2); (js "ses", DropLast 2); (js "ches", DropLast 2);
    (js "shes", DropLast 2); (js "xes", DropLast 2);
    (js "s", DropLast 1) ].

Definition equal_ignoring_case (a b : jsstring) : Prop :=
  toLowerCase_ascii a = toLowerCase_ascii b.

(** [suffix] ends [s] and is an entry of the table up to case. *)
Definition applicable (s suffix : jsstring) : Prop :=
  exists prefix entry rule,
    s = prefix ++ suffix /\ In (entry, rule) singular_rules
    /\ equal_ignoring_case suffix entry.

Definition apply_rule (rule : suffix_rule) (prefix suffix : jsstring) : jsstring :=
  match rule with
  | DropLast k => firstn (length (prefix ++ suffix) - k) (prefix ++ suffix)
  | Becomes r => prefix ++ r
  end.

(** ** The naming rule as the specification words it *)

Definition named (verb : string) (name : jsstring) : jsstring * jsstring :=
  (js verb, js verb ++ name).

(** bind N and unbind N, if and only if the member is bindable. *)
Definition binding_methods (N : jsstring) (bindable : bool) : methods_map :=
  if bindable then [named "bind" N; named "unbind" N] else [].

(** Aggregation 0..n: get N, destroy N, insert S, add S, remove S,
    indexOf S, removeAll N. *)
Definition aggregation_methods_0_n (N S : jsstring) : methods_map :=
  [named "get" N; named "destroy" N; named "insert" S; named "add" S;
   named "remove" S; named "indexOf" S; named "removeAll" N].

(** Aggregation 0..1: get N, set N, destroy N (the order is that of the
    assignments in the source). *)
Definition aggregation_methods_0_1 (N : jsstring) : methods_map :=
  [named "get" N; named "destroy" N; named "set" N].

(** Association 0..1: get N, set N. *)
Definition association_methods_0_1 (N : jsstring) : methods_map :=
  [named "get" N; named "set" N].

(** Association 0..n: get N, add S, remove S, removeAll N. *)
Definition association_methods_0_n (N S : jsstring) : methods_map :=
  [named "get" N; named "add" S; named "remove" S; named "removeAll" N].

(** ** The entries of the input

    [entry] is what the raw metadata holds under the name [n] among its
    members of one [kind] ("properties", "aggregations", ...): the last
    entry of that name (an object has one), other than [null]/[undefined]. *)
Definition member_of (metadata : value) (kind : string) (n : jsstring)
    (entry : value) : Prop :=
  exists pre post,
    own_entries (get_prop metadata kind) = pre ++ (n, entry) :: post
    /\ ~ In n (map fst post)
    /\ is_nullish entry = false.

(** A raw metadata object with members of every kind. *)
Definition sample_metadata : value :=
  VObj
    [ (js "properties",
       VObj [ (js "text", VStr (js "string"));
              (js "enabled", VObj []);
              (js "busy", VObj [ (js "type", VStr (js "boolean"));
                                 (js "visibility", VStr (js "hidden"));
                                 (js "bindable", VBool true) ]) ]);
      (js "aggregations",
       VObj [ (js "items", VObj [ (js "bindable", VBool true) ]);
              (js "header", VObj [ (js "multiple", VBool false);
                                   (js "visibility", VStr (js "hidden")) ]) ]);
      (js "associations",
       VObj [ (js "owner", VObj []);
              (js "labels", VObj [ (js "multiple", VBool true);
                                   (js "visibility", VStr (js "hidden")) ]) ]);
      (js "events",
       VObj [ (js "press", VObj [ (js "visibility", VStr (js "hidden")) ]) ]) ].

(** Metadata whose entries are neither a scalar with a default key nor a
    record: an array among the properties, a string among the events (which
    have no default key). *)
Definition odd_metadata : value :=
  VObj [ (js "properties", VObj [ (js "size", VArr []) ]);
         (js "events", VObj [ (js "press", VStr (js "tap")) ]) ].

(** Metadata with an absent entry between two others, and the same
    metadata without it. *)
Definition metadata_with_null : value :=
  VObj [ (js "properties",
          VObj [ (js "text", VStr (js "string")); (js "broken", VNull);
                 (js "busy", VObj []) ]) ].

Definition metadata_without_null : value :=
  VObj [ (js "properties",
          VObj [ (js "text", VStr (js "string")); (js "busy", VObj []) ]) ].

(** Type checkers. In the first, Child extends Parent, Parent extends
    Grandparent, and Grandparent is the Control of the registry. In the
    second, Ping extends Pong and Pong extends Ping. In both every type
    is its own symbol. *)
Inductive family : Type := Child | Parent | Grandparent.

Definition family_name (t : family) : jsstring :=
  match t with
  | Child => js "Child"
  | Parent => js "Parent"
  | Grandparent => exported "sap/ui/core/Control" "Control"
  end.

Definition family_bases (t : family) : list family :=
  match t with
  | Child => [Parent]
  | Parent => [Grandparent]
  | Grandparent => []
  end.







Inductive gauges : Type := Gauge | ValueOf.

Definition gauges_name (t : gauges) : jsstring :=
  match t with Gauge => js "Gauge" | ValueOf => js "valueOf" end.

Definition gauges_bases (t : gauges) : list gauges :=
  match t with Gauge => [ValueOf] | ValueOf => [] end.

(** Stand-ins for the collaborators of the generator: a parser that rejects
    one text and reads sample_metadata from any other, and a renderer that
    names the class. *)
Definition rejected_text : jsstring := js "{ properties: { text: string = 1 } }".
Definition rejected_message : jsstring := js "Found a punctuator character".

Definition sample_parse (text : jsstring) : value + jsstring :=
  if jsstring_eqb text rejected_text then inr rejected_message
  else inl sample_metadata.

Definition sample_buildAST (classInfo : ClassInfo) (classFileName : jsstring)
    (constructorSignaturesAvailable : bool)
    (moduleName settingsTypeFullName : jsstring) (allKnownGlobals : unit)
  : option jsstring :=
  Some (js "interface " ++ ci_name classInfo).

(** A class of the file Widgets.ts with one static metadata member. *)
Definition class_with_metadata (name metadataText : jsstring) : ManagedObjectInfo :=
  {| fileName := js "src/Widgets.ts";
     className := name;
     members := [ OtherElement;
                  PropertyDeclaration (Identifier (js "metadata"))
                    (Some [StaticKeyword]) (Some metadataText) ];
     settingsTypeFullName := js "$ControlSettings";
     interestingBaseClass := Control;
     constructorSignaturesAvailable := true |}.

(** A class with two static metadata members. *)
Definition class_with_two_metadata : ManagedObjectInfo :=
  {| fileName := js "src/Widgets.ts";
     className := js "Twice";
     members := [ PropertyDeclaration (Identifier (js "metadata"))
                    (Some [StaticKeyword]) (Some (js "{ }"));
                  PropertyDeclaration (Identifier (js "metadata"))
                    (Some [OtherModifier; StaticKeyword]) (Some (js "{ }")) ];
     settingsTypeFullName := js "$ControlSettings";
     interestingBaseClass := Control;
     constructorSignaturesAvailable := true |}.

(** A class whose only member named metadata is written without any
    modifier: [class Plain extends Control { metadata = {...}; }]. *)
Definition class_with_plain_metadata : ManagedObjectInfo :=
  {| fileName := js "src/Widgets.ts";
     className := js "Plain";
     members := [ PropertyDeclaration (Identifier (js "metadata"))
                    None (Some (js "{ properties: { text: 'string' } }")) ];
     settingsTypeFullName := js "$ControlSettings";
     interestingBaseClass := Control;
     constructorSignaturesAvailable := true |}.

(** The member kinds the normaliser loops over. *)
Definition member_kinds : list string :=
  ["specialSettings"; "properties"; "aggregations"; "associations"; "events"]%string.

(** ** Metadata on which the normaliser returns

    No member is named hasOwnProperty (nor is an event parameter), and an
    explicit singular name of an aggregation or association is a string. *)
Definition singularName_usable (settings : value) : Prop :=
  truthy (get_prop settings "singularName") = true ->
  exists s, get_prop settings "singularName" = VStr s.

Definition well_formed_metadata (metadata : value) : Prop :=
  (forall kind, In kind member_kinds ->
     hides_hasOwnProperty (get_prop metadata kind) = false)
  /\ (forall n entry,
        In (n, entry) (own_entries (get_prop metadata "aggregations")) ->
        singularName_usable (expandDefaultKey entry (Some (js "type"))))
  /\ (forall n entry,
        In (n, entry) (own_entries (get_prop metadata "associations")) ->
        singularName_usable (expandDefaultKey entry (Some (js "type"))))
  /\ (forall n entry,
        In (n, entry) (own_entries (get_prop metadata "events")) ->
        hides_hasOwnProperty (get_prop entry "parameters") = false).

(** The example of the specification: a Widget with the property text and
    the event press. *)
Definition widget_metadata : value :=
  VObj [ (js "properties",
          VObj [ (js "text", VObj [ (js "type", VStr (js "string")) ]) ]);
         (js "events", VObj [ (js "press", VObj []) ]) ].

(** A Dialog with a special setting, and an event close whose parameters
    are given as a type name, as a record and as an absent entry. *)
Definition dialog_metadata : value :=
  VObj [ (js "specialSettings", VObj [ (js "mode", VStr (js "string")) ]);
         (js "events",
          VObj [ (js "close",
                  VObj [ (js "allowPreventDefault", VBool true);
                         (js "parameters",
                          VObj [ (js "origin", VStr (js "string"));
                                 (js "reason", VObj []);
                                 (js "legacy", VNull) ]) ]) ]) ].

(** ** Constructor signatures (generateTSInterfaces.ts)

    The type nodes, parameters and constructors of a class declaration, as
    far as [checkConstructors] and [getSettingsType] look at them. A
    parameter written without a type has no [type] node. *)

#[warnings="-register-all"]
Inductive TypeNode : Type :=
| StringKeyword
| TypeReference (typeName : jsstring)
| UnionType (types : list TypeNode)
| OtherType.

Record ParameterDeclaration : Type := {
  questionToken : bool;
  parameter_type : option TypeNode }.

Record ConstructorDeclaration : Type := {
  ctor_parameters : list ParameterDeclaration;
  has_body : bool }.   (* member.body !== undefined *)

Inductive ClassMember : Type :=
| ConstructorMember (ctor : ConstructorDeclaration)
| OtherMember.

Definition is_StringKeyword (t : TypeNode) : bool :=
  match t with StringKeyword => true | _ => false end.

(** [ts.isTypeReferenceNode] and [kind === ts.SyntaxKind.TypeReference]. *)
Definition isTypeReferenceNode (t : TypeNode) : bool :=
  match t with TypeReference _ => true | _ => false end.

(** Both arguments are read ([type1.kind], [type2.kind] or the type guard
    on them) on every path, so an absent type node throws. *)
Definition isOneAStringAndTheOtherASettingsObject (type1 type2 : option TypeNode)
  : completion bool :=
  match type1, type2 with
  | Some t1, Some t2 =>
      Normal ((is_StringKeyword t1 && isTypeReferenceNode t2)
              || (is_StringKeyword t2 && isTypeReferenceNode t1))
  | _, _ => Throw TypeError
  end.

(** The three flags of [checkConstructors]. *)
Record ConstructorFlags : Type := {
  singleParameterDeclarationFound : bool;
  doubleParameterDeclarationFound : bool;
  implementationFound : bool }.

Definition unexpected_constructor_message (className : jsstring) : jsstring :=
  js "Unexpected constructor signature with a parameter number other than 1 or 2 in class "
  ++ className.

(** [name.text] of a class declaration, which has no name when it is an
    anonymous default export. *)
Definition name_text (name : option jsstring) : completion jsstring :=
  match name with
  | Some text => Normal text
  | None => Throw TypeError
  end.

(** One turn of [classDeclaration.members.forEach]. *)
Definition check_member (name : option jsstring) (member : ClassMember)
    (flags : ConstructorFlags) : M ConstructorFlags :=
  match member with
  | OtherMember => ret flags
  | ConstructorMember ctor =>
      match ctor_parameters ctor, has_body ctor with
      | [parameter], false =>
          if questionToken parameter then
            match parameter_type parameter with
            | None => throw TypeError   (* ts.isUnionTypeNode(undefined) *)
            | Some (UnionType [t1; t2]) =>
                found <- lift (isOneAStringAndTheOtherASettingsObject (Some t1) (Some t2)) ;;
                ret (if found
                     then {| singleParameterDeclarationFound := true;
                             doubleParameterDeclarationFound :=
                               doubleParameterDeclarationFound flags;
                             implementationFound := implementationFound flags |}
                     else flags)
            | Some _ => ret flags
            end
          else ret flags
      | [parameter0; parameter1], body =>
          found <- lift (isOneAStringAndTheOtherASettingsObject
                           (parameter_type parameter0) (parameter_type parameter1)) ;;
          ret (if found
               then if body
                    then {| singleParameterDeclarationFound :=
                              singleParameterDeclarationFound flags;
                            doubleParameterDeclarationFound :=
                              doubleParameterDeclarationFound flags;
                            implementationFound := true |}
                    else {| singleParameterDeclarationFound :=
                              singleParameterDeclarationFound flags;
                            doubleParameterDeclarationFound := true;
                            implementationFound := implementationFound flags |}
               else flags)
      | _, _ =>
          className <- lift (name_text name) ;;   (* member.parent.name.text *)
          perform (ConsoleLog (unexpected_constructor_message className)) ;;
          ret flags
      end
  end.

Fixpoint check_members (name : option jsstring) (members : list ClassMember)
    (flags : ConstructorFlags) : M ConstructorFlags :=
  match members with
  | [] => ret flags
  | member :: rest =>
      flags' <- check_member name member flags ;;
      check_members name rest flags'
  end.

Definition missing_signatures_message (className : jsstring)
    (flags : ConstructorFlags) : jsstring :=
  className ++ js " is missing required constructor signatures: "
  ++ (if singleParameterDeclarationFound flags then []
      else [10] ++ js "- constructor declaration with single parameter")
  ++ (if doubleParameterDeclarationFound flags then []
      else [10] ++ js "- constructor declaration with two parameters")
  ++ (if implementationFound flags then []
      else [10] ++ js "- constructor implementation with two parameters").

(** [name] and [members] are those of [classDeclaration]. *)
Definition checkConstructors (name : option jsstring) (members : list ClassMember)
  : M bool :=
  flags <- check_members name members
             {| singleParameterDeclarationFound := false;
                doubleParameterDeclarationFound := false;
                implementationFound := false |} ;;
  let found := singleParameterDeclarationFound flags
               && doubleParameterDeclarationFound flags
               && implementationFound flags in
  if found then ret found
  else
    className <- lift (name_text name) ;;
    perform (ConsoleLog (missing_signatures_message className flags)) ;;
    ret found.

(** ** getSettingsType

    [declarations] is what [type.getSymbol().getDeclarations()] returns:
    for each declaration its [members], absent on a declaration that is
    not class-like. *)
Fixpoint constructors_of (members : list ClassMember) : list ConstructorDeclaration :=
  match members with
  | [] => []
  | ConstructorMember ctor :: rest => ctor :: constructors_of rest
  | OtherMember :: rest => constructors_of rest
  end.

Fixpoint collect_constructors (declarations : list (option (list ClassMember)))
  : completion (list ConstructorDeclaration) :=
  match declarations with
  | [] => Normal []
  | None :: _ => Throw TypeError   (* members.length of undefined *)
  | Some members :: rest =>
      match collect_constructors rest with
      | Normal constructors => Normal (constructors_of members ++ constructors)
      | Throw e => Throw e
      end
  end.

(** [constructors.forEach]: [settingsType] is the variable the callback
    assigns. *)
Fixpoint each_constructor (constructors : list ConstructorDeclaration)
    (settingsType : option TypeNode) : completion (option TypeNode) :=
  match constructors with
  | [] => Normal settingsType
  | ctor :: rest =>
      match last (List.map Some (ctor_parameters ctor)) None with
      | None => Throw TypeError   (* lastParameter is undefined *)
      | Some lastParameter =>
          match parameter_type lastParameter with
          | None => Throw TypeError   (* lastParameter.type is undefined *)
          | Some type =>
              each_constructor rest
                (if isTypeReferenceNode type then Some type else settingsType)
          end
      end
  end.

Definition getSettingsType (declarations : list (option (list ClassMember)))
  : completion (option TypeNode) :=
  match collect_constructors declarations with
  | Normal constructors => each_constructor constructors None
  | Throw e => Throw e
  end.

(** ** getImports and buildAST

    The nodes the factory functions of the compiler API build, as the data
    they are given. *)

Record RequiredImport : Type := {
  localName : jsstring;
  moduleName : jsstring;
  exportName : option jsstring }.   (* exportName?: string *)

(** An object keyed by dependency name, in [for-in] order. *)
Definition RequiredImports := list (jsstring * RequiredImport).

Record ImportSpecifier : Type := {
  propertyName : option jsstring;   (* the original name, when aliased *)
  specifier_name : jsstring }.

Record ImportClause : Type := {
  clause_name : option jsstring;                   (* the default import *)
  namedBindings : option (list ImportSpecifier) }. (* the named imports *)

Record ImportDeclaration : Type := {
  importClause : ImportClause;
  moduleSpecifier : jsstring;
  trailingComment : option jsstring }.

(** [singleImport.exportName] as a condition: absent and empty are falsy. *)
Definition exportName_given (singleImport : RequiredImport) : bool :=
  match exportName singleImport with
  | Some (_ :: _) => true
  | _ => false
  end.

Definition import_of (singleImport : RequiredImport) : ImportDeclaration :=
  let namedImportOriginalName :=
    match exportName singleImport with
    | Some e =>
        if exportName_given singleImport
           && negb (jsstring_eqb (localName singleImport) e)
        then Some e else None
    | None => None
    end in
  {| importClause :=
       if exportName_given singleImport
       then {| clause_name := None;
               namedBindings :=
                 Some [ {| propertyName := namedImportOriginalName;
                           specifier_name := localName singleImport |} ] |}
       else {| clause_name := Some (localName singleImport);
               namedBindings := None |};
     moduleSpecifier := moduleName singleImport;
     trailingComment := None |}.

Definition dummy_import : ImportDeclaration :=
  {| importClause := {| clause_name := Some (js "Core"); namedBindings := None |};
     moduleSpecifier := js "sap/ui/core/Core";
     trailingComment := Some (js " dummy import to make this non-ambient") |}.

Definition getImports (requiredImports : RequiredImports) : list ImportDeclaration :=
  let imports := List.map (fun entry => import_of (snd entry)) requiredImports in
  match imports with
  | [] => [dummy_import]   (* !imports.length *)
  | _ => imports
  end.

Section BuildAST.
(** [generateMethods] and [generateSettingsInterface] (astGenerationHelper)
    are taken as given, and as returning: each yields its node and
    [requiredImports] as it leaves it. [addLineBreakBefore] is recorded on
    the node it is applied to. *)
Variable Globals : Type.
Variable MethodSignature : Type.
Variable SettingsInterface : Type.
Variable generateMethods :
  ClassInfo -> RequiredImports -> Globals -> list MethodSignature * RequiredImports.
Variable generateSettingsInterface :
  ClassInfo -> jsstring -> bool -> jsstring -> RequiredImports -> Globals ->
  SettingsInterface * RequiredImports.

Record InterfaceDeclaration : Type := {
  interface_name : jsstring;
  interface_members : list MethodSignature;
  interface_lineBreaks : option nat }.

Record ModuleDeclaration : Type := {
  module_name : jsstring;
  module_settings : SettingsInterface;
  module_interface : InterfaceDeclaration;
  module_lineBreaks : option nat }.

Inductive Statement : Type :=
| ImportStatement (declaration : ImportDeclaration)
| ModuleStatement (declaration : ModuleDeclaration).

(** The result is [None] for [null]. *)
Definition buildAST (classInfo : ClassInfo) (classFileName : jsstring)
    (constructorSignaturesAvailable : bool)
    (moduleName settingsTypeFullName : jsstring) (allKnownGlobals : Globals)
  : option (list Statement) :=
  let requiredImports : RequiredImports := [] in
  let (generated, requiredImports) :=
    generateMethods classInfo requiredImports allKnownGlobals in
  match generated with
  | [] => None   (* methods.length === 0 *)
  | _ =>
      let (settingsInterface, requiredImports) :=
        generateSettingsInterface classInfo classFileName
          constructorSignaturesAvailable settingsTypeFullName
          requiredImports allKnownGlobals in
      let statements := List.map ImportStatement (getImports requiredImports) in
      let myInterface :=
        {| interface_name := ci_name classInfo;
           interface_members := generated;
           interface_lineBreaks := Some 2%nat |} in
      let module :=
        {| module_name := js "./" ++ moduleName;
           module_settings := settingsInterface;
           module_interface := myInterface;
           module_lineBreaks :=
             match statements with [] => None | _ => Some 2%nat end |} in
      Some (statements ++ [ModuleStatement module])
  end.
End BuildAST.

(** ** The diagnostics of the normaliser, entry by entry *)

(** One warning for each absent entry, in the order of the entries. *)
Definition absent_warnings (entries : list (jsstring * value)) : effects :=
  flat_map (fun entry =>
              if is_nullish (snd entry)
              then [no_valid_metadata (fst entry) (snd entry)] else [])
           entries.

(** For the events: the warning of an absent event, or else the warnings of
    the absent parameters of the event. *)
Definition event_warnings (entries : list (jsstring * value)) : effects :=
  flat_map (fun entry =>
              if is_nullish (snd entry)
              then [no_valid_metadata (fst entry) (snd entry)]
              else absent_warnings (own_entries (get_prop (snd entry) "parameters")))
           entries.

Definition expected_warnings (metadata : value) : effects :=
  absent_warnings (own_entries (get_prop metadata "specialSettings"))
  ++ absent_warnings (own_entries (get_prop metadata "properties"))
  ++ absent_warnings (own_entries (get_prop metadata "aggregations"))
  ++ absent_warnings (own_entries (get_prop metadata "associations"))
  ++ event_warnings (own_entries (get_prop metadata "events")).

(** [n] names an entry of the given kind that is not absent. *)
Definition has_entry (metadata : value) (kind : string) (n : jsstring) : Prop :=
  exists entry,
    In (n, entry) (own_entries (get_prop metadata kind))
    /\ is_nullish entry = false.

(** Every method name is its verb followed by a name. *)
Definition verbs_lead (methods : methods_map) : Prop :=
  forall verb name, In (verb, name) methods -> exists rest, name = verb ++ rest.

(** What every recorded aggregation, association and event satisfies. *)
Definition aggregation_invariant (n : jsstring) (a : Aggregation) : Prop :=
  aggr_name a = n
  /\ (aggr_cardinality a = js "0..1" \/ aggr_cardinality a = js "0..n")
  /\ verbs_lead (aggr_methods a).

Definition association_invariant (n : jsstring) (a : Association) : Prop :=
  asso_name a = n
  /\ (asso_cardinality a = js "0..1" \/ asso_cardinality a = js "0..n")
  /\ verbs_lead (asso_methods a).

Definition event_invariant (n : jsstring) (ev : UI5Event) : Prop :=
  ev_name ev = n
  /\ ev_visibility ev = VStr (js "public")
  /\ verbs_lead (ev_methods ev)
  /\ forall pName p,
       jsmap_get (ev_parameters ev) pName = Some p -> param_name p = pName.

(** ** What a computation may do

    A computation is tame when it writes warnings only and, if it throws,
    throws a [TypeError]. *)
Definition is_warning (e : effect) : bool :=
  match e with ConsoleWarn _ => true | _ => false end.

Definition tame {A : Type} (c : M A) : Prop :=
  forallb is_warning (snd c) = true
  /\ forall e, fst c = Throw e -> e = TypeError.

(** [undefined], or a value that counts as true. *)
Definition undefined_or_truthy (v : value) : Prop :=
  v = VUndefined \/ truthy v = true.

(** Metadata whose aggregation has a number as its singular name. *)
Definition metadata_with_numeric_singular : value :=
  VObj [ (js "properties", VObj [ (js "broken", VNull) ]);
         (js "aggregations",
          VObj [ (js "items", VObj [ (js "singularName", VNum 1%float) ]) ]) ].

(** Every entry of the members written in its long form. *)
Definition long_form (defaultKey : option jsstring)
    (props : list (jsstring * value)) : list (jsstring * value) :=
  List.map (fun entry => (fst entry, expandDefaultKey (snd entry) defaultKey)) props.

(** ** The constructor signatures, one constructor at a time

    The three signatures [checkConstructors] looks for, as conditions on a
    single constructor. *)
Definition string_and_reference (t1 t2 : TypeNode) : bool :=
  (is_StringKeyword t1 && isTypeReferenceNode t2)
  || (is_StringKeyword t2 && isTypeReferenceNode t1).

Definition is_single_declaration (ctor : ConstructorDeclaration) : bool :=
  match ctor_parameters ctor with
  | [parameter] =>
      negb (has_body ctor) && questionToken parameter
      && match parameter_type parameter with
         | Some (UnionType [t1; t2]) => string_and_reference t1 t2
         | _ => false
         end
  | _ => false
  end.

Definition typed_string_and_reference (ctor : ConstructorDeclaration) : bool :=
  match ctor_parameters ctor with
  | [parameter0; parameter1] =>
      match parameter_type parameter0, parameter_type parameter1 with
      | Some t1, Some t2 => string_and_reference t1 t2
      | _, _ => false
      end
  | _ => false
  end.

Definition is_double_declaration (ctor : ConstructorDeclaration) : bool :=
  negb (has_body ctor) && typed_string_and_reference ctor.

Definition is_implementation (ctor : ConstructorDeclaration) : bool :=
  has_body ctor && typed_string_and_reference ctor.

Definition signatures_among (constructors : list ConstructorDeclaration)
  : ConstructorFlags :=
  {| singleParameterDeclarationFound := existsb is_single_declaration constructors;
     doubleParameterDeclarationFound := existsb is_double_declaration constructors;
     implementationFound := existsb is_implementation constructors |}.

(** A constructor with a parameter number other than 1 or 2, or with one
    parameter and a body: the last branch of [checkConstructors], which
    logs a line with the name of the class. *)
Definition is_unexpected (ctor : ConstructorDeclaration) : bool :=
  match ctor_parameters ctor, has_body ctor with
  | [_], false => false
  | [_; _], _ => false
  | _, _ => true
  end.

(** A constructor on which [checkConstructors] reads the kind of a type
    that is not there: a single optional parameter without body and
    without type, or two parameters one of which has no type. *)
Definition reads_absent_type (ctor : ConstructorDeclaration) : bool :=
  match ctor_parameters ctor, has_body ctor with
  | [parameter], false =>
      questionToken parameter
      && match parameter_type parameter with None => true | Some _ => false end
  | [parameter0; parameter1], _ =>
      match parameter_type parameter0, parameter_type parameter1 with
      | Some _, Some _ => false
      | _, _ => true
      end
  | _, _ => false
  end.

(** The text of [name.text] in a log line, for a class that has a name. *)
Definition name_or_empty (name : option jsstring) : jsstring :=
  match name with Some text => text | None => [] end.

(** One line for each unexpected constructor, in the order of the
    members. *)
Definition unexpected_logs (name : option jsstring)
    (constructors : list ConstructorDeclaration) : effects :=
  List.map (fun _ => ConsoleLog (unexpected_constructor_message (name_or_empty name)))
           (filter is_unexpected constructors).

(** The flags after more constructors were seen. *)
Definition merge_flags (flags found : ConstructorFlags) : ConstructorFlags :=
  {| singleParameterDeclarationFound :=
       singleParameterDeclarationFound flags || singleParameterDeclarationFound found;
     doubleParameterDeclarationFound :=
       doubleParameterDeclarationFound flags || doubleParameterDeclarationFound found;
     implementationFound := implementationFound flags || implementationFound found |}.

Definition all_found (flags : ConstructorFlags) : bool :=
  singleParameterDeclarationFound flags
  && doubleParameterDeclarationFound flags
  && implementationFound flags.

(** The type of the last parameter of a constructor, if it has one. *)
Definition last_parameter_type (ctor : ConstructorDeclaration) : option TypeNode :=
  match last (List.map Some (ctor_parameters ctor)) None with
  | Some lastParameter => parameter_type lastParameter
  | None => None
  end.

Definition last_parameter_types (constructors : list ConstructorDeclaration)
  : list TypeNode :=
  flat_map (fun ctor => match last_parameter_type ctor with
                        | Some t => [t]
                        | None => []
                        end) constructors.

(** A class with the three standard constructors of a control, after a
    constructor without parameters. *)
Definition string_parameter (optional : bool) : ParameterDeclaration :=
  {| questionToken := optional; parameter_type := Some StringKeyword |}.

Definition settings_parameter (optional : bool) : ParameterDeclaration :=
  {| questionToken := optional;
     parameter_type := Some (TypeReference (js "$WidgetSettings")) |}.

Definition standard_constructors : list ClassMember :=
  [ ConstructorMember {| ctor_parameters := []; has_body := false |};
    ConstructorMember
      {| ctor_parameters :=
           [ {| questionToken := true;
                parameter_type :=
                  Some (UnionType [StringKeyword;
                                   TypeReference (js "$WidgetSettings")]) |} ];
         has_body := false |};
    OtherMember;
    ConstructorMember
      {| ctor_parameters := [string_parameter true; settings_parameter true];
         has_body := false |};
    ConstructorMember
      {| ctor_parameters := [string_parameter true; settings_parameter true];
         has_body := true |} ].

(** The effects that hand an interface to the result processor. *)
Definition is_result (e : effect) : bool :=
  match e with ResultProcessor _ _ _ => true | _ => false end.

(** ** getManagedObjects

    The statements of a source file, as far as [getManagedObjects] looks at
    them. A class declaration shows its members twice, as
    [generateInterface] and as [checkConstructors] look at them. *)
(** The objects [getManagedObjects] pushes. They are the
    [ManagedObjectInfo] of [generateInterface], except that
    [interestingBaseClass] is whatever the registry object held under the
    name of a type: a tier, or a value inherited from [Object.prototype],
    which the declared type of the field does not cover. *)
Record ManagedObjectOccurrence : Type := {
  occ_fileName : jsstring;             (* sourceFile.fileName *)
  occ_className : jsstring;
  occ_members : list ClassElement;     (* classDeclaration.members *)
  occ_settingsTypeFullName : jsstring;
  occ_interestingBaseClass : RegistryValue;
  occ_constructorSignaturesAvailable : bool }.

Section ManagedObjects.
(** The type checker: the types and symbols of Section Discovery, the
    declarations of a symbol, and, for the type node of a settings type,
    the fully qualified name of the symbol of its type (a call that throws
    when there is no such symbol). The declarations are taken as given, and
    as an array. *)
Variable type : Type.
Variable symbol : Type.
Variable getSymbol : type -> option symbol.
Variable getFullyQualifiedName : symbol -> jsstring.
Variable isClassOrInterface : type -> bool.
Variable getBaseTypes : type -> list type.
Variable getDeclarations : symbol -> list (option (list ClassMember)).
Variable settingsTypeFullName_of : TypeNode -> completion jsstring.

(** A type of a heritage clause: [typeNode.getText()] and
    [typeChecker.getTypeFromTypeNode(typeNode)]. *)
Record HeritageType : Type := {
  ht_text : jsstring;
  ht_type : type }.

Record HeritageClause : Type := {
  hc_types : option (list HeritageType) }.

Record ClassDeclaration : Type := {
  cd_name : option jsstring;                          (* statement.name *)
  cd_heritageClauses : option (list HeritageClause);
  cd_elements : list ClassElement;                    (* statement.members *)
  cd_members : list ClassMember }.                    (* statement.members *)

Inductive SourceStatement : Type :=
| ClassDeclarationStatement (statement : ClassDeclaration)
| OtherStatement.

Record SourceFile : Type := {
  sf_fileName : jsstring;
  sf_statements : list SourceStatement }.

Definition unresolved_type_message (text fileName : jsstring) : jsstring :=
  js "Type '" ++ text ++ js "' in " ++ fileName
  ++ js " could not be resolved - are the UI5 (and other) type definitions available and known in the tsconfig? Or is there a different reason why this type would not be known?".

(** A computation that may use up the stack: [None] says that a walk over
    the base types did not return. *)
Definition bindF {A B : Type} (c : option (M A)) (k : A -> option (M B))
  : option (M B) :=
  match c with
  | None => None
  | Some (Throw e, w) => Some (Throw e, w)
  | Some (Normal a, w) =>
      match k a with
      | None => None
      | Some (r, w') => Some (r, w ++ w')
      end
  end.

(** The callback of [heritageClause.types.forEach]; [managedObjects] is the
    array it pushes to. Its [return] ends this call only. *)
Definition visit_heritage_type (fuel : nat) (sourceFile : SourceFile)
    (statement : ClassDeclaration) (typeNode : HeritageType)
    (managedObjects : list ManagedObjectOccurrence)
  : option (M (list ManagedObjectOccurrence)) :=
  let t := ht_type typeNode in   (* type *)
  match getSymbol t with
  | None =>
      Some (throw (Error (unresolved_type_message (ht_text typeNode)
                            (sf_fileName sourceFile))))
  | Some s =>
      match getSettingsType (getDeclarations s) with
      | Throw e => Some (throw e)
      | Normal None => Some (ret managedObjects)
      | Normal (Some settingsTypeNode) =>
          match settingsTypeFullName_of settingsTypeNode with
          | Throw e => Some (throw e)
          | Normal settingsTypeFullName =>
              match getInterestingBaseClass type symbol getSymbol
                      getFullyQualifiedName isClassOrInterface getBaseTypes
                      fuel t with
              | None => None
              | Some (Throw e) => Some (throw e)
              | Some (Normal None) => Some (ret managedObjects)
              | Some (Normal (Some interestingBaseClass)) =>
                  Some
                    (constructorSignaturesAvailable <-
                       checkConstructors (cd_name statement)
                         (cd_members statement) ;;
                     ret (managedObjects
                          ++ [ {| occ_fileName := sf_fileName sourceFile;
                                  occ_className :=
                                    match cd_name statement with
                                    | Some text => text
                                    | None => []
                                    end;
                                  occ_members := cd_elements statement;
                                  occ_settingsTypeFullName := settingsTypeFullName;
                                  occ_interestingBaseClass := interestingBaseClass;
                                  occ_constructorSignaturesAvailable :=
                                    constructorSignaturesAvailable |} ]))
              end
          end
      end
  end.

Fixpoint each_heritage_type (fuel : nat) (sourceFile : SourceFile)
    (statement : ClassDeclaration) (types : list HeritageType)
    (managedObjects : list ManagedObjectOccurrence)
  : option (M (list ManagedObjectOccurrence)) :=
  match types with
  | [] => Some (ret managedObjects)
  | typeNode :: rest =>
      bindF (visit_heritage_type fuel sourceFile statement typeNode managedObjects)
            (each_heritage_type fuel sourceFile statement rest)
  end.

(** The callback of [statement.heritageClauses.forEach]. The flag
    [managedObjectFound] is read only in the last statement of this
    callback, to return from it: it changes nothing, and every heritage
    clause is looked at. *)
Fixpoint each_heritage_clause (fuel : nat) (sourceFile : SourceFile)
    (statement : ClassDeclaration) (clauses : list HeritageClause)
    (managedObjects : list ManagedObjectOccurrence)
  : option (M (list ManagedObjectOccurrence)) :=
  match clauses with
  | [] => Some (ret managedObjects)
  | heritageClause :: rest =>
      bindF (match hc_types heritageClause with
             | Some types =>
                 each_heritage_type fuel sourceFile statement types managedObjects
             | None => Some (ret managedObjects)
             end)
            (each_heritage_clause fuel sourceFile statement rest)
  end.

Fixpoint each_statement (fuel : nat) (sourceFile : SourceFile)
    (rest : list SourceStatement) (managedObjects : list ManagedObjectOccurrence)
  : option (M (list ManagedObjectOccurrence)) :=
  match rest with
  | [] => Some (ret managedObjects)
  | OtherStatement :: rest' => each_statement fuel sourceFile rest' managedObjects
  | ClassDeclarationStatement statement :: rest' =>
      bindF (match cd_heritageClauses statement with
             | Some clauses =>
                 each_heritage_clause fuel sourceFile statement clauses managedObjects
             | None => Some (ret managedObjects)
             end)
            (each_statement fuel sourceFile rest')
  end.

Definition getManagedObjects (fuel : nat) (sourceFile : SourceFile)
  : option (M (list ManagedObjectOccurrence)) :=
  each_statement fuel sourceFile (sf_statements sourceFile) [].

(** *** The listing, one heritage type at a time

    What a heritage type of a class contributes: one entry when the type
    has a settings type and the walk over its base types returns a value
    that counts as true, else nothing. *)
Definition all_signatures (statement : ClassDeclaration) : bool :=
  let flags := signatures_among (constructors_of (cd_members statement)) in
  singleParameterDeclarationFound flags
  && doubleParameterDeclarationFound flags
  && implementationFound flags.

Definition listed (fuel : nat) (sourceFile : SourceFile)
    (statement : ClassDeclaration) (typeNode : HeritageType)
  : list ManagedObjectOccurrence :=
  match getSymbol (ht_type typeNode) with
  | None => []
  | Some s =>
      match getSettingsType (getDeclarations s) with
      | Normal (Some settingsTypeNode) =>
          match settingsTypeFullName_of settingsTypeNode,
                getInterestingBaseClass type symbol getSymbol
                  getFullyQualifiedName isClassOrInterface getBaseTypes fuel
                  (ht_type typeNode) with
          | Normal settingsTypeFullName, Some (Normal (Some interestingBaseClass)) =>
              [ {| occ_fileName := sf_fileName sourceFile;
                   occ_className := match cd_name statement with
                                    | Some text => text
                                    | None => []
                                    end;
                   occ_members := cd_elements statement;
                   occ_settingsTypeFullName := settingsTypeFullName;
                   occ_interestingBaseClass := interestingBaseClass;
                   occ_constructorSignaturesAvailable := all_signatures statement |} ]
          | _, _ => []
          end
      | _ => []
      end
  end.

Definition heritage_types (statement : ClassDeclaration) : list HeritageType :=
  match cd_heritageClauses statement with
  | Some clauses =>
      flat_map (fun heritageClause =>
                  match hc_types heritageClause with
                  | Some types => types
                  | None => []
                  end) clauses
  | None => []
  end.

Definition listing (fuel : nat) (sourceFile : SourceFile)
  : list ManagedObjectOccurrence :=
  flat_map (fun statement =>
              match statement with
              | ClassDeclarationStatement statement =>
                  flat_map (listed fuel sourceFile statement)
                           (heritage_types statement)
              | OtherStatement => []
              end) (sf_statements sourceFile).
End ManagedObjects.

(** A source file whose class Widget extends Parent and implements
    Grandparent, over the three-tier family; the declaration of every
    symbol holds the standard constructors without the first. *)
Definition widget_class : ClassDeclaration family :=
  {| cd_name := Some (js "Widget");
     cd_heritageClauses :=
       Some [ {| hc_types := Some [ {| ht_text := js "Parent"; ht_type := Parent |} ] |};
              {| hc_types := Some [ {| ht_text := js "Grandparent";
                                       ht_type := Grandparent |} ] |} ];
     cd_elements := [];
     cd_members := tl standard_constructors |}.

Definition widgets_file : SourceFile family :=
  {| sf_fileName := js "src/Widgets.ts";
     sf_statements := [ OtherStatement family;
                        ClassDeclarationStatement family widget_class ] |}.

Definition widget_entry : ManagedObjectOccurrence :=
  {| occ_fileName := js "src/Widgets.ts";
     occ_className := js "Widget";
     occ_members := [];
     occ_settingsTypeFullName := js "$WidgetSettings";
     occ_interestingBaseClass := Tier Control;
     occ_constructorSignaturesAvailable := true |}.

(** A source file whose class Gauge extends the class valueOf. *)
Definition gauge_class : ClassDeclaration gauges :=
  {| cd_name := Some (js "Gauge");
     cd_heritageClauses :=
       Some [ {| hc_types := Some [ {| ht_text := js "valueOf";
                                       ht_type := ValueOf |} ] |} ];
     cd_elements := [];
     cd_members := tl standard_constructors |}.

Definition gauges_file : SourceFile gauges :=
  {| sf_fileName := js "src/Gauges.ts";
     sf_statements := [ ClassDeclarationStatement gauges gauge_class ] |}.

Definition gauge_entry : ManagedObjectOccurrence :=
  {| occ_fileName := js "src/Gauges.ts";
     occ_className := js "Gauge";
     occ_members := [];
     occ_settingsTypeFullName := js "$WidgetSettings";
     occ_interestingBaseClass := Inherited (js "valueOf");
     occ_constructorSignaturesAvailable := true |}.

(** * Facts *)

(** ** Strings and association lists *)

Lemma jsstring_eqb_spec (a b : jsstring) : jsstring_eqb a b = true <-> a = b.
Proof.
  revert b; induction a as [|x a IH]; destruct b as [|y b]; simpl;
    try (split; (discriminate || reflexivity)).
  rewrite andb_true_iff, N.eqb_eq, IH.
  split; [intros [-> ->]; reflexivity | intros E; inversion E; auto].
Qed.

Lemma jsstring_eqb_refl (a : jsstring) : jsstring_eqb a a = true.
Proof. now apply jsstring_eqb_spec. Qed.

Lemma jsstring_eqb_neq (a b : jsstring) : a <> b -> jsstring_eqb a b = false.
Proof.
  intros H; destruct (jsstring_eqb a b) eqn:E; [|reflexivity].
  now apply jsstring_eqb_spec in E.
Qed.

Lemma assoc_set_same {A} (l : list (jsstring * A)) k a :
  assoc (assoc_set l k a) k = Some a.
Proof.
  induction l as [|[k' a'] l IH]; simpl.
  - now rewrite jsstring_eqb_refl.
  - destruct (jsstring_eqb k' k) eqn:E; simpl; rewrite E; auto.
Qed.

Lemma assoc_set_other {A} (l : list (jsstring * A)) k k' a :
  k <> k' -> assoc (assoc_set l k a) k' = assoc l k'.
Proof.
  intros Hk; induction l as [|[k0 a0] l IH]; simpl.
  - now rewrite jsstring_eqb_neq.
  - destruct (jsstring_eqb k0 k) eqn:E; simpl.
    + apply jsstring_eqb_spec in E; subst k0.
      now rewrite jsstring_eqb_neq.
    + now rewrite IH.
Qed.

Lemma jsmap_get_set_same {A} (m : jsmap A) k a :
  jsmap_get (jsmap_set m k a) k = Some a.
Proof.
  unfold jsmap_get, jsmap_set.
  destruct (jsstring_eqb k proto_key); simpl; auto using assoc_set_same.
Qed.

Lemma jsmap_get_set_other {A} (m : jsmap A) k k' a :
  k <> k' -> jsmap_get (jsmap_set m k a) k' = jsmap_get m k'.
Proof.
  intros Hk; unfold jsmap_get, jsmap_set.
  destruct (jsstring_eqb k proto_key) eqn:E, (jsstring_eqb k' proto_key) eqn:E';
    simpl; auto using assoc_set_other.
  apply jsstring_eqb_spec in E, E'; congruence.
Qed.

Lemma jsmap_set_inj {A} (m : jsmap A) k (a b : A) :
  jsmap_set m k a = jsmap_set m k b -> a = b.
Proof.
  intros H; apply (f_equal (fun m => jsmap_get m k)) in H.
  rewrite !jsmap_get_set_same in H; now inversion H.
Qed.

(** ** expandDefaultKey *)

(** C4, as stated, fails: a boolean is a bare scalar, a default key is given,
    and [expandDefaultKey] returns the boolean itself, not the record
    [{type: true}]. *)
Lemma expandDefaultKey_leaves_boolean :
  expandDefaultKey (VBool true) (Some (js "type")) = VBool true
  /\ expandDefaultKey (VBool true) (Some (js "type"))
     <> VObj [(js "type", VBool true)].
Proof. split; [reflexivity | discriminate]. Qed.

(** C4, amended: only a bare string is wrapped, as [{ [defaultKey]: entry }],
    when a default key other than [__proto__] is given; every other entry
    (a record, an absent entry, a scalar that is not a string) and every
    entry without a default key is returned unchanged; in particular
    [expand("string", "type") = {type: "string"}],
    [expand({a: 1}, "type") = {a: 1}] and
    [expand(undefined, "type") = undefined]. *)
Theorem expandDefaultKey_wraps_strings_only :
  (forall s k, k <> proto_key ->
     expandDefaultKey (VStr s) (Some k) = VObj [(k, VStr s)])
  /\ (forall entry defaultKey, (forall s, entry <> VStr s) ->
        expandDefaultKey entry defaultKey = entry)
  /\ (forall entry, expandDefaultKey entry None = entry)
  /\ expandDefaultKey (VStr (js "string")) (Some (js "type"))
     = VObj [(js "type", VStr (js "string"))]
  /\ expandDefaultKey (VObj [(js "a", VNum 1%float)]) (Some (js "type"))
     = VObj [(js "a", VNum 1%float)]
  /\ expandDefaultKey VUndefined (Some (js "type")) = VUndefined.
Proof.
  repeat split.
  - intros s k Hk; simpl; unfold wrap.
    now rewrite (jsstring_eqb_neq _ _ Hk).
  - intros [] dk H; try reflexivity.
    now destruct (H s).
  - now intros [].
Qed.

(** The amended statement at a concrete string, key and record. *)
Lemma expandDefaultKey_wraps_strings_only_witness :
  expandDefaultKey (VStr (js "int")) (Some (js "type"))
  = VObj [(js "type", VStr (js "int"))]
  /\ expandDefaultKey (VArr []) (Some (js "type")) = VArr [].
Proof.
  split.
  - apply (proj1 expandDefaultKey_wraps_strings_only); discriminate.
  - apply (proj1 (proj2 expandDefaultKey_wraps_strings_only)); discriminate.
Defined.

(** ** guessSingularName *)

Lemma char_matches_i_lower (c p : code_unit) :
  char_matches_i c p = true <-> ascii_lower c = ascii_lower p.
Proof.
  unfold char_matches_i, ascii_upper, ascii_lower; rewrite N.eqb_eq.
  destruct ((97 <=? c) && (c <=? 122)) eqn:E1,
           ((97 <=? p) && (p <=? 122)) eqn:E2,
           ((65 <=? c) && (c <=? 90)) eqn:E3,
           ((65 <=? p) && (p <=? 90)) eqn:E4;
    rewrite ?andb_true_iff, ?andb_false_iff, ?N.leb_le, ?N.leb_gt in *; lia.
Qed.

Lemma matches_to_end_spec (rest alt : jsstring) :
  matches_to_end rest alt = true <-> equal_ignoring_case rest alt.
Proof.
  unfold equal_ignoring_case, toLowerCase_ascii.
  revert alt; induction rest as [|c rest IH]; destruct alt as [|q alt]; simpl;
    try (split; (discriminate || reflexivity)).
  rewrite andb_true_iff, char_matches_i_lower, IH.
  split; [intros [-> ->]; reflexivity | intros E; inversion E; auto].
Qed.

Lemma equal_ignoring_case_length (a b : jsstring) :
  equal_ignoring_case a b -> length a = length b.
Proof.
  unfold equal_ignoring_case, toLowerCase_ascii; intros E.
  apply (f_equal (@length _)) in E.
  now rewrite !length_map in E.
Qed.

Lemma some_alternative_matches (x : jsstring) :
  existsb (matches_to_end x) rPlural_alternatives = true
  <-> exists entry rule, In (entry, rule) singular_rules /\ equal_ignoring_case x entry.
Proof.
  rewrite existsb_exists; split.
  - intros (alt & Hin & Hm); apply matches_to_end_spec in Hm.
    unfold rPlural_alternatives, mSingular in Hin; simpl in Hin.
    repeat (destruct Hin as [<- | Hin];
            [eexists _, _; split; [|exact Hm]; simpl; tauto|]).
    destruct Hin.
  - intros (entry & rule & Hin & Hm); exists entry; split.
    + unfold singular_rules in Hin; simpl in Hin.
      unfold rPlural_alternatives, mSingular; simpl.
      repeat (destruct Hin as [Hin | Hin]; [inversion Hin; tauto|]).
      destruct Hin.
    + now apply matches_to_end_spec.
Qed.

(** What the callback of [replace] returns on a match of a table entry. *)
Lemma singular_callback_rule (suffix entry : jsstring) (rule : suffix_rule) :
  In (entry, rule) singular_rules -> equal_ignoring_case suffix entry ->
  singular_callback suffix
  = match rule with
    | DropLast k => firstn (length suffix - k) suffix
    | Becomes r => r
    end
  /\ match rule with
     | DropLast k => (k <= length suffix)%nat
     | Becomes _ => True
     end.
Proof.
  intros Hin He; pose proof (equal_ignoring_case_length _ _ He) as Hlen.
  unfold equal_ignoring_case in He; unfold singular_callback.
  unfold singular_rules in Hin; simpl in Hin.
  repeat (destruct Hin as [Hin | Hin];
          [inversion Hin; subst entry rule;
           split; [rewrite He; reflexivity
                  | try rewrite Hlen; simpl; lia || exact I]|]).
  destruct Hin.
Qed.

Lemma guessSingularName_unfold (s : jsstring) :
  guessSingularName s
  = if existsb (matches_to_end s) rPlural_alternatives
    then singular_callback s
    else match s with
         | [] => []
         | c :: rest => c :: guessSingularName rest
         end.
Proof. now destruct s. Qed.

Lemma guessSingularName_no_match (s : jsstring) :
  (forall suffix, ~ applicable s suffix) -> guessSingularName s = s.
Proof.
  induction s as [|c s IH]; intros Hno; rewrite guessSingularName_unfold.
  - destruct (existsb (matches_to_end []) rPlural_alternatives) eqn:E;
      [|reflexivity].
    exfalso; apply some_alternative_matches in E as (entry & rule & Hin & He).
    apply (Hno []); now exists [], entry, rule.
  - destruct (existsb (matches_to_end (c :: s)) rPlural_alternatives) eqn:E.
    + exfalso; apply some_alternative_matches in E as (entry & rule & Hin & He).
      apply (Hno (c :: s)); now exists [], entry, rule.
    + f_equal; apply IH; intros suffix (prefix & entry & rule & -> & Hin & He).
      apply (Hno suffix); now exists (c :: prefix), entry, rule.
Qed.

Lemma guessSingularName_first_match (prefix suffix : jsstring) :
  existsb (matches_to_end suffix) rPlural_alternatives = true ->
  (forall suffix', applicable (prefix ++ suffix) suffix' ->
     (length suffix' <= length suffix)%nat) ->
  guessSingularName (prefix ++ suffix) = prefix ++ singular_callback suffix.
Proof.
  intros Hm; induction prefix as [|c prefix IH]; intros Hmax;
    rewrite guessSingularName_unfold.
  - simpl app; now rewrite Hm.
  - simpl app.
    destruct (existsb (matches_to_end (c :: prefix ++ suffix))
                rPlural_alternatives) eqn:E.
    + exfalso; apply some_alternative_matches in E as (entry & rule & Hin & He).
      assert (H : applicable ((c :: prefix) ++ suffix) (c :: prefix ++ suffix))
        by now exists [], entry, rule.
      apply Hmax in H; simpl in H; rewrite length_app in H; lia.
    + f_equal; apply IH; intros suffix' (prefix' & entry & rule & Hs & Hin & He).
      apply Hmax; exists (c :: prefix'), entry, rule; simpl; now rewrite Hs.
Qed.

Lemma firstn_drop_last_app (prefix suffix : jsstring) (k : nat) :
  (k <= length suffix)%nat ->
  firstn (length (prefix ++ suffix) - k) (prefix ++ suffix)
  = prefix ++ firstn (length suffix - k) suffix.
Proof.
  intros Hk; rewrite length_app, firstn_app.
  rewrite firstn_all2 by lia.
  f_equal; f_equal; lia.
Qed.

(** C3: [guessSingularName] replaces the longest suffix of its input that
    is, up to case, an entry of the table (children: drop the last 3
    characters; ies: becomes y; ves: becomes f; oes, ses, ches, shes, xes:
    drop the last 2; s: drop the last 1); the part of the input before the
    match is kept as it is; an input none of whose suffixes is an entry is
    returned unchanged; and buttons, categories, leaves, heroes, classes,
    children, boxes give button, category, leaf, hero, class, child, box. *)
Theorem guessSingularName_longest_suffix :
  (forall prefix suffix entry rule,
     In (entry, rule) singular_rules ->
     equal_ignoring_case suffix entry ->
     (forall suffix', applicable (prefix ++ suffix) suffix' ->
        (length suffix' <= length suffix)%nat) ->
     guessSingularName (prefix ++ suffix) = apply_rule rule prefix suffix)
  /\ (forall s, (forall suffix, ~ applicable s suffix) -> guessSingularName s = s)
  /\ guessSingularName (js "buttons") = js "button"
  /\ guessSingularName (js "categories") = js "category"
  /\ guessSingularName (js "leaves") = js "leaf"
  /\ guessSingularName (js "heroes") = js "hero"
  /\ guessSingularName (js "classes") = js "class"
  /\ guessSingularName (js "children") = js "child"
  /\ guessSingularName (js "boxes") = js "box".
Proof.
  split; [|split; [exact guessSingularName_no_match | repeat split; reflexivity]].
  intros prefix suffix entry rule Hin He Hmax.
  rewrite guessSingularName_first_match; trivial.
  - destruct (singular_callback_rule _ _ _ Hin He) as [-> Hk].
    destruct rule as [k|r]; simpl apply_rule; [|reflexivity].
    now rewrite firstn_drop_last_app.
  - apply some_alternative_matches; eauto.
Qed.

(** No suffix of Data is an entry of the table: every entry ends in s or
    in n. *)
Lemma Data_has_no_applicable_suffix :
  forall suffix, ~ applicable (js "Data") suffix.
Proof.
  intros suffix (prefix & entry & rule & Hs & Hin & He).
  unfold singular_rules in Hin; simpl in Hin.
  assert (Hend : suffix = removelast suffix ++ [last suffix 0]
                 /\ (ascii_lower (last suffix 0) = 115
                     \/ ascii_lower (last suffix 0) = 110)).
  { unfold equal_ignoring_case in He.
    repeat (destruct Hin as [Hin | Hin];
            [inversion Hin; subst entry rule; clear Hin;
             repeat (destruct suffix as [|? suffix]; try discriminate He);
             apply (f_equal (fun l => last l 0)) in He; split;
             [reflexivity | simpl; first [left; exact He | right; exact He]]|]).
    destruct Hin. }
  destruct Hend as (Hsplit & Hc).
  rewrite Hsplit, app_assoc in Hs.
  change (js "Data") with ([68; 97; 116] ++ [97]) in Hs.
  apply app_inj_tail in Hs as [_ Hlast].
  rewrite <- Hlast in Hc; destruct Hc; discriminate.
Qed.

(** C3 at the input BoXES, whose longest applicable suffix is XES, and at
    the input Data, which has none. *)
Lemma guessSingularName_longest_suffix_witness :
  guessSingularName (js "Bo" ++ js "XES") = js "BoX"
  /\ guessSingularName (js "Data") = js "Data".
Proof.
  split.
  - apply (proj1 guessSingularName_longest_suffix
             (js "Bo") (js "XES") (js "xes") (DropLast 2)).
    + simpl; tauto.
    + reflexivity.
    + intros suffix' (prefix' & entry & rule & Hs & Hin & He).
      apply equal_ignoring_case_length in He as Hlen.
      apply (f_equal (@length _)) in Hs as Hl; rewrite !length_app in Hl.
      unfold singular_rules in Hin; simpl in Hin.
      repeat (destruct Hin as [Hin | Hin];
              [inversion Hin; subst entry rule; clear Hin;
               first
                 [ rewrite Hlen; simpl; lia
                 | simpl in Hl, Hlen; lia
                 | destruct prefix' as [|a [|b prefix']];
                   [ simpl in Hl, Hlen; lia
                   | inversion Hs; subst; discriminate He
                   | simpl in Hl, Hlen; lia ] ]|]).
      destruct Hin.
  - apply (proj1 (proj2 guessSingularName_longest_suffix)).
    exact Data_has_no_applicable_suffix.
Defined.

(** On an input none of whose suffixes is an entry of the table,
    [guessSingularName] is idempotent. *)
Theorem guessSingularName_idempotent_without_match :
  forall s,
    (forall suffix, ~ applicable s suffix) ->
    guessSingularName (guessSingularName s) = guessSingularName s.
Proof.
  intros s Hno; now rewrite !(guessSingularName_no_match s Hno).
Qed.

Lemma guessSingularName_idempotent_without_match_witness :
  guessSingularName (guessSingularName (js "Data")) = guessSingularName (js "Data").
Proof.
  apply (guessSingularName_idempotent_without_match (js "Data")).
  exact Data_has_no_applicable_suffix.
Defined.

(** ** The loop over the members of one kind *)

Lemma bind_Normal_inv {A B} (c : M A) (k : A -> M B) (b : B) (w : effects) :
  bind c k = (Normal b, w) ->
  exists a w1 w2, c = (Normal a, w1) /\ k a = (Normal b, w2) /\ w = w1 ++ w2.
Proof.
  unfold bind; destruct c as [[a|e] w1]; [|discriminate].
  destruct (k a) as [r w2] eqn:E; intros H; inversion H; subst.
  now exists a, w1, w2.
Qed.

(** [H : x <- c ;; k x = (Normal b, w)] becomes [Ha : c = (Normal a, _)] and
    [H : k a = (Normal b, _)]. *)
Ltac bind_inv_as H a Ha :=
  let w1 := fresh "w" in let w2 := fresh "w" in let Hw := fresh "Hw" in
  apply bind_Normal_inv in H as (a & w1 & w2 & Ha & H & Hw).

Ltac bind_inv H :=
  let a := fresh "a" in let Ha := fresh H in bind_inv_as H a Ha.

Lemma is_nullish_expandDefaultKey (entry : value) (defaultKey : option jsstring) :
  is_nullish (expandDefaultKey entry defaultKey) = is_nullish entry.
Proof.
  destruct entry, defaultKey; try reflexivity.
  simpl; unfold wrap; now destruct (jsstring_eqb _ _).
Qed.

Section EachFacts.
Context {A : Type}.
Variable defaultKey : option jsstring.
Variable callback : jsstring -> value -> jsmap A -> M (jsmap A).
Hypothesis callback_stores :
  forall n settings m m' w,
    callback n settings m = (Normal m', w) -> exists a, m' = jsmap_set m n a.

Lemma each_entries_preserves (n : jsstring) (post : list (jsstring * value)) :
  ~ In n (map fst post) ->
  forall m m' w,
    each_entries defaultKey (on_settings callback) post m = (Normal m', w) ->
    jsmap_get m' n = jsmap_get m n.
Proof.
  induction post as [|[k e] post IH]; intros Hn m m' w H;
    cbn [each_entries on_settings] in H; simpl in Hn.
  - now inversion H.
  - destruct (is_nullish (expandDefaultKey e defaultKey)); bind_inv H.
    + eapply IH; eauto.
    + destruct (callback_stores _ _ _ _ _ H0) as [r ->].
      erewrite IH by eauto.
      apply jsmap_get_set_other; intuition.
Qed.

Lemma each_entries_last (P : A -> Prop) (pre post : list (jsstring * value))
    (n : jsstring) (entry : value) :
  ~ In n (map fst post) ->
  is_nullish entry = false ->
  (forall m m' w,
     callback n (expandDefaultKey entry defaultKey) m = (Normal m', w) ->
     exists a, m' = jsmap_set m n a /\ P a) ->
  forall m m' w,
    each_entries defaultKey (on_settings callback) (pre ++ (n, entry) :: post) m = (Normal m', w) ->
    exists a, jsmap_get m' n = Some a /\ P a.
Proof.
  intros Hn He HP; induction pre as [|[k e] pre IH]; intros m m' w H;
    cbn [each_entries on_settings app] in H.
  - rewrite is_nullish_expandDefaultKey, He in H; bind_inv H.
    destruct (HP _ _ _ H0) as (r & -> & Hr).
    exists r; split; [|exact Hr].
    erewrite each_entries_preserves by eauto.
    apply jsmap_get_set_same.
  - destruct (is_nullish (expandDefaultKey e defaultKey)); bind_inv H; eauto.
Qed.

Lemma each_Normal_entries (map : value) (m m' : jsmap A) (w : effects) :
  each defaultKey (on_settings callback) map m = (Normal m', w) ->
  own_entries map <> [] ->
  each_entries defaultKey (on_settings callback) (own_entries map) m = (Normal m', w).
Proof.
  unfold each; intros H Hne.
  destruct (truthy map) eqn:Ht.
  - now destruct (hides_hasOwnProperty map).
  - destruct map as [| |b|x|[|c s]|l|o]; simpl in *; congruence.
Qed.

Lemma each_last (P : A -> Prop) (map : value) (pre post : list (jsstring * value))
    (n : jsstring) (entry : value) (m m' : jsmap A) (w : effects) :
  each defaultKey (on_settings callback) map m = (Normal m', w) ->
  own_entries map = pre ++ (n, entry) :: post ->
  ~ In n (List.map fst post) ->
  is_nullish entry = false ->
  (forall m m' w,
     callback n (expandDefaultKey entry defaultKey) m = (Normal m', w) ->
     exists a, m' = jsmap_set m n a /\ P a) ->
  exists a, jsmap_get m' n = Some a /\ P a.
Proof.
  intros H Hentries Hn He HP.
  apply each_Normal_entries in H.
  - rewrite Hentries in H; eapply each_entries_last; eauto.
  - rewrite Hentries; now destruct pre.
Qed.
End EachFacts.

(** ** Entries the loop skips *)

Lemma bind_Normal {A B} (c : M A) (k : A -> M B) a w1 r w2 :
  c = (Normal a, w1) -> k a = (r, w2) -> bind c k = (r, w1 ++ w2).
Proof. intros -> H; unfold bind; now rewrite H. Qed.

Lemma assoc_app_skip {A} (pre post : list (jsstring * A)) n (a : A) k :
  n <> k -> assoc (pre ++ (n, a) :: post) k = assoc (pre ++ post) k.
Proof.
  intros Hn; induction pre as [|[k' a'] pre IH]; simpl.
  - now rewrite jsstring_eqb_neq.
  - now rewrite IH.
Qed.

(** One more line written by the first, or by the second part of a
    computation that returns. *)
Lemma bind_writes_left {A B} (c c' : M A) (k : A -> M B) (e : effect) b w :
  bind c k = (Normal b, w) ->
  (forall a w1, c = (Normal a, w1) ->
     exists before after,
       w1 = before ++ after /\ c' = (Normal a, before ++ e :: after)) ->
  exists before after,
    w = before ++ after /\ bind c' k = (Normal b, before ++ e :: after).
Proof.
  intros H Hc; bind_inv_as H a Ha.
  destruct (Hc _ _ Ha) as (before & after & -> & ->); subst w.
  match type of H with _ = (_, ?w2) => exists before, (after ++ w2) end.
  split; [now rewrite app_assoc|].
  unfold bind; rewrite H; now rewrite <- app_assoc.
Qed.

Lemma bind_writes_right {A B} (c : M A) (k k' : A -> M B) (e : effect) b w :
  bind c k = (Normal b, w) ->
  (forall a b' w2, k a = (Normal b', w2) ->
     exists before after,
       w2 = before ++ after /\ k' a = (Normal b', before ++ e :: after)) ->
  exists before after,
    w = before ++ after /\ bind c k' = (Normal b, before ++ e :: after).
Proof.
  intros H Hk; bind_inv_as H a Ha.
  destruct (Hk _ _ _ H) as (before & after & -> & Hk'); subst w.
  match type of Ha with _ = (_, ?w1) => exists (w1 ++ before), after end.
  split; [now rewrite app_assoc|].
  rewrite <- app_assoc; now apply (bind_Normal _ _ a).
Qed.

Section SkipFacts.
Context {St : Type}.
Variable defaultKey : option jsstring.
Variable callback : jsstring -> value -> St -> M St.
Variables (n : jsstring) (entry : value) (post : list (jsstring * value)).
Hypothesis entry_absent : is_nullish entry = true.

Lemma each_entries_skip (pre : list (jsstring * value)) (st st' : St)
    (w' : effects) :
  each_entries defaultKey (on_settings callback) (pre ++ post) st = (Normal st', w') ->
  exists before after,
    w' = before ++ after
    /\ each_entries defaultKey (on_settings callback) (pre ++ (n, entry) :: post) st
       = (Normal st', before ++ no_valid_metadata n entry :: after).
Proof.
  revert st w'; induction pre as [|[k e] pre IH]; intros st w' H;
    cbn [app each_entries on_settings] in *.
  - rewrite is_nullish_expandDefaultKey, entry_absent.
    exists [], w'; split; [reflexivity|].
    now apply (bind_Normal _ _ tt [no_valid_metadata n entry]).
  - destruct (is_nullish (expandDefaultKey e defaultKey)).
    + bind_inv_as H u Hu.
      destruct (IH _ _ H) as (before & after & -> & Hskip).
      inversion Hu; subst.
      exists (no_valid_metadata k e :: before), after; split; [reflexivity|].
      now apply (bind_Normal _ _ tt [no_valid_metadata k e]).
    + bind_inv_as H st1 Hcb.
      destruct (IH _ _ H) as (before & after & -> & Hskip); subst w'.
      match type of Hcb with _ = (_, ?w1) =>
        exists (w1 ++ before), after; split; [now rewrite app_assoc|];
        rewrite <- app_assoc; now apply (bind_Normal _ _ st1 w1)
      end.
Qed.

Lemma each_skip (pre : list (jsstring * value)) (st st' : St) (w' : effects) :
  n <> js "hasOwnProperty" ->
  each defaultKey (on_settings callback) (VObj (pre ++ post)) st = (Normal st', w') ->
  exists before after,
    w' = before ++ after
    /\ each defaultKey (on_settings callback) (VObj (pre ++ (n, entry) :: post)) st
       = (Normal st', before ++ no_valid_metadata n entry :: after).
Proof.
  unfold each; cbn [truthy hides_hasOwnProperty own_entries]; intros Hn.
  rewrite (assoc_app_skip _ _ _ _ _ Hn).
  destruct (assoc (pre ++ post) (js "hasOwnProperty")); [discriminate|].
  apply each_entries_skip.
Qed.
End SkipFacts.

(** ** The normaliser *)

Section NormalizerFacts.
Variable toUpperCase : jsstring -> jsstring.

Lemma ret_Normal_inv {A} (a b : A) (w : effects) :
  ret a = (Normal b, w) -> a = b /\ w = [].
Proof. unfold ret; intros H; now inversion H. Qed.

Lemma aggregation_cardinality_cases (multiple : value) :
  (aggregation_cardinality multiple = cardinality_0_1
   /\ multiple <> VUndefined /\ truthy multiple = false)
  \/ (aggregation_cardinality multiple = cardinality_0_n
      /\ (multiple = VUndefined \/ truthy multiple = true)).
Proof.
  unfold aggregation_cardinality.
  destruct (truthy multiple) eqn:Ht.
  - right; rewrite andb_false_r; auto.
  - destruct multiple; try (left; repeat split; (reflexivity || discriminate));
      right; split; [reflexivity | now left].
Qed.

(** What the callback for aggregations stores under [n]. *)
Lemma aggregation_callback_Normal (n : jsstring) (settings : value)
    (m m' : jsmap Aggregation) (w : effects) :
  aggregation_callback toUpperCase n settings m = (Normal m', w) ->
  exists aggr,
    m' = jsmap_set m n aggr
    /\ aggr_cardinality aggr = aggregation_cardinality (get_prop settings "multiple")
    /\ aggr_singularName aggr
       = (if truthy (get_prop settings "singularName")
          then get_prop settings "singularName"
          else VStr (guessSingularName n))
    /\ aggr_type aggr
       = or_else (get_prop settings "type") (VStr (js "sap.ui.core.Control"))
    /\ aggr_visibility aggr
       = or_else (get_prop settings "visibility") (VStr (js "public"))
    /\ (aggr_cardinality aggr = cardinality_0_1 ->
        aggr_methods aggr
        = aggregation_methods_0_1 (upper toUpperCase n)
          ++ binding_methods (upper toUpperCase n)
               (truthy (get_prop settings "bindable")))
    /\ (aggr_cardinality aggr = cardinality_0_n ->
        exists singular,
          aggr_singularName aggr = VStr singular
          /\ aggr_methods aggr
             = aggregation_methods_0_n (upper toUpperCase n) (upper toUpperCase singular)
               ++ binding_methods (upper toUpperCase n)
               (truthy (get_prop settings "bindable"))).
Proof.
  unfold aggregation_callback; intros H; bind_inv_as H methods Hm.
  apply ret_Normal_inv in H as [<- _].
  eexists; split; [reflexivity|]; cbn [aggr_cardinality aggr_singularName
    aggr_type aggr_visibility aggr_methods].
  repeat (split; [reflexivity|]).
  destruct (aggregation_cardinality_cases (get_prop settings "multiple"))
    as [(Hc & _) | (Hc & _)]; rewrite Hc in *.
  - change (jsstring_eqb cardinality_0_1 cardinality_0_1) with true in Hm.
    apply ret_Normal_inv in Hm as [<- _].
    split; [intros _ | discriminate].
    now destruct (truthy (get_prop settings "bindable")).
  - change (jsstring_eqb cardinality_0_n cardinality_0_1) with false in Hm.
    split; [discriminate | intros _].
    bind_inv_as Hm N1 HN1; apply ret_Normal_inv in Hm as [<- _].
    destruct (if truthy (get_prop settings "singularName")
              then get_prop settings "singularName"
              else VStr (guessSingularName n)) as [| | | |singular| |];
      try discriminate HN1.
    inversion HN1; subst N1.
    exists singular; split; [reflexivity|].
    now destruct (truthy (get_prop settings "bindable")).
Qed.
(** What the callback for associations stores under [n]. *)
Lemma association_callback_Normal (n : jsstring) (settings : value)
    (m m' : jsmap Association) (w : effects) :
  association_callback toUpperCase n settings m = (Normal m', w) ->
  exists asso,
    m' = jsmap_set m n asso
    /\ asso_cardinality asso = association_cardinality (get_prop settings "multiple")
    /\ asso_singularName asso
       = (if truthy (get_prop settings "singularName")
          then get_prop settings "singularName"
          else VStr (guessSingularName n))
    /\ asso_type asso
       = or_else (get_prop settings "type") (VStr (js "sap.ui.core.Control"))
    /\ asso_visibility asso
       = or_else (get_prop settings "visibility") (VStr (js "public"))
    /\ (asso_cardinality asso = cardinality_0_1 ->
        asso_methods asso = association_methods_0_1 (upper toUpperCase n))
    /\ (asso_cardinality asso = cardinality_0_n ->
        exists singular,
          asso_singularName asso = VStr singular
          /\ asso_methods asso
             = association_methods_0_n (upper toUpperCase n)
                 (upper toUpperCase singular)).
Proof.
  unfold association_callback; intros H; bind_inv_as H methods Hm.
  apply ret_Normal_inv in H as [<- _].
  eexists; split; [reflexivity|]; cbn [asso_cardinality asso_singularName
    asso_type asso_visibility asso_methods].
  repeat (split; [reflexivity|]).
  unfold association_cardinality in *.
  destruct (truthy (get_prop settings "multiple")).
  - change (jsstring_eqb cardinality_0_n cardinality_0_1) with false in Hm.
    split; [discriminate | intros _].
    bind_inv_as Hm N1 HN1; apply ret_Normal_inv in Hm as [<- _].
    destruct (if truthy (get_prop settings "singularName")
              then get_prop settings "singularName"
              else VStr (guessSingularName n)) as [| | | |singular| |];
      try discriminate HN1.
    inversion HN1; subst N1.
    now exists singular.
  - change (jsstring_eqb cardinality_0_1 cardinality_0_1) with true in Hm.
    apply ret_Normal_inv in Hm as [<- _].
    split; [intros _; reflexivity | discriminate].
Qed.

(** What the callback for properties stores under [n]. *)
Lemma property_callback_Normal (n : jsstring) (settings : value)
    (m m' : jsmap Property) (w : effects) :
  property_callback toUpperCase n settings m = (Normal m', w) ->
  exists prop,
    m' = jsmap_set m n prop
    /\ prop_type prop = or_else (get_prop settings "type") (VStr (js "string"))
    /\ prop_visibility prop
       = or_else (get_prop settings "visibility") (VStr (js "public"))
    /\ prop_methods prop
       = [named "get" (upper toUpperCase n); named "set" (upper toUpperCase n)]
         ++ binding_methods (upper toUpperCase n) (truthy (get_prop settings "bindable")).
Proof.
  unfold property_callback; intros H; apply ret_Normal_inv in H as [<- _].
  eexists; split; [reflexivity|]; cbn [prop_type prop_visibility prop_methods].
  repeat (split; [reflexivity|]).
  now destruct (truthy (get_prop settings "bindable")).
Qed.

(** What the callback for special settings stores under [n]. *)
Lemma specialSetting_callback_Normal (n : jsstring) (settings : value)
    (m m' : jsmap SpecialSetting) (w : effects) :
  specialSetting_callback n settings m = (Normal m', w) ->
  exists ss,
    m' = jsmap_set m n ss
    /\ ss_type ss = or_else (get_prop settings "type") (VStr (js "any"))
    /\ ss_visibility ss
       = or_else (get_prop settings "visibility") (VStr (js "public")).
Proof.
  unfold specialSetting_callback; intros H; apply ret_Normal_inv in H as [<- _].
  eexists; split; [reflexivity|]; now split.
Qed.

(** What the callback for events stores under [n]. *)
Lemma event_callback_Normal (n : jsstring) (settings : value)
    (m m' : jsmap UI5Event) (w : effects) :
  event_callback toUpperCase n settings m = (Normal m', w) ->
  exists ev,
    m' = jsmap_set m n ev
    /\ ev_visibility ev = VStr (js "public")
    /\ ev_methods ev
       = [named "attach" (upper toUpperCase n); named "detach" (upper toUpperCase n);
          named "fire" (upper toUpperCase n)].
Proof.
  unfold event_callback; intros H; bind_inv_as H parameters Hp.
  apply ret_Normal_inv in H as [<- _].
  eexists; split; [reflexivity|]; now split.
Qed.

Lemma truthy_of_entries (metadata : value) (kind : string) :
  own_entries (get_prop metadata kind) <> [] -> truthy metadata = true.
Proof. destruct metadata; simpl; congruence. Qed.

Lemma member_of_truthy (metadata : value) (kind : string) (n : jsstring)
    (entry : value) :
  member_of metadata kind n entry -> truthy metadata = true.
Proof.
  intros (pre & post & H & _); apply (truthy_of_entries metadata kind).
  rewrite H; now destruct pre.
Qed.

(** The five loops of a run that returns. *)
Lemma collectClassInfo_Normal (metadata : value) (className : jsstring)
    (info : ClassInfo) (w : effects) :
  collectClassInfo toUpperCase metadata className = (Normal info, w) ->
  truthy metadata = true ->
  exists w1 w2 w3 w4 w5,
    each type_key (on_settings specialSetting_callback)
      (get_prop metadata "specialSettings") jsmap_empty
    = (Normal (ci_specialSettings info), w1)
    /\ each type_key (on_settings (property_callback toUpperCase))
         (get_prop metadata "properties") jsmap_empty
       = (Normal (ci_properties info), w2)
    /\ each type_key (on_settings (aggregation_callback toUpperCase))
         (get_prop metadata "aggregations") jsmap_empty
       = (Normal (ci_aggregations info), w3)
    /\ each type_key (on_settings (association_callback toUpperCase))
         (get_prop metadata "associations") jsmap_empty
       = (Normal (ci_associations info), w4)
    /\ each None (on_settings (event_callback toUpperCase))
         (get_prop metadata "events") jsmap_empty
       = (Normal (ci_events info), w5).
Proof.
  unfold collectClassInfo; intros H Ht; rewrite Ht in H.
  bind_inv_as H specialSettings H1; bind_inv_as H properties H2.
  bind_inv_as H aggregations H3; bind_inv_as H associations H4.
  bind_inv_as H events H5.
  apply ret_Normal_inv in H as [<- _]; simpl.
  eexists _, _, _, _, _; repeat split; eassumption.
Qed.

(** Every member of the input that is not skipped is recorded, with what
    its callback builds. *)
Lemma aggregation_recorded (metadata : value) (className : jsstring)
    (info : ClassInfo) (w : effects) (n : jsstring) (entry : value) :
  collectClassInfo toUpperCase metadata className = (Normal info, w) ->
  member_of metadata "aggregations" n entry ->
  exists aggr w' m,
    jsmap_get (ci_aggregations info) n = Some aggr
    /\ aggregation_callback toUpperCase n (expandDefaultKey entry type_key) m
       = (Normal (jsmap_set m n aggr), w').
Proof.
  intros H Hm; pose proof (member_of_truthy _ _ _ _ Hm) as Ht.
  destruct (collectClassInfo_Normal _ _ _ _ H Ht)
    as (w1 & w2 & w3 & w4 & w5 & _ & _ & H3 & _).
  destruct Hm as (pre & post & Hentries & Hn & He).
  assert (Hstores : forall k settings m m' w',
             aggregation_callback toUpperCase k settings m = (Normal m', w') ->
             exists a, m' = jsmap_set m k a).
  { intros k settings m m' w' Hcb.
    destruct (aggregation_callback_Normal _ _ _ _ _ Hcb) as (a & -> & _); eauto. }
  destruct (each_last type_key _ Hstores
              (fun aggr => exists w' m,
                 aggregation_callback toUpperCase n (expandDefaultKey entry type_key) m
                 = (Normal (jsmap_set m n aggr), w'))
              _ _ _ _ _ _ _ _ H3 Hentries Hn He)
    as (aggr & Hget & w' & m & Hcb); eauto.
  intros m m' w' Hcb.
  destruct (Hstores _ _ _ _ _ Hcb) as (a & ->); eauto.
Qed.

Lemma association_recorded (metadata : value) (className : jsstring)
    (info : ClassInfo) (w : effects) (n : jsstring) (entry : value) :
  collectClassInfo toUpperCase metadata className = (Normal info, w) ->
  member_of metadata "associations" n entry ->
  exists asso w' m,
    jsmap_get (ci_associations info) n = Some asso
    /\ association_callback toUpperCase n (expandDefaultKey entry type_key) m
       = (Normal (jsmap_set m n asso), w').
Proof.
  intros H Hm; pose proof (member_of_truthy _ _ _ _ Hm) as Ht.
  destruct (collectClassInfo_Normal _ _ _ _ H Ht)
    as (w1 & w2 & w3 & w4 & w5 & _ & _ & _ & H4 & _).
  destruct Hm as (pre & post & Hentries & Hn & He).
  assert (Hstores : forall k settings m m' w',
             association_callback toUpperCase k settings m = (Normal m', w') ->
             exists a, m' = jsmap_set m k a).
  { intros k settings m m' w' Hcb.
    destruct (association_callback_Normal _ _ _ _ _ Hcb) as (a & -> & _); eauto. }
  destruct (each_last type_key _ Hstores
              (fun asso => exists w' m,
                 association_callback toUpperCase n (expandDefaultKey entry type_key) m
                 = (Normal (jsmap_set m n asso), w'))
              _ _ _ _ _ _ _ _ H4 Hentries Hn He)
    as (asso & Hget & w' & m & Hcb); eauto.
  intros m m' w' Hcb.
  destruct (Hstores _ _ _ _ _ Hcb) as (a & ->); eauto.
Qed.

Lemma property_recorded (metadata : value) (className : jsstring)
    (info : ClassInfo) (w : effects) (n : jsstring) (entry : value) :
  collectClassInfo toUpperCase metadata className = (Normal info, w) ->
  member_of metadata "properties" n entry ->
  exists prop w' m,
    jsmap_get (ci_properties info) n = Some prop
    /\ property_callback toUpperCase n (expandDefaultKey entry type_key) m
       = (Normal (jsmap_set m n prop), w').
Proof.
  intros H Hm; pose proof (member_of_truthy _ _ _ _ Hm) as Ht.
  destruct (collectClassInfo_Normal _ _ _ _ H Ht)
    as (w1 & w2 & w3 & w4 & w5 & _ & H2 & _).
  destruct Hm as (pre & post & Hentries & Hn & He).
  assert (Hstores : forall k settings m m' w',
             property_callback toUpperCase k settings m = (Normal m', w') ->
             exists a, m' = jsmap_set m k a).
  { intros k settings m m' w' Hcb.
    destruct (property_callback_Normal _ _ _ _ _ Hcb) as (a & -> & _); eauto. }
  destruct (each_last type_key _ Hstores
              (fun prop => exists w' m,
                 property_callback toUpperCase n (expandDefaultKey entry type_key) m
                 = (Normal (jsmap_set m n prop), w'))
              _ _ _ _ _ _ _ _ H2 Hentries Hn He)
    as (prop & Hget & w' & m & Hcb); eauto.
  intros m m' w' Hcb.
  destruct (Hstores _ _ _ _ _ Hcb) as (a & ->); eauto.
Qed.

Lemma specialSetting_recorded (metadata : value) (className : jsstring)
    (info : ClassInfo) (w : effects) (n : jsstring) (entry : value) :
  collectClassInfo toUpperCase metadata className = (Normal info, w) ->
  member_of metadata "specialSettings" n entry ->
  exists ss w' m,
    jsmap_get (ci_specialSettings info) n = Some ss
    /\ specialSetting_callback n (expandDefaultKey entry type_key) m
       = (Normal (jsmap_set m n ss), w').
Proof.
  intros H Hm; pose proof (member_of_truthy _ _ _ _ Hm) as Ht.
  destruct (collectClassInfo_Normal _ _ _ _ H Ht)
    as (w1 & w2 & w3 & w4 & w5 & H1 & _).
  destruct Hm as (pre & post & Hentries & Hn & He).
  assert (Hstores : forall k settings m m' w',
             specialSetting_callback k settings m = (Normal m', w') ->
             exists a, m' = jsmap_set m k a).
  { intros k settings m m' w' Hcb.
    destruct (specialSetting_callback_Normal _ _ _ _ _ Hcb) as (a & -> & _); eauto. }
  destruct (each_last type_key _ Hstores
              (fun ss => exists w' m,
                 specialSetting_callback n (expandDefaultKey entry type_key) m
                 = (Normal (jsmap_set m n ss), w'))
              _ _ _ _ _ _ _ _ H1 Hentries Hn He)
    as (ss & Hget & w' & m & Hcb); eauto.
  intros m m' w' Hcb.
  destruct (Hstores _ _ _ _ _ Hcb) as (a & ->); eauto.
Qed.

Lemma event_recorded (metadata : value) (className : jsstring)
    (info : ClassInfo) (w : effects) (n : jsstring) (entry : value) :
  collectClassInfo toUpperCase metadata className = (Normal info, w) ->
  member_of metadata "events" n entry ->
  exists ev w' m,
    jsmap_get (ci_events info) n = Some ev
    /\ event_callback toUpperCase n entry m = (Normal (jsmap_set m n ev), w').
Proof.
  intros H Hm; pose proof (member_of_truthy _ _ _ _ Hm) as Ht.
  destruct (collectClassInfo_Normal _ _ _ _ H Ht)
    as (w1 & w2 & w3 & w4 & w5 & _ & _ & _ & _ & H5).
  destruct Hm as (pre & post & Hentries & Hn & He).
  assert (Hexp : expandDefaultKey entry None = entry) by now destruct entry.
  assert (Hstores : forall k settings m m' w',
             event_callback toUpperCase k settings m = (Normal m', w') ->
             exists a, m' = jsmap_set m k a).
  { intros k settings m m' w' Hcb.
    destruct (event_callback_Normal _ _ _ _ _ Hcb) as (a & -> & _); eauto. }
  destruct (each_last None _ Hstores
              (fun ev => exists w' m,
                 event_callback toUpperCase n entry m
                 = (Normal (jsmap_set m n ev), w'))
              _ _ _ _ _ _ _ _ H5 Hentries Hn He)
    as (ev & Hget & w' & m & Hcb); eauto.
  rewrite Hexp; intros m m' w' Hcb.
  destruct (Hstores _ _ _ _ _ Hcb) as (a & ->); eauto.
Qed.

(** *** Runs that return *)

Lemma each_returns {A} (defaultKey : option jsstring)
    (callback : jsstring -> value -> jsmap A -> M (jsmap A)) (map : value) :
  hides_hasOwnProperty map = false ->
  (forall n entry m,
     In (n, entry) (own_entries map) ->
     exists m' w, callback n (expandDefaultKey entry defaultKey) m = (Normal m', w)) ->
  forall m, exists m' w, each defaultKey (on_settings callback) map m = (Normal m', w).
Proof.
  intros Hh Hcb m; unfold each; rewrite Hh.
  destruct (truthy map); [|now exists m, []].
  revert m; induction (own_entries map) as [|[n entry] entries IH]; intros m;
    cbn [each_entries on_settings]; [now exists m, []|].
  destruct (is_nullish (expandDefaultKey entry defaultKey)).
  - destruct (IH (fun n e m H => Hcb n e m (or_intror H)) m) as (m' & w & H).
    exists m', ([no_valid_metadata n entry] ++ w).
    now apply (bind_Normal _ _ tt).
  - destruct (Hcb n entry m (or_introl eq_refl)) as (m1 & w1 & H1).
    destruct (IH (fun n e m H => Hcb n e m (or_intror H)) m1) as (m' & w & H).
    exists m', (w1 ++ w); now apply (bind_Normal _ _ m1).
Qed.

Lemma upper_of_usable (n : jsstring) (settings : value) :
  singularName_usable settings ->
  exists N1,
    upper_of toUpperCase
      (if truthy (get_prop settings "singularName")
       then get_prop settings "singularName"
       else VStr (guessSingularName n)) = Normal N1.
Proof.
  intros Hs; destruct (truthy (get_prop settings "singularName")) eqn:Ht.
  - destruct (Hs Ht) as (s & ->); simpl; eauto.
  - simpl; eauto.
Qed.

Lemma aggregation_callback_returns (n : jsstring) (settings : value)
    (m : jsmap Aggregation) :
  singularName_usable settings ->
  exists m' w, aggregation_callback toUpperCase n settings m = (Normal m', w).
Proof.
  intros Hs; unfold aggregation_callback.
  destruct (jsstring_eqb _ cardinality_0_1); [eexists _, _; reflexivity|].
  destruct (upper_of_usable n settings Hs) as (N1 & ->).
  eexists _, _; reflexivity.
Qed.

Lemma association_callback_returns (n : jsstring) (settings : value)
    (m : jsmap Association) :
  singularName_usable settings ->
  exists m' w, association_callback toUpperCase n settings m = (Normal m', w).
Proof.
  intros Hs; unfold association_callback.
  destruct (jsstring_eqb _ cardinality_0_1); [eexists _, _; reflexivity|].
  destruct (upper_of_usable n settings Hs) as (N1 & ->).
  eexists _, _; reflexivity.
Qed.

Lemma event_callback_returns (n : jsstring) (settings : value)
    (m : jsmap UI5Event) :
  hides_hasOwnProperty (get_prop settings "parameters") = false ->
  exists m' w, event_callback toUpperCase n settings m = (Normal m', w).
Proof.
  intros Hh; unfold event_callback.
  destruct (each_returns type_key parameter_callback _ Hh
              (fun n e m _ => ex_intro _ _ (ex_intro _ _ eq_refl)) jsmap_empty)
    as (parameters & w & ->).
  eexists _, _; reflexivity.
Qed.

(** X1: on well-formed metadata (no member named hasOwnProperty, explicit
    singular names that are strings) the normaliser returns a class
    description: it does not throw. *)
Theorem collectClassInfo_returns :
  forall metadata className,
    well_formed_metadata metadata ->
    exists info w,
      collectClassInfo toUpperCase metadata className = (Normal info, w).
Proof.
  intros metadata className (Hh & Haggr & Hasso & Hev).
  unfold collectClassInfo; destruct (truthy metadata); [|eexists _, _; reflexivity].
  destruct (each_returns type_key specialSetting_callback
              (get_prop metadata "specialSettings"))
    with (m := @jsmap_empty SpecialSetting) as (m1 & w1 & ->);
    [apply Hh; simpl; tauto | intros; eexists _, _; reflexivity |].
  destruct (each_returns type_key (property_callback toUpperCase)
              (get_prop metadata "properties"))
    with (m := @jsmap_empty Property) as (m2 & w2 & ->);
    [apply Hh; simpl; tauto | intros; eexists _, _; reflexivity |].
  destruct (each_returns type_key (aggregation_callback toUpperCase)
              (get_prop metadata "aggregations"))
    with (m := @jsmap_empty Aggregation) as (m3 & w3 & ->);
    [apply Hh; simpl; tauto
    | intros; eapply aggregation_callback_returns, Haggr; eassumption |].
  destruct (each_returns type_key (association_callback toUpperCase)
              (get_prop metadata "associations"))
    with (m := @jsmap_empty Association) as (m4 & w4 & ->);
    [apply Hh; simpl; tauto
    | intros; eapply association_callback_returns, Hasso; eassumption |].
  destruct (each_returns None (event_callback toUpperCase)
              (get_prop metadata "events"))
    with (m := @jsmap_empty UI5Event) as (m5 & w5 & ->);
    [apply Hh; simpl; tauto | |].
  - intros n entry m Hin.
    replace (expandDefaultKey entry None) with entry by now destruct entry.
    eapply event_callback_returns, Hev; eassumption.
  - eexists _, _; reflexivity.
Qed.

(** C1: for every aggregation entry of the input of a run of the normaliser
    that returns: if "multiple" is unset or true, the recorded aggregation
    has cardinality "0..n", its singular name is the explicit one or the
    guessed one, and its method map is exactly get N, destroy N, insert S,
    add S, remove S, indexOf S, removeAll N, plus bind N and unbind N if
    and only if bindable is set (truthy); if "multiple" is false, the
    cardinality is "0..1" and the method map is exactly get N, destroy N,
    set N, plus bind N and unbind N if and only if bindable is set. N is
    the capitalised member name, S the capitalised singular name. *)
Theorem aggregation_cardinality_and_methods :
  forall metadata className info w n entry,
    collectClassInfo toUpperCase metadata className = (Normal info, w) ->
    member_of metadata "aggregations" n entry ->
    let settings := expandDefaultKey entry type_key in
    let multiple := get_prop settings "multiple" in
    let N := upper toUpperCase n in
    let bind_unbind := binding_methods N (truthy (get_prop settings "bindable")) in
    exists aggr,
      jsmap_get (ci_aggregations info) n = Some aggr
      /\ (multiple = VUndefined \/ multiple = VBool true ->
          aggr_cardinality aggr = js "0..n"
          /\ exists singular,
               aggr_singularName aggr = VStr singular
               /\ VStr singular
                  = (if truthy (get_prop settings "singularName")
                     then get_prop settings "singularName"
                     else VStr (guessSingularName n))
               /\ aggr_methods aggr
                  = aggregation_methods_0_n N (upper toUpperCase singular)
                    ++ bind_unbind)
      /\ (multiple = VBool false ->
          aggr_cardinality aggr = js "0..1"
          /\ aggr_methods aggr = aggregation_methods_0_1 N ++ bind_unbind).
Proof.
  intros metadata className info w n entry H Hm settings multiple N bind_unbind.
  destruct (aggregation_recorded _ _ _ _ _ _ H Hm)
    as (aggr & w' & m & Hget & Hcb).
  destruct (aggregation_callback_Normal _ _ _ _ _ Hcb)
    as (aggr' & Heq & Hcard & Hsing & _ & _ & H01 & H0n).
  apply jsmap_set_inj in Heq as <-.
  fold settings in Hcard, Hsing, H01, H0n; fold multiple in Hcard.
  fold N in H01, H0n; fold bind_unbind in H01, H0n.
  exists aggr; split; [exact Hget|]; split; intros Hmult.
  - assert (Hn : aggr_cardinality aggr = cardinality_0_n)
      by (rewrite Hcard; destruct Hmult as [-> | ->]; reflexivity).
    split; [exact Hn|].
    destruct (H0n Hn) as (singular & Hs & Hmeth).
    exists singular; repeat split; trivial.
    now rewrite <- Hs, Hsing.
  - assert (H1 : aggr_cardinality aggr = cardinality_0_1)
      by (rewrite Hcard, Hmult; reflexivity).
    split; [exact H1 | exact (H01 H1)].
Qed.

(** C2: for every association entry of the input of a run of the normaliser
    that returns: if "multiple" is unset or false, the recorded association
    has cardinality "0..1" and its method map is exactly get N, set N; if
    "multiple" is true, the cardinality is "0..n" and the method map is
    exactly get N, add S, remove S, removeAll N, with no insert, indexOf,
    destroy, bind or unbind entry. The default for an unset "multiple" is
    thus "0..1", the opposite of the default of an aggregation. *)
Theorem association_cardinality_and_methods :
  forall metadata className info w n entry,
    collectClassInfo toUpperCase metadata className = (Normal info, w) ->
    member_of metadata "associations" n entry ->
    let settings := expandDefaultKey entry type_key in
    let multiple := get_prop settings "multiple" in
    let N := upper toUpperCase n in
    exists asso,
      jsmap_get (ci_associations info) n = Some asso
      /\ (multiple = VUndefined \/ multiple = VBool false ->
          asso_cardinality asso = js "0..1"
          /\ asso_methods asso = association_methods_0_1 N)
      /\ (multiple = VBool true ->
          asso_cardinality asso = js "0..n"
          /\ exists singular,
               asso_singularName asso = VStr singular
               /\ VStr singular
                  = (if truthy (get_prop settings "singularName")
                     then get_prop settings "singularName"
                     else VStr (guessSingularName n))
               /\ asso_methods asso
                  = association_methods_0_n N (upper toUpperCase singular)
               /\ forall verb,
                    In verb ["insert"; "indexOf"; "destroy"; "bind"; "unbind"]%string ->
                    assoc (asso_methods asso) (js verb) = None)
      /\ (multiple = VUndefined ->
          asso_cardinality asso = js "0..1"
          /\ aggregation_cardinality multiple = js "0..n").
Proof.
  intros metadata className info w n entry H Hm settings multiple N.
  destruct (association_recorded _ _ _ _ _ _ H Hm)
    as (asso & w' & m & Hget & Hcb).
  destruct (association_callback_Normal _ _ _ _ _ Hcb)
    as (asso' & Heq & Hcard & Hsing & _ & _ & H01 & H0n).
  apply jsmap_set_inj in Heq as <-.
  fold settings in Hcard, Hsing, H01, H0n; fold multiple in Hcard.
  fold N in H01, H0n.
  exists asso; split; [exact Hget|]; split; [|split]; intros Hmult.
  - assert (H1 : asso_cardinality asso = cardinality_0_1)
      by (rewrite Hcard; destruct Hmult as [-> | ->]; reflexivity).
    split; [exact H1 | exact (H01 H1)].
  - assert (Hn : asso_cardinality asso = cardinality_0_n)
      by (rewrite Hcard, Hmult; reflexivity).
    split; [exact Hn|].
    destruct (H0n Hn) as (singular & Hs & Hmeth).
    exists singular; split; [exact Hs|]; split; [now rewrite <- Hs, Hsing|].
    split; [exact Hmeth|].
    intros verb Hverb; rewrite Hmeth; simpl in Hverb.
    repeat (destruct Hverb as [<- | Hverb]; [reflexivity|]).
    destruct Hverb.
  - split; [rewrite Hcard|]; rewrite Hmult; reflexivity.
Qed.

(** C7, amended: in a run of the normaliser that returns, an aggregation or
    association entry whose record has no "type" gets the type
    "sap.ui.core.Control", a constant of the normaliser (nothing a caller
    supplies enters it); a property entry without "type" gets "string";
    and an entry without "visibility" gets "public", for special settings,
    properties, aggregations and associations alike, as every event does. *)
Theorem default_type_and_visibility :
  forall metadata className info w,
    collectClassInfo toUpperCase metadata className = (Normal info, w) ->
    (forall n entry,
       member_of metadata "aggregations" n entry ->
       let settings := expandDefaultKey entry type_key in
       exists aggr,
         jsmap_get (ci_aggregations info) n = Some aggr
         /\ (get_prop settings "type" = VUndefined ->
             aggr_type aggr = VStr (js "sap.ui.core.Control"))
         /\ (get_prop settings "visibility" = VUndefined ->
             aggr_visibility aggr = VStr (js "public")))
    /\ (forall n entry,
          member_of metadata "associations" n entry ->
          let settings := expandDefaultKey entry type_key in
          exists asso,
            jsmap_get (ci_associations info) n = Some asso
            /\ (get_prop settings "type" = VUndefined ->
                asso_type asso = VStr (js "sap.ui.core.Control"))
            /\ (get_prop settings "visibility" = VUndefined ->
                asso_visibility asso = VStr (js "public")))
    /\ (forall n entry,
          member_of metadata "properties" n entry ->
          let settings := expandDefaultKey entry type_key in
          exists prop,
            jsmap_get (ci_properties info) n = Some prop
            /\ (get_prop settings "type" = VUndefined ->
                prop_type prop = VStr (js "string"))
            /\ (get_prop settings "visibility" = VUndefined ->
                prop_visibility prop = VStr (js "public")))
    /\ (forall n entry,
          member_of metadata "specialSettings" n entry ->
          let settings := expandDefaultKey entry type_key in
          exists ss,
            jsmap_get (ci_specialSettings info) n = Some ss
            /\ (get_prop settings "visibility" = VUndefined ->
                ss_visibility ss = VStr (js "public")))
    /\ (forall n entry,
          member_of metadata "events" n entry ->
          exists ev,
            jsmap_get (ci_events info) n = Some ev
            /\ ev_visibility ev = VStr (js "public")).
Proof.
  intros metadata className info w H; repeat split; intros n entry Hm; cbv zeta.
  - destruct (aggregation_recorded _ _ _ _ _ _ H Hm) as (a & w' & m & Hget & Hcb).
    destruct (aggregation_callback_Normal _ _ _ _ _ Hcb)
      as (a' & Heq & _ & _ & Htype & Hvis & _).
    apply jsmap_set_inj in Heq as <-.
    exists a; repeat split; trivial; intros E;
      [rewrite Htype | rewrite Hvis]; now rewrite E.
  - destruct (association_recorded _ _ _ _ _ _ H Hm) as (a & w' & m & Hget & Hcb).
    destruct (association_callback_Normal _ _ _ _ _ Hcb)
      as (a' & Heq & _ & _ & Htype & Hvis & _).
    apply jsmap_set_inj in Heq as <-.
    exists a; repeat split; trivial; intros E;
      [rewrite Htype | rewrite Hvis]; now rewrite E.
  - destruct (property_recorded _ _ _ _ _ _ H Hm) as (a & w' & m & Hget & Hcb).
    destruct (property_callback_Normal _ _ _ _ _ Hcb)
      as (a' & Heq & Htype & Hvis & _).
    apply jsmap_set_inj in Heq as <-.
    exists a; repeat split; trivial; intros E;
      [rewrite Htype | rewrite Hvis]; now rewrite E.
  - destruct (specialSetting_recorded _ _ _ _ _ _ H Hm) as (a & w' & m & Hget & Hcb).
    destruct (specialSetting_callback_Normal _ _ _ _ _ Hcb)
      as (a' & Heq & _ & Hvis).
    apply jsmap_set_inj in Heq as <-.
    exists a; repeat split; trivial; intros E; rewrite Hvis; now rewrite E.
  - destruct (event_recorded _ _ _ _ _ _ H Hm) as (a & w' & m & Hget & Hcb).
    destruct (event_callback_Normal _ _ _ _ _ Hcb) as (a' & Heq & Hvis & _).
    apply jsmap_set_inj in Heq as <-.
    now exists a.
Qed.

(** C10: in a run of the normaliser that returns, the record of every event
    entry has the visibility "public", whatever "visibility" the entry
    holds; for a property, an aggregation or an association, a declared
    (non-empty) visibility is copied into the record. *)
Theorem event_visibility_is_constant :
  forall metadata className info w,
    collectClassInfo toUpperCase metadata className = (Normal info, w) ->
    (forall n entry,
       member_of metadata "events" n entry ->
       exists ev,
         jsmap_get (ci_events info) n = Some ev
         /\ ev_visibility ev = VStr (js "public"))
    /\ (forall n entry,
          member_of metadata "properties" n entry ->
          let declared := get_prop (expandDefaultKey entry type_key) "visibility" in
          truthy declared = true ->
          exists prop,
            jsmap_get (ci_properties info) n = Some prop
            /\ prop_visibility prop = declared)
    /\ (forall n entry,
          member_of metadata "aggregations" n entry ->
          let declared := get_prop (expandDefaultKey entry type_key) "visibility" in
          truthy declared = true ->
          exists aggr,
            jsmap_get (ci_aggregations info) n = Some aggr
            /\ aggr_visibility aggr = declared)
    /\ (forall n entry,
          member_of metadata "associations" n entry ->
          let declared := get_prop (expandDefaultKey entry type_key) "visibility" in
          truthy declared = true ->
          exists asso,
            jsmap_get (ci_associations info) n = Some asso
            /\ asso_visibility asso = declared).
Proof.
  intros metadata className info w H; repeat split; intros n entry Hm; cbv zeta.
  - destruct (event_recorded _ _ _ _ _ _ H Hm) as (a & w' & m & Hget & Hcb).
    destruct (event_callback_Normal _ _ _ _ _ Hcb) as (a' & Heq & Hvis & _).
    apply jsmap_set_inj in Heq as <-.
    now exists a.
  - intros Hd.
    destruct (property_recorded _ _ _ _ _ _ H Hm) as (a & w' & m & Hget & Hcb).
    destruct (property_callback_Normal _ _ _ _ _ Hcb)
      as (a' & Heq & _ & Hvis & _).
    apply jsmap_set_inj in Heq as <-.
    exists a; split; trivial; rewrite Hvis; unfold or_else; now rewrite Hd.
  - intros Hd.
    destruct (aggregation_recorded _ _ _ _ _ _ H Hm) as (a & w' & m & Hget & Hcb).
    destruct (aggregation_callback_Normal _ _ _ _ _ Hcb)
      as (a' & Heq & _ & _ & _ & Hvis & _).
    apply jsmap_set_inj in Heq as <-.
    exists a; split; trivial; rewrite Hvis; unfold or_else; now rewrite Hd.
  - intros Hd.
    destruct (association_recorded _ _ _ _ _ _ H Hm) as (a & w' & m & Hget & Hcb).
    destruct (association_callback_Normal _ _ _ _ _ Hcb)
      as (a' & Heq & _ & _ & _ & Hvis & _).
    apply jsmap_set_inj in Heq as <-.
    exists a; split; trivial; rewrite Hvis; unfold or_else; now rewrite Hd.
Qed.

(** C8, amended: only an absent entry ([null] or [undefined]) is skipped.
    Let the members of one kind hold such an entry under a name other than
    hasOwnProperty. If the normaliser returns a class description for the
    metadata without that entry, it returns the same description for the
    metadata with it, and writes the same lines and one warning more, the
    one for this entry: the entry is skipped, the diagnostic is written,
    every other member is recorded as before. *)
Theorem absent_entry_is_skipped :
  forall kind metadata metadata' pre n entry post className info w',
    In kind member_kinds ->
    is_nullish entry = true ->
    n <> js "hasOwnProperty" ->
    get_prop metadata kind = VObj (pre ++ (n, entry) :: post) ->
    get_prop metadata' kind = VObj (pre ++ post) ->
    (forall k, k <> kind -> get_prop metadata' k = get_prop metadata k) ->
    collectClassInfo toUpperCase metadata' className = (Normal info, w') ->
    exists before after,
      w' = before ++ after
      /\ collectClassInfo toUpperCase metadata className
         = (Normal info, before ++ no_valid_metadata n entry :: after).
Proof.
  intros kind metadata metadata' pre n entry post className info w'
    Hkind Hentry Hn Hmd Hmd' Hother H.
  assert (Ht : truthy metadata = true)
    by (destruct metadata; now try discriminate Hmd).
  assert (Ht' : truthy metadata' = true)
    by (destruct metadata'; now try discriminate Hmd').
  unfold collectClassInfo in *; rewrite Ht; rewrite Ht' in H.
  unfold member_kinds in Hkind; simpl in Hkind.
  repeat (destruct Hkind as [<- | Hkind];
    [ rewrite ?(Hother "specialSettings"%string), ?(Hother "properties"%string),
        ?(Hother "aggregations"%string), ?(Hother "associations"%string),
        ?(Hother "events"%string), ?(Hother "designtime"%string),
        ?(Hother "designTime"%string), ?(Hother "interfaces"%string),
        ?(Hother "stereotype"%string), ?(Hother "defaultProperty"%string),
        ?(Hother "defaultAggregation"%string), ?(Hother "abstract"%string),
        ?(Hother "final"%string), ?(Hother "library"%string) in H by discriminate;
      rewrite Hmd' in H; rewrite Hmd;
      repeat first
        [ eapply bind_writes_left;
          [ exact H | intros ? ? Hskip; eapply each_skip; eassumption ]
        | eapply bind_writes_right; [ exact H | clear H; intros ? ? ? H ] ] |]).
  destruct Hkind.
Qed.

End NormalizerFacts.

(** ** The normaliser on concrete metadata *)

Lemma js_inj (a b : string) : js a = js b -> a = b.
Proof.
  unfold js; intros H.
  rewrite <- (string_of_list_ascii_of_string a), <- (string_of_list_ascii_of_string b).
  f_equal; revert H; generalize (list_ascii_of_string a) (list_ascii_of_string b).
  intros la; induction la as [|x la IH]; intros [|y lb]; simpl; intros H;
    try discriminate H; [reflexivity|].
  inversion H as [[Hx Hl]]; f_equal; [|now apply IH].
  rewrite <- (ascii_N_embedding x), <- (ascii_N_embedding y); now rewrite Hx.
Qed.

(** A member of sample_metadata, by its position among the members of its
    kind. *)
Ltac sample_member pre post :=
  exists pre, post; split; [reflexivity|];
  split; [simpl; intuition discriminate | reflexivity].

(** C1 at the aggregations items (multiple unset, bindable) and header
    (multiple false) of sample_metadata. *)
Lemma aggregation_cardinality_and_methods_witness :
  exists info w items header,
    collectClassInfo toUpperCase_ascii sample_metadata (js "Widget") = (Normal info, w)
    /\ jsmap_get (ci_aggregations info) (js "items") = Some items
    /\ aggr_cardinality items = js "0..n"
    /\ assoc (aggr_methods items) (js "insert") = Some (js "insertItem")
    /\ assoc (aggr_methods items) (js "bind") = Some (js "bindItems")
    /\ jsmap_get (ci_aggregations info) (js "header") = Some header
    /\ aggr_cardinality header = js "0..1"
    /\ aggr_methods header
       = [named "get" (js "Header"); named "destroy" (js "Header");
          named "set" (js "Header")].
Proof.
  destruct (collectClassInfo toUpperCase_ascii sample_metadata (js "Widget"))
    as [[info|e] w] eqn:E; [|vm_compute in E; discriminate E].
  destruct (aggregation_cardinality_and_methods toUpperCase_ascii
              sample_metadata (js "Widget") info w (js "items")
              (VObj [(js "bindable", VBool true)]) E)
    as (items & Hitems & Hmany & _).
  { sample_member (@nil (jsstring * value))
      [(js "header", VObj [(js "multiple", VBool false);
                           (js "visibility", VStr (js "hidden"))])]. }
  destruct (aggregation_cardinality_and_methods toUpperCase_ascii
              sample_metadata (js "Widget") info w (js "header")
              (VObj [(js "multiple", VBool false);
                     (js "visibility", VStr (js "hidden"))]) E)
    as (header & Hheader & _ & Hone).
  { sample_member [(js "items", VObj [(js "bindable", VBool true)])]
                  (@nil (jsstring * value)). }
  destruct Hmany as (Hcard & singular & _ & Hsingular & Hmethods);
    [left; reflexivity|].
  destruct Hone as (Hcard1 & Hmethods1); [reflexivity|].
  vm_compute in Hsingular; inversion Hsingular; subst singular.
  exists info, w, items, header; rewrite Hmethods, Hmethods1.
  repeat split; assumption || reflexivity.
Defined.

(** C2 at the associations owner (multiple unset) and labels (multiple
    true) of sample_metadata. *)
Lemma association_cardinality_and_methods_witness :
  exists info w owner labels,
    collectClassInfo toUpperCase_ascii sample_metadata (js "Widget") = (Normal info, w)
    /\ jsmap_get (ci_associations info) (js "owner") = Some owner
    /\ asso_cardinality owner = js "0..1"
    /\ asso_methods owner = [named "get" (js "Owner"); named "set" (js "Owner")]
    /\ jsmap_get (ci_associations info) (js "labels") = Some labels
    /\ asso_cardinality labels = js "0..n"
    /\ asso_methods labels
       = [named "get" (js "Labels"); named "add" (js "Label");
          named "remove" (js "Label"); named "removeAll" (js "Labels")].
Proof.
  destruct (collectClassInfo toUpperCase_ascii sample_metadata (js "Widget"))
    as [[info|e] w] eqn:E; [|vm_compute in E; discriminate E].
  destruct (association_cardinality_and_methods toUpperCase_ascii
              sample_metadata (js "Widget") info w (js "owner") (VObj []) E)
    as (owner & Howner & Hone & _).
  { sample_member (@nil (jsstring * value))
      [(js "labels", VObj [(js "multiple", VBool true);
                           (js "visibility", VStr (js "hidden"))])]. }
  destruct (association_cardinality_and_methods toUpperCase_ascii
              sample_metadata (js "Widget") info w (js "labels")
              (VObj [(js "multiple", VBool true);
                     (js "visibility", VStr (js "hidden"))]) E)
    as (labels & Hlabels & _ & Hmany & _).
  { sample_member [(js "owner", VObj [])] (@nil (jsstring * value)). }
  destruct Hone as (Hcard1 & Hmethods1); [left; reflexivity|].
  destruct Hmany as (Hcard & singular & _ & Hsingular & Hmethods & _);
    [reflexivity|].
  vm_compute in Hsingular; inversion Hsingular; subst singular.
  exists info, w, owner, labels; rewrite Hmethods, Hmethods1.
  repeat split; assumption || reflexivity.
Defined.

(** C7, as stated, fails: the aggregation items and the association owner
    of sample_metadata have no "type", the caller passes the metadata and
    a class name only, and under either class name the recorded type is the
    constant "sap.ui.core.Control" of the normaliser. *)
Lemma default_type_is_a_constant :
  exists info info' items owner items' owner',
    collectClassInfo toUpperCase_ascii sample_metadata (js "Widget")
    = (Normal info, [])
    /\ collectClassInfo toUpperCase_ascii sample_metadata (js "Gadget")
       = (Normal info', [])
    /\ jsmap_get (ci_aggregations info) (js "items") = Some items
    /\ jsmap_get (ci_associations info) (js "owner") = Some owner
    /\ jsmap_get (ci_aggregations info') (js "items") = Some items'
    /\ jsmap_get (ci_associations info') (js "owner") = Some owner'
    /\ aggr_type items = VStr (js "sap.ui.core.Control")
    /\ asso_type owner = VStr (js "sap.ui.core.Control")
    /\ aggr_type items' = VStr (js "sap.ui.core.Control")
    /\ asso_type owner' = VStr (js "sap.ui.core.Control").
Proof.
  do 6 eexists; repeat split; vm_compute; reflexivity.
Qed.

(** The amended C7 at the property enabled and the association owner of
    sample_metadata, which have neither "type" nor "visibility". *)
Lemma default_type_and_visibility_witness :
  exists info w enabled owner,
    collectClassInfo toUpperCase_ascii sample_metadata (js "Widget") = (Normal info, w)
    /\ jsmap_get (ci_properties info) (js "enabled") = Some enabled
    /\ prop_type enabled = VStr (js "string")
    /\ prop_visibility enabled = VStr (js "public")
    /\ jsmap_get (ci_associations info) (js "owner") = Some owner
    /\ asso_type owner = VStr (js "sap.ui.core.Control")
    /\ asso_visibility owner = VStr (js "public").
Proof.
  destruct (collectClassInfo toUpperCase_ascii sample_metadata (js "Widget"))
    as [[info|e] w] eqn:E; [|vm_compute in E; discriminate E].
  destruct (default_type_and_visibility toUpperCase_ascii
              sample_metadata (js "Widget") info w E)
    as (_ & Hasso & Hprop & _).
  destruct (Hprop (js "enabled") (VObj [])) as (enabled & Henabled & Htype & Hvis).
  { sample_member [(js "text", VStr (js "string"))]
      [(js "busy", VObj [ (js "type", VStr (js "boolean"));
                          (js "visibility", VStr (js "hidden"));
                          (js "bindable", VBool true) ])]. }
  destruct (Hasso (js "owner") (VObj [])) as (owner & Howner & Htype' & Hvis').
  { sample_member (@nil (jsstring * value))
      [(js "labels", VObj [(js "multiple", VBool true);
                           (js "visibility", VStr (js "hidden"))])]. }
  exists info, w, enabled, owner; repeat split; auto.
Defined.

(** C10 at the event press and the aggregation header of sample_metadata,
    both declared with the visibility "hidden". *)
Lemma event_visibility_is_constant_witness :
  exists info w press header,
    collectClassInfo toUpperCase_ascii sample_metadata (js "Widget") = (Normal info, w)
    /\ jsmap_get (ci_events info) (js "press") = Some press
    /\ ev_visibility press = VStr (js "public")
    /\ jsmap_get (ci_aggregations info) (js "header") = Some header
    /\ aggr_visibility header = VStr (js "hidden").
Proof.
  destruct (collectClassInfo toUpperCase_ascii sample_metadata (js "Widget"))
    as [[info|e] w] eqn:E; [|vm_compute in E; discriminate E].
  destruct (event_visibility_is_constant toUpperCase_ascii
              sample_metadata (js "Widget") info w E)
    as (Hev & _ & Haggr & _).
  destruct (Hev (js "press") (VObj [(js "visibility", VStr (js "hidden"))]))
    as (press & Hpress & Hvis).
  { sample_member (@nil (jsstring * value)) (@nil (jsstring * value)). }
  destruct (Haggr (js "header")
              (VObj [(js "multiple", VBool false);
                     (js "visibility", VStr (js "hidden"))]))
    as (header & Hheader & Hvis').
  { sample_member [(js "items", VObj [(js "bindable", VBool true)])]
                  (@nil (jsstring * value)). }
  { reflexivity. }
  exists info, w, press, header; repeat split; auto.
Defined.

(** C8, as stated, fails: an array among the properties and a string among
    the events are neither a scalar with a default key nor a record, yet
    the normaliser records a member for each and writes no diagnostic. *)
Lemma odd_entries_are_not_skipped :
  exists info size press,
    collectClassInfo toUpperCase_ascii odd_metadata (js "Widget") = (Normal info, [])
    /\ jsmap_get (ci_properties info) (js "size") = Some size
    /\ prop_type size = VStr (js "string")
    /\ jsmap_get (ci_events info) (js "press") = Some press
    /\ ev_methods press
       = [named "attach" (js "Press"); named "detach" (js "Press");
          named "fire" (js "Press")].
Proof.
  do 3 eexists; repeat split; vm_compute; reflexivity.
Qed.

(** The amended C8 at metadata_with_null: the entry broken is skipped with
    its warning, text and busy are recorded as without it. *)
Lemma absent_entry_is_skipped_witness :
  exists info before after,
    collectClassInfo toUpperCase_ascii metadata_without_null (js "Widget")
    = (Normal info, before ++ after)
    /\ collectClassInfo toUpperCase_ascii metadata_with_null (js "Widget")
       = (Normal info, before ++ no_valid_metadata (js "broken") VNull :: after).
Proof.
  destruct (collectClassInfo toUpperCase_ascii metadata_without_null (js "Widget"))
    as [[info|e] w] eqn:E; [|vm_compute in E; discriminate E].
  destruct (absent_entry_is_skipped toUpperCase_ascii "properties"
              metadata_with_null metadata_without_null
              [(js "text", VStr (js "string"))] (js "broken") VNull
              [(js "busy", VObj [])] (js "Widget") info w)
    as (before & after & -> & Hrun); trivial.
  - simpl; tauto.
  - discriminate.
  - intros k Hk.
    unfold get_prop, metadata_with_null, metadata_without_null; cbn [assoc].
    rewrite (jsstring_eqb_neq (js "properties") (js k)); [reflexivity|].
    intros Heq; apply js_inj in Heq; congruence.
  - now exists info, before, after.
Defined.

(** X1 at sample_metadata. *)
Lemma collectClassInfo_returns_witness :
  exists info w,
    collectClassInfo toUpperCase_ascii sample_metadata (js "Widget")
    = (Normal info, w).
Proof.
  apply (collectClassInfo_returns toUpperCase_ascii sample_metadata (js "Widget")).
  repeat split.
  - intros kind Hkind; unfold member_kinds in Hkind; simpl in Hkind.
    repeat (destruct Hkind as [<- | Hkind]; [reflexivity|]).
    destruct Hkind.
  - intros n entry Hin Ht; simpl in Hin.
    repeat (destruct Hin as [Hin | Hin];
            [inversion Hin; subst n entry; discriminate Ht|]).
    destruct Hin.
  - intros n entry Hin Ht; simpl in Hin.
    repeat (destruct Hin as [Hin | Hin];
            [inversion Hin; subst n entry; discriminate Ht|]).
    destruct Hin.
  - intros n entry Hin; simpl in Hin.
    repeat (destruct Hin as [Hin | Hin];
            [inversion Hin; subst n entry; reflexivity|]).
    destruct Hin.
Defined.

(** The example of the specification. Normalising the Widget metadata
    gives the property text the methods getText and setText, and the event
    press the methods attachPress, detachPress and firePress, for every
    [toUpperCase] that maps t to T and p to P. *)
Theorem widget_methods :
  forall toUpperCase : jsstring -> jsstring,
    toUpperCase (js "t") = js "T" ->
    toUpperCase (js "p") = js "P" ->
    exists info text press,
      collectClassInfo toUpperCase widget_metadata (js "Widget") = (Normal info, [])
      /\ jsmap_get (ci_properties info) (js "text") = Some text
      /\ prop_methods text = [named "get" (js "Text"); named "set" (js "Text")]
      /\ jsmap_get (ci_events info) (js "press") = Some press
      /\ ev_methods press
         = [named "attach" (js "Press"); named "detach" (js "Press");
            named "fire" (js "Press")].
Proof.
  intros toUpperCase Ht Hp; vm_compute in Ht, Hp.
  do 3 eexists; repeat split; vm_compute; rewrite ?Ht, ?Hp; reflexivity.
Qed.

Lemma widget_methods_witness :
  exists info text,
    collectClassInfo toUpperCase_ascii widget_metadata (js "Widget") = (Normal info, [])
    /\ jsmap_get (ci_properties info) (js "text") = Some text
    /\ assoc (prop_methods text) (js "get") = Some (js "getText").
Proof.
  destruct (widget_methods toUpperCase_ascii eq_refl eq_refl)
    as (info & text & press & Hrun & Htext & Hmethods & _).
  exists info, text; rewrite Hmethods; repeat split; assumption.
Defined.

(** ** The walk over the base types *)

Section DiscoveryFacts.
Variable type : Type.
Variable symbol : Type.
Variable getSymbol : type -> option symbol.
Variable getFullyQualifiedName : symbol -> jsstring.
Variable isClassOrInterface : type -> bool.
Variable getBaseTypes : type -> list type.








End DiscoveryFacts.



(** ** Interface generation *)

Section GeneratorFacts.
Variable toUpperCase : jsstring -> jsstring.
Variable Hjson_parse : jsstring -> value + jsstring.
Variable Globals : Type.
Variable AST : Type.
Variable moduleName_of : jsstring -> jsstring.
Variable buildAST :
  ClassInfo -> jsstring -> bool -> jsstring -> jsstring -> Globals -> option AST.
Variable astToString : AST -> jsstring.

Lemma generateInterfaces_cons (mo : ManagedObjectInfo)
    (rest : list ManagedObjectInfo) (g : Globals) :
  generateInterfaces toUpperCase Hjson_parse Globals AST moduleName_of buildAST
    astToString (mo :: rest) g
  = bind (generateInterface toUpperCase Hjson_parse Globals AST moduleName_of
            buildAST astToString mo g)
      (fun interfaceText =>
         bind (match interfaceText with
               | Some (c :: text) =>
                   perform (ResultProcessor (fileName mo) (className mo) (c :: text))
               | _ => ret tt
               end)
           (fun _ => generateInterfaces toUpperCase Hjson_parse Globals AST
                       moduleName_of buildAST astToString rest g)).
Proof. reflexivity. Qed.

(** The error a class raises when the parser rejects its metadata. *)
Lemma generateInterface_parse_failure (mo : ManagedObjectInfo) (g : Globals)
    (member : ClassElement) (text message : jsstring) :
  filter_static_metadata (members mo) = Normal [member] ->
  initializer_of member = Some text ->
  Hjson_parse text = inr message ->
  generateInterface toUpperCase Hjson_parse Globals AST moduleName_of buildAST
    astToString mo g
  = (Throw (Error (parse_error_message (className mo) (fileName mo) message)), []).
Proof.
  intros Hf Hi Hp; unfold generateInterface.
  rewrite Hf; unfold lift, bind; now rewrite Hi, Hp.
Qed.

(** C5, amended: when the parser rejects the metadata block of a class, the
    run over the module ends with an error that names the class and the
    source file. The classes listed before it have been processed, and
    their results handed to the result processor, exactly as in a run over
    them alone; the class itself and every class listed after it produce
    nothing. *)
Theorem parse_failure_ends_the_module :
  forall pre mo post g member text message w,
    filter_static_metadata (members mo) = Normal [member] ->
    initializer_of member = Some text ->
    Hjson_parse text = inr message ->
    generateInterfaces toUpperCase Hjson_parse Globals AST moduleName_of
      buildAST astToString pre g = (Normal tt, w) ->
    generateInterfaces toUpperCase Hjson_parse Globals AST moduleName_of
      buildAST astToString (pre ++ mo :: post) g
    = (Throw (Error (parse_error_message (className mo) (fileName mo) message)), w).
Proof.
  intros pre mo post g member text message w Hf Hi Hp.
  revert w; induction pre as [|x pre IH]; intros w H.
  - inversion H; subst w; simpl app; rewrite generateInterfaces_cons.
    now rewrite (generateInterface_parse_failure _ _ _ _ _ Hf Hi Hp).
  - simpl app; rewrite generateInterfaces_cons in *.
    bind_inv_as H interfaceText Hx; bind_inv_as H u Hemit; subst.
    eapply bind_Normal; [exact Hx|].
    eapply bind_Normal; [exact Hemit|].
    now apply IH.
Qed.

(** C9 at class_with_plain_metadata, which has no static metadata member:
    whatever the collaborators, [generateInterface] throws a TypeError
    (from [member.modifiers.some]) instead of returning nothing. *)
Theorem generateInterface_throws_on_plain_metadata :
  forall g,
    generateInterface toUpperCase Hjson_parse Globals AST moduleName_of buildAST
      astToString class_with_plain_metadata g
    = (Throw TypeError, []).
Proof. reflexivity. Qed.

(** X4: for a class each of whose members named metadata has a modifier
    list (so that the filter returns), no static metadata member, or more
    than one, means that nothing is generated, and nothing is thrown or
    written. *)
Theorem generateInterface_nothing_to_do (mo : ManagedObjectInfo) (g : Globals)
    (metadata : list ClassElement) :
  filter_static_metadata (members mo) = Normal metadata ->
  length metadata <> 1%nat ->
  generateInterface toUpperCase Hjson_parse Globals AST moduleName_of buildAST
    astToString mo g
  = (Normal None, []).
Proof.
  intros Hf Hlen; unfold generateInterface; rewrite Hf.
  now destruct metadata as [|m [|m' rest]].
Qed.

(** And so does its second part for a parsed block other than [null]: with
    none of properties, aggregations, associations and events, nothing is
    generated, silently. *)
Lemma generateInterface_without_members (mo : ManagedObjectInfo) (g : Globals)
    (member : ClassElement) (text : jsstring) (metadataObject : value) :
  filter_static_metadata (members mo) = Normal [member] ->
  initializer_of member = Some text ->
  Hjson_parse text = inl metadataObject ->
  is_nullish metadataObject = false ->
  truthy (get_prop metadataObject "properties") = false ->
  truthy (get_prop metadataObject "aggregations") = false ->
  truthy (get_prop metadataObject "associations") = false ->
  truthy (get_prop metadataObject "events") = false ->
  generateInterface toUpperCase Hjson_parse Globals AST moduleName_of buildAST
    astToString mo g
  = (Normal None, []).
Proof.
  intros Hf Hi Hp Hn H1 H2 H3 H4; unfold generateInterface.
  rewrite Hf; unfold lift, bind; now rewrite Hi, Hp, Hn, H1, H2, H3, H4.
Qed.
End GeneratorFacts.

(** C5, as stated, fails: in the module Widgets.ts the class Broken, whose
    metadata the parser rejects, comes before the class Widget. Alone,
    Widget hands its interface to the result processor; after Broken, the
    run ends with the error of Broken and Widget produces nothing. *)
Lemma parse_failure_silences_later_siblings :
  generateInterfaces toUpperCase_ascii sample_parse unit jsstring (fun f => f)
    sample_buildAST (fun ast => ast)
    [class_with_metadata (js "Widget") (js "{ }")] tt
  = (Normal tt,
     [ConsoleLog (contains_metadata_message (js "Widget") (js "src/Widgets.ts") Control);
      ResultProcessor (js "src/Widgets.ts") (js "Widget") (js "interface Widget")])
  /\ generateInterfaces toUpperCase_ascii sample_parse unit jsstring (fun f => f)
       sample_buildAST (fun ast => ast)
       [class_with_metadata (js "Broken") rejected_text;
        class_with_metadata (js "Widget") (js "{ }")] tt
     = (Throw (Error (parse_error_message (js "Broken") (js "src/Widgets.ts")
                        rejected_message)), []).
Proof. split; vm_compute; reflexivity. Qed.

(** The amended C5 on Widgets.ts with the classes Widget, Broken, Gadget:
    the run ends with the error of Broken, after the output of Widget and
    without any of Gadget. *)
Lemma parse_failure_ends_the_module_witness :
  generateInterfaces toUpperCase_ascii sample_parse unit jsstring (fun f => f)
    sample_buildAST (fun ast => ast)
    [class_with_metadata (js "Widget") (js "{ }");
     class_with_metadata (js "Broken") rejected_text;
     class_with_metadata (js "Gadget") (js "{ }")] tt
  = (Throw (Error (parse_error_message (js "Broken") (js "src/Widgets.ts")
                     rejected_message)),
     [ConsoleLog (contains_metadata_message (js "Widget") (js "src/Widgets.ts") Control);
      ResultProcessor (js "src/Widgets.ts") (js "Widget") (js "interface Widget")]).
Proof.
  apply (parse_failure_ends_the_module toUpperCase_ascii sample_parse unit
           jsstring (fun f => f) sample_buildAST (fun ast => ast)
           [class_with_metadata (js "Widget") (js "{ }")]
           (class_with_metadata (js "Broken") rejected_text)
           [class_with_metadata (js "Gadget") (js "{ }")] tt
           (PropertyDeclaration (Identifier (js "metadata"))
              (Some [StaticKeyword]) (Some rejected_text))
           rejected_text
           rejected_message).
  - reflexivity.
  - reflexivity.
  - reflexivity.
  - vm_compute; reflexivity.
Defined.

(** X4 at a class with two static metadata members. *)
Lemma generateInterface_nothing_to_do_witness :
  generateInterface toUpperCase_ascii sample_parse unit jsstring (fun f => f)
    sample_buildAST (fun ast => ast) class_with_two_metadata tt
  = (Normal None, []).
Proof.
  apply (generateInterface_nothing_to_do toUpperCase_ascii sample_parse unit
           jsstring (fun f => f) sample_buildAST (fun ast => ast)
           class_with_two_metadata tt (members class_with_two_metadata)).
  - reflexivity.
  - discriminate.
Defined.

(** * Further facts *)

(** ** What the loop records *)

Lemma jsmap_get_empty {A} (k : jsstring) : jsmap_get (@jsmap_empty A) k = None.
Proof.
  unfold jsmap_get, jsmap_empty; simpl; now destruct (jsstring_eqb k proto_key).
Qed.

Lemma jsmap_get_set_inv {A} (m : jsmap A) (n k : jsstring) (a b : A) :
  jsmap_get (jsmap_set m n a) k = Some b ->
  (k = n /\ b = a) \/ (k <> n /\ jsmap_get m k = Some b).
Proof.
  intros H; destruct (jsstring_eqb n k) eqn:E.
  - apply jsstring_eqb_spec in E; subst k.
    rewrite jsmap_get_set_same in H; inversion H; auto.
  - assert (Hn : n <> k) by (intros ->; now rewrite jsstring_eqb_refl in E).
    rewrite jsmap_get_set_other in H by exact Hn; auto.
Qed.

Lemma own_entries_falsy (map : value) : truthy map = false -> own_entries map = [].
Proof. destruct map as [| |b|x|[|c s]|l|o]; simpl; congruence. Qed.

Section LoopFacts.
Context {A : Type}.
Variable defaultKey : option jsstring.
Variable callback : jsstring -> value -> jsmap A -> M (jsmap A).

Lemma each_as_entries (map : value) (m m' : jsmap A) (w : effects) :
  each defaultKey (on_settings callback) map m = (Normal m', w) ->
  each_entries defaultKey (on_settings callback) (own_entries map) m = (Normal m', w).
Proof.
  unfold each; destruct (truthy map) eqn:Ht.
  - now destruct (hides_hasOwnProperty map).
  - now rewrite (own_entries_falsy map Ht).
Qed.

(** Every record in the map after the loop was there before, or was stored
    by the callback for an entry that is not absent. *)
Lemma each_entries_origin (P : jsstring -> A -> Prop)
    (entries : list (jsstring * value)) :
  (forall n entry m m' w,
     In (n, entry) entries -> is_nullish entry = false ->
     callback n (expandDefaultKey entry defaultKey) m = (Normal m', w) ->
     exists a, m' = jsmap_set m n a /\ P n a) ->
  forall m m' w,
    each_entries defaultKey (on_settings callback) entries m = (Normal m', w) ->
    (forall k a, jsmap_get m k = Some a -> P k a) ->
    forall k a, jsmap_get m' k = Some a -> P k a.
Proof.
  induction entries as [|[n entry] entries IH]; intros Hcb m m' w H Hm;
    cbn [each_entries on_settings] in H.
  - apply ret_Normal_inv in H as [<- _]; exact Hm.
  - assert (Hrest : forall n entry m m' w,
               In (n, entry) entries -> is_nullish entry = false ->
               callback n (expandDefaultKey entry defaultKey) m = (Normal m', w) ->
               exists a, m' = jsmap_set m n a /\ P n a)
      by (intros; eapply Hcb; eauto; now right).
    rewrite is_nullish_expandDefaultKey in H.
    destruct (is_nullish entry) eqn:He.
    + bind_inv_as H u Hu; eapply IH; eauto.
    + bind_inv_as H m1 H1.
      destruct (Hcb _ _ _ _ _ (or_introl eq_refl) He H1) as (r & -> & Hr).
      eapply IH; eauto.
      intros k a Hk; apply jsmap_get_set_inv in Hk as [[-> ->] | [_ Hk]]; auto.
Qed.

(** A name is recorded after the loop exactly when it was recorded before
    or names an entry that is not absent. *)
Lemma each_entries_domain (entries : list (jsstring * value)) :
  (forall n settings m m' w,
     callback n settings m = (Normal m', w) -> exists a, m' = jsmap_set m n a) ->
  forall m m' w k,
    each_entries defaultKey (on_settings callback) entries m = (Normal m', w) ->
    (jsmap_get m' k <> None
     <-> jsmap_get m k <> None
         \/ exists entry, In (k, entry) entries /\ is_nullish entry = false).
Proof.
  intros Hcb; induction entries as [|[n entry] entries IH]; intros m m' w k H;
    cbn [each_entries on_settings] in H.
  - apply ret_Normal_inv in H as [<- _].
    split; [auto | intros [H | (e & [] & _)]; exact H].
  - rewrite is_nullish_expandDefaultKey in H.
    destruct (is_nullish entry) eqn:He.
    + bind_inv_as H u Hu; rewrite (IH _ _ _ k H); split.
      * intros [Hm | (e & Hin & Hne)]; [now left | right; exists e; simpl; auto].
      * intros [Hm | (e & [Heq | Hin] & Hne)]; [now left | | right; eauto].
        inversion Heq; subst; congruence.
    + bind_inv_as H m1 H1; destruct (Hcb _ _ _ _ _ H1) as (r & ->).
      rewrite (IH _ _ _ k H); split.
      * intros [Hm | (e & Hin & Hne)]; [|right; exists e; simpl; auto].
        destruct (jsmap_get (jsmap_set m n r) k) as [b|] eqn:Hk; [|congruence].
        apply jsmap_get_set_inv in Hk as [[-> ->] | [_ Hk]].
        -- right; exists entry; simpl; auto.
        -- left; congruence.
      * intros [Hm | (e & [Heq | Hin] & Hne)]; [| |right; eauto]; left.
        -- destruct (jsstring_eqb n k) eqn:E.
           ++ apply jsstring_eqb_spec in E; subst k.
              now rewrite jsmap_get_set_same.
           ++ rewrite jsmap_get_set_other; [exact Hm|].
              intros ->; now rewrite jsstring_eqb_refl in E.
        -- inversion Heq; subst; now rewrite jsmap_get_set_same.
Qed.

(** What the loop writes: the warning of each absent entry, and for every
    other entry what its callback writes. *)
Lemma each_entries_effects (F : jsstring -> value -> effects)
    (entries : list (jsstring * value)) :
  (forall n settings m m' w,
     callback n settings m = (Normal m', w) -> w = F n settings) ->
  forall m m' w,
    each_entries defaultKey (on_settings callback) entries m = (Normal m', w) ->
    w = flat_map (fun entry =>
                    if is_nullish (snd entry)
                    then [no_valid_metadata (fst entry) (snd entry)]
                    else F (fst entry) (expandDefaultKey (snd entry) defaultKey))
                 entries.
Proof.
  intros Hcb; induction entries as [|[n entry] entries IH]; intros m m' w H;
    cbn [each_entries on_settings] in H.
  - now apply ret_Normal_inv in H.
  - rewrite is_nullish_expandDefaultKey in H; cbn [flat_map fst snd].
    destruct (is_nullish entry).
    + bind_inv_as H u Hu; inversion Hu; subst.
      now rewrite (IH _ _ _ H).
    + bind_inv_as H m1 H1; subst.
      now rewrite (Hcb _ _ _ _ _ H1), (IH _ _ _ H).
Qed.
End LoopFacts.

(** ** The records of the normaliser *)

Section NormalizerRecords.
Variable toUpperCase : jsstring -> jsstring.

Lemma get_prop_falsy (metadata : value) (k : string) :
  truthy metadata = false -> get_prop metadata k = VUndefined.
Proof. now destruct metadata. Qed.

(** The five loops of a run that returns, on any metadata. *)
Lemma collectClassInfo_loops (metadata : value) (className : jsstring)
    (info : ClassInfo) (w : effects) :
  collectClassInfo toUpperCase metadata className = (Normal info, w) ->
  exists w1 w2 w3 w4 w5,
    each_entries type_key (on_settings specialSetting_callback)
      (own_entries (get_prop metadata "specialSettings")) jsmap_empty
    = (Normal (ci_specialSettings info), w1)
    /\ each_entries type_key (on_settings (property_callback toUpperCase))
         (own_entries (get_prop metadata "properties")) jsmap_empty
       = (Normal (ci_properties info), w2)
    /\ each_entries type_key (on_settings (aggregation_callback toUpperCase))
         (own_entries (get_prop metadata "aggregations")) jsmap_empty
       = (Normal (ci_aggregations info), w3)
    /\ each_entries type_key (on_settings (association_callback toUpperCase))
         (own_entries (get_prop metadata "associations")) jsmap_empty
       = (Normal (ci_associations info), w4)
    /\ each_entries None (on_settings (event_callback toUpperCase))
         (own_entries (get_prop metadata "events")) jsmap_empty
       = (Normal (ci_events info), w5)
    /\ w = w1 ++ w2 ++ w3 ++ w4 ++ w5.
Proof.
  intros H; destruct (truthy metadata) eqn:Ht.
  - unfold collectClassInfo in H; rewrite Ht in H.
    bind_inv_as H m1 H1; bind_inv_as H m2 H2; bind_inv_as H m3 H3.
    bind_inv_as H m4 H4; bind_inv_as H m5 H5.
    apply ret_Normal_inv in H as [<- ->]; subst; cbn.
    apply each_as_entries in H1, H2, H3, H4, H5.
    eexists _, _, _, _, _; repeat split; try eassumption.
    now rewrite app_nil_r.
  - unfold collectClassInfo in H; rewrite Ht in H.
    apply ret_Normal_inv in H as [<- ->].
    rewrite !(get_prop_falsy metadata) by exact Ht.
    exists [], [], [], [], []; repeat split.
Qed.

Lemma param_type_default (pSettings : value) :
  (if truthy pSettings && truthy (get_prop pSettings "type")
   then get_prop pSettings "type" else VStr (js ""))
  = or_else (get_prop pSettings "type") (VStr (js "")).
Proof.
  unfold or_else; destruct pSettings; simpl; rewrite ?andb_false_r; reflexivity.
Qed.

(** X2: in a run of the normaliser that returns, the record of every
    property entry has the name of the entry, the declared type or
    "string", the declared default value, the bindable flag as a boolean,
    and exactly the methods get N and set N, plus bind N and unbind N if
    and only if it is bindable. *)
Theorem property_members :
  forall metadata className info w n entry,
    collectClassInfo toUpperCase metadata className = (Normal info, w) ->
    member_of metadata "properties" n entry ->
    let settings := expandDefaultKey entry type_key in
    let N := upper toUpperCase n in
    exists prop,
      jsmap_get (ci_properties info) n = Some prop
      /\ prop_name prop = n
      /\ prop_type prop = or_else (get_prop settings "type") (VStr (js "string"))
      /\ prop_defaultValue prop = get_prop settings "defaultValue"
      /\ prop_bindable prop = truthy (get_prop settings "bindable")
      /\ prop_methods prop
         = [named "get" N; named "set" N] ++ binding_methods N (prop_bindable prop).
Proof.
  intros metadata className info w n entry H Hm settings N.
  destruct (property_recorded _ _ _ _ _ _ _ H Hm) as (prop & w' & m & Hget & Hcb).
  unfold property_callback in Hcb.
  apply ret_Normal_inv in Hcb as [Heq _]; apply jsmap_set_inj in Heq as <-.
  eexists; split; [exact Hget|]; cbn; fold settings N.
  repeat split; now destruct (truthy (get_prop settings "bindable")).
Qed.

(** X5: in a run of the normaliser that returns, the record of every event
    entry has the name of the entry, exactly the methods attach N, detach N
    and fire N, the two flags as booleans, and one parameter record for each
    parameter entry that is not absent, and for no other name; a parameter
    has the declared type, or the empty string (not "string"). *)
Theorem event_members :
  forall metadata className info w n entry,
    collectClassInfo toUpperCase metadata className = (Normal info, w) ->
    member_of metadata "events" n entry ->
    let N := upper toUpperCase n in
    exists ev,
      jsmap_get (ci_events info) n = Some ev
      /\ ev_name ev = n
      /\ ev_methods ev = [named "attach" N; named "detach" N; named "fire" N]
      /\ ev_allowPreventDefault ev = truthy (get_prop entry "allowPreventDefault")
      /\ ev_enableEventBubbling ev = truthy (get_prop entry "enableEventBubbling")
      /\ (forall pName pEntry,
            member_of entry "parameters" pName pEntry ->
            exists p,
              jsmap_get (ev_parameters ev) pName = Some p
              /\ param_name p = pName
              /\ param_type p
                 = or_else (get_prop (expandDefaultKey pEntry type_key) "type")
                     (VStr (js "")))
      /\ (forall pName,
            jsmap_get (ev_parameters ev) pName <> None
            <-> has_entry entry "parameters" pName).
Proof.
  intros metadata className info w n entry H Hm N.
  destruct (event_recorded _ _ _ _ _ _ _ H Hm) as (ev & w' & m & Hget & Hcb).
  unfold event_callback in Hcb; bind_inv_as Hcb ps Hps.
  apply ret_Normal_inv in Hcb as [Heq _]; apply jsmap_set_inj in Heq as <-.
  eexists; split; [exact Hget|]; cbn; fold N.
  do 4 (split; [reflexivity|]).
  assert (Hstores : forall k settings pm pm' wk,
             parameter_callback k settings pm = (Normal pm', wk) ->
             exists a, pm' = jsmap_set pm k a).
  { intros k settings pm pm' wk Hk; apply ret_Normal_inv in Hk as [<- _]; eauto. }
  split.
  - intros pName pEntry (pre & post & Hentries & Hn & He).
    eapply (each_last type_key parameter_callback Hstores); eauto.
    intros pm pm' wk Hk; apply ret_Normal_inv in Hk as [<- _].
    eexists; split; [reflexivity|]; cbn; split; [reflexivity|].
    apply param_type_default.
  - intros pName; apply each_as_entries in Hps.
    rewrite (each_entries_domain type_key parameter_callback _ Hstores _ _ _ pName Hps).
    rewrite jsmap_get_empty; unfold has_entry; intuition congruence.
Qed.

(** X6: in a run of the normaliser that returns, the record of every
    special setting has the name of the entry, the declared type or "any",
    and the declared visibility or "public". *)
Theorem special_setting_members :
  forall metadata className info w n entry,
    collectClassInfo toUpperCase metadata className = (Normal info, w) ->
    member_of metadata "specialSettings" n entry ->
    let settings := expandDefaultKey entry type_key in
    exists ss,
      jsmap_get (ci_specialSettings info) n = Some ss
      /\ ss_name ss = n
      /\ ss_type ss = or_else (get_prop settings "type") (VStr (js "any"))
      /\ ss_visibility ss
         = or_else (get_prop settings "visibility") (VStr (js "public")).
Proof.
  intros metadata className info w n entry H Hm settings.
  destruct (specialSetting_recorded _ _ _ _ _ _ _ H Hm)
    as (ss & w' & m & Hget & Hcb).
  unfold specialSetting_callback in Hcb.
  apply ret_Normal_inv in Hcb as [Heq _]; apply jsmap_set_inj in Heq as <-.
  eexists; split; [exact Hget|]; now cbn.
Qed.
End NormalizerRecords.

(** ** Invariants of the class description *)

Lemma verbs_lead_nil : verbs_lead [].
Proof. intros verb name []. Qed.

Lemma verbs_lead_cons (verb : string) (N : jsstring) (methods : methods_map) :
  verbs_lead methods -> verbs_lead (named verb N :: methods).
Proof.
  intros H v name [Heq | Hin]; [|now apply H].
  inversion Heq; subst; now exists N.
Qed.

Lemma verbs_lead_app (l1 l2 : methods_map) :
  verbs_lead l1 -> verbs_lead l2 -> verbs_lead (l1 ++ l2).
Proof.
  intros H1 H2 verb name Hin; apply in_app_or in Hin as [Hin | Hin]; eauto.
Qed.

Lemma verbs_lead_binding (N : jsstring) (bindable : bool) :
  verbs_lead (binding_methods N bindable).
Proof.
  destruct bindable; simpl;
    repeat apply verbs_lead_cons; apply verbs_lead_nil.
Qed.

Create HintDb verbs.
#[local] Hint Resolve verbs_lead_nil verbs_lead_cons verbs_lead_app
  verbs_lead_binding : verbs.

Ltac solve_verbs :=
  repeat first [ apply verbs_lead_nil | apply verbs_lead_binding
               | apply verbs_lead_cons | apply verbs_lead_app ].

Section NormalizerInvariants.
Variable toUpperCase : jsstring -> jsstring.

Lemma aggregation_callback_invariant (n : jsstring) (settings : value)
    (m m' : jsmap Aggregation) (w : effects) :
  aggregation_callback toUpperCase n settings m = (Normal m', w) ->
  exists a, m' = jsmap_set m n a /\ aggregation_invariant n a.
Proof.
  intros H.
  destruct (aggregation_callback_Normal _ _ _ _ _ _ H)
    as (a & Heq & Hcard & _ & _ & _ & H01 & H0n).
  exists a; split; [exact Heq|]; repeat split.
  - unfold aggregation_callback in H; bind_inv_as H ms Hms.
    apply ret_Normal_inv in H as [H _]; rewrite Heq in H.
    apply jsmap_set_inj in H; now subst a.
  - rewrite Hcard.
    destruct (aggregation_cardinality_cases (get_prop settings "multiple"))
      as [(-> & _) | (-> & _)]; auto.
  - destruct (aggregation_cardinality_cases (get_prop settings "multiple"))
      as [(Hc & _) | (Hc & _)]; rewrite Hc in Hcard.
    + rewrite (H01 Hcard); unfold aggregation_methods_0_1; solve_verbs.
    + destruct (H0n Hcard) as (singular & _ & ->).
      unfold aggregation_methods_0_n; solve_verbs.
Qed.

Lemma association_callback_invariant (n : jsstring) (settings : value)
    (m m' : jsmap Association) (w : effects) :
  association_callback toUpperCase n settings m = (Normal m', w) ->
  exists a, m' = jsmap_set m n a /\ association_invariant n a.
Proof.
  intros H.
  destruct (association_callback_Normal _ _ _ _ _ _ H)
    as (a & Heq & Hcard & _ & _ & _ & H01 & H0n).
  exists a; split; [exact Heq|]; repeat split.
  - unfold association_callback in H; bind_inv_as H ms Hms.
    apply ret_Normal_inv in H as [H _]; rewrite Heq in H.
    apply jsmap_set_inj in H; now subst a.
  - rewrite Hcard; unfold association_cardinality.
    destruct (truthy (get_prop settings "multiple")); auto.
  - unfold association_cardinality in Hcard.
    destruct (truthy (get_prop settings "multiple")).
    + destruct (H0n Hcard) as (singular & _ & ->).
      unfold association_methods_0_n; solve_verbs.
    + rewrite (H01 Hcard); unfold association_methods_0_1; solve_verbs.
Qed.

Lemma event_callback_invariant (n : jsstring) (settings : value)
    (m m' : jsmap UI5Event) (w : effects) :
  event_callback toUpperCase n settings m = (Normal m', w) ->
  exists ev, m' = jsmap_set m n ev /\ event_invariant n ev.
Proof.
  unfold event_callback; intros H; bind_inv_as H ps Hps.
  apply ret_Normal_inv in H as [<- _].
  eexists; split; [reflexivity|]; unfold event_invariant;
    cbn [ev_name ev_visibility ev_methods ev_parameters].
  do 2 (split; [reflexivity|]); split; [solve_verbs|].
  apply each_as_entries in Hps.
  eapply (each_entries_origin _ _ (fun pName p => param_name p = pName));
    [|exact Hps|].
  - intros k entry pm pm' wk _ _ Hk; apply ret_Normal_inv in Hk as [<- _]; eauto.
  - intros k p Hk; now rewrite jsmap_get_empty in Hk.
Qed.

(** X7: in every class description the normaliser returns, each member map
    is keyed by the name of its records; every aggregation and association
    has the cardinality "0..1" or "0..n"; every event is public; and every
    method name of a property, aggregation, association or event is its
    verb followed by a name. *)
Theorem class_description_invariants :
  forall metadata className info w,
    collectClassInfo toUpperCase metadata className = (Normal info, w) ->
    (forall n ss, jsmap_get (ci_specialSettings info) n = Some ss -> ss_name ss = n)
    /\ (forall n prop,
          jsmap_get (ci_properties info) n = Some prop ->
          prop_name prop = n /\ verbs_lead (prop_methods prop))
    /\ (forall n aggr,
          jsmap_get (ci_aggregations info) n = Some aggr ->
          aggregation_invariant n aggr)
    /\ (forall n asso,
          jsmap_get (ci_associations info) n = Some asso ->
          association_invariant n asso)
    /\ (forall n ev,
          jsmap_get (ci_events info) n = Some ev -> event_invariant n ev).
Proof.
  intros metadata className info w H.
  destruct (collectClassInfo_loops _ _ _ _ _ H)
    as (w1 & w2 & w3 & w4 & w5 & H1 & H2 & H3 & H4 & H5 & _).
  split; [|split; [|split; [|split]]].
  - eapply (each_entries_origin _ _ (fun n ss => ss_name ss = n)); [|exact H1|].
    + intros n entry m m' wk _ _ Hk; apply ret_Normal_inv in Hk as [<- _]; eauto.
    + intros k a Hk; now rewrite jsmap_get_empty in Hk.
  - eapply (each_entries_origin _ _
              (fun n prop => prop_name prop = n /\ verbs_lead (prop_methods prop)));
      [|exact H2|].
    + intros n entry m m' wk _ _ Hk.
      destruct (property_callback_Normal _ _ _ _ _ _ Hk)
        as (a & Heq & _ & _ & Hmeth).
      exists a; split; [exact Heq|]; split; [|rewrite Hmeth; solve_verbs].
      apply ret_Normal_inv in Hk as [Hk _]; rewrite Heq in Hk.
      apply jsmap_set_inj in Hk; now subst a.
    + intros k a Hk; now rewrite jsmap_get_empty in Hk.
  - eapply (each_entries_origin _ _ aggregation_invariant); [|exact H3|].
    + intros n entry m m' wk _ _ Hk; eapply aggregation_callback_invariant; eauto.
    + intros k a Hk; now rewrite jsmap_get_empty in Hk.
  - eapply (each_entries_origin _ _ association_invariant); [|exact H4|].
    + intros n entry m m' wk _ _ Hk; eapply association_callback_invariant; eauto.
    + intros k a Hk; now rewrite jsmap_get_empty in Hk.
  - eapply (each_entries_origin _ _ event_invariant); [|exact H5|].
    + intros n entry m m' wk _ _ Hk; eapply event_callback_invariant; eauto.
    + intros k a Hk; now rewrite jsmap_get_empty in Hk.
Qed.
End NormalizerInvariants.

(** ** Which members are recorded, and what is written *)

Section NormalizerDomain.
Variable toUpperCase : jsstring -> jsstring.

Lemma specialSetting_callback_stores n settings (m m' : jsmap SpecialSetting) w :
  specialSetting_callback n settings m = (Normal m', w) ->
  (exists a, m' = jsmap_set m n a) /\ w = [].
Proof. intros H; apply ret_Normal_inv in H as [<- ->]; eauto. Qed.

Lemma property_callback_stores n settings (m m' : jsmap Property) w :
  property_callback toUpperCase n settings m = (Normal m', w) ->
  (exists a, m' = jsmap_set m n a) /\ w = [].
Proof. intros H; apply ret_Normal_inv in H as [<- ->]; eauto. Qed.

Lemma lift_Normal_inv {A} (c : completion A) (a : A) (w : effects) :
  lift c = (Normal a, w) -> c = Normal a /\ w = [].
Proof. unfold lift; intros H; now inversion H. Qed.

Lemma aggregation_callback_stores n settings (m m' : jsmap Aggregation) w :
  aggregation_callback toUpperCase n settings m = (Normal m', w) ->
  (exists a, m' = jsmap_set m n a) /\ w = [].
Proof.
  unfold aggregation_callback; intros H; bind_inv_as H ms Hms.
  apply ret_Normal_inv in H as [<- ->]; split; [eauto|subst w].
  destruct (jsstring_eqb _ cardinality_0_1).
  - now apply ret_Normal_inv in Hms as [_ ->].
  - bind_inv_as Hms N1 HN1; apply ret_Normal_inv in Hms as [_ ->].
    apply lift_Normal_inv in HN1 as [_ ->]; now subst.
Qed.

Lemma association_callback_stores n settings (m m' : jsmap Association) w :
  association_callback toUpperCase n settings m = (Normal m', w) ->
  (exists a, m' = jsmap_set m n a) /\ w = [].
Proof.
  unfold association_callback; intros H; bind_inv_as H ms Hms.
  apply ret_Normal_inv in H as [<- ->]; split; [eauto|subst w].
  destruct (jsstring_eqb _ cardinality_0_1).
  - now apply ret_Normal_inv in Hms as [_ ->].
  - bind_inv_as Hms N1 HN1; apply ret_Normal_inv in Hms as [_ ->].
    apply lift_Normal_inv in HN1 as [_ ->]; now subst.
Qed.

Lemma parameter_callback_stores n settings (m m' : jsmap EventParameter) w :
  parameter_callback n settings m = (Normal m', w) ->
  (exists a, m' = jsmap_set m n a) /\ w = [].
Proof. intros H; apply ret_Normal_inv in H as [<- ->]; eauto. Qed.

Lemma event_callback_stores n settings (m m' : jsmap UI5Event) w :
  event_callback toUpperCase n settings m = (Normal m', w) ->
  (exists a, m' = jsmap_set m n a)
  /\ w = absent_warnings (own_entries (get_prop settings "parameters")).
Proof.
  unfold event_callback; intros H; bind_inv_as H ps Hps.
  apply ret_Normal_inv in H as [<- ->]; split; [eauto|subst w].
  apply each_as_entries in Hps; rewrite app_nil_r.
  apply (each_entries_effects type_key parameter_callback (fun _ _ => [])) in Hps;
    [exact Hps|].
  intros k s pm pm' wk Hk; now apply parameter_callback_stores in Hk.
Qed.

(** X8: in a run of the normaliser that returns, a name is recorded among
    the special settings, properties, aggregations, associations or events
    if and only if the raw metadata holds an entry of that kind under that
    name that is not absent: nothing is invented, nothing else is dropped. *)
Theorem recorded_names_are_the_entries :
  forall metadata className info w,
    collectClassInfo toUpperCase metadata className = (Normal info, w) ->
    forall n,
      (jsmap_get (ci_specialSettings info) n <> None
       <-> has_entry metadata "specialSettings" n)
      /\ (jsmap_get (ci_properties info) n <> None
          <-> has_entry metadata "properties" n)
      /\ (jsmap_get (ci_aggregations info) n <> None
          <-> has_entry metadata "aggregations" n)
      /\ (jsmap_get (ci_associations info) n <> None
          <-> has_entry metadata "associations" n)
      /\ (jsmap_get (ci_events info) n <> None
          <-> has_entry metadata "events" n).
Proof.
  intros metadata className info w H n.
  destruct (collectClassInfo_loops _ _ _ _ _ H)
    as (w1 & w2 & w3 & w4 & w5 & H1 & H2 & H3 & H4 & H5 & _).
  unfold has_entry.
  split; [|split; [|split; [|split]]].
  - rewrite (each_entries_domain _ _ _
               (fun n s m m' w Hk => proj1 (specialSetting_callback_stores n s m m' w Hk))
               _ _ _ n H1).
    rewrite jsmap_get_empty; intuition congruence.
  - rewrite (each_entries_domain _ _ _
               (fun n s m m' w Hk => proj1 (property_callback_stores n s m m' w Hk))
               _ _ _ n H2).
    rewrite jsmap_get_empty; intuition congruence.
  - rewrite (each_entries_domain _ _ _
               (fun n s m m' w Hk => proj1 (aggregation_callback_stores n s m m' w Hk))
               _ _ _ n H3).
    rewrite jsmap_get_empty; intuition congruence.
  - rewrite (each_entries_domain _ _ _
               (fun n s m m' w Hk => proj1 (association_callback_stores n s m m' w Hk))
               _ _ _ n H4).
    rewrite jsmap_get_empty; intuition congruence.
  - rewrite (each_entries_domain _ _ _
               (fun n s m m' w Hk => proj1 (event_callback_stores n s m m' w Hk))
               _ _ _ n H5).
    rewrite jsmap_get_empty; intuition congruence.
Qed.

(** X9: in a run of the normaliser that returns, what is written to the
    console is exactly one warning for each absent entry (of a member kind,
    or of the parameters of an event that is not absent), in the order of
    the loops and of the entries, and nothing else. *)
Theorem diagnostics_are_the_absent_entries :
  forall metadata className info w,
    collectClassInfo toUpperCase metadata className = (Normal info, w) ->
    w = expected_warnings metadata.
Proof.
  intros metadata className info w H.
  destruct (collectClassInfo_loops _ _ _ _ _ H)
    as (w1 & w2 & w3 & w4 & w5 & H1 & H2 & H3 & H4 & H5 & ->).
  unfold expected_warnings.
  apply (each_entries_effects _ _ (fun _ _ => [])) in H1;
    [|intros ? ? ? ? ? Hk; now apply specialSetting_callback_stores in Hk].
  apply (each_entries_effects _ _ (fun _ _ => [])) in H2;
    [|intros ? ? ? ? ? Hk; now apply property_callback_stores in Hk].
  apply (each_entries_effects _ _ (fun _ _ => [])) in H3;
    [|intros ? ? ? ? ? Hk; now apply aggregation_callback_stores in Hk].
  apply (each_entries_effects _ _ (fun _ _ => [])) in H4;
    [|intros ? ? ? ? ? Hk; now apply association_callback_stores in Hk].
  apply (each_entries_effects _ _
           (fun _ settings =>
              absent_warnings (own_entries (get_prop settings "parameters")))) in H5;
    [|intros ? ? ? ? ? Hk; now apply event_callback_stores in Hk].
  rewrite H1, H2, H3, H4, H5; unfold event_warnings.
  do 4 (apply f_equal2; [reflexivity|]).
  apply flat_map_ext; intros [k v]; cbn [fst snd].
  destruct (is_nullish v); [reflexivity|].
  now destruct v.
Qed.
End NormalizerDomain.

(** ** The further facts on concrete metadata *)

(** X2 at the property busy of sample_metadata (boolean, bindable). *)
Lemma property_members_witness :
  exists info w busy,
    collectClassInfo toUpperCase_ascii sample_metadata (js "Widget") = (Normal info, w)
    /\ jsmap_get (ci_properties info) (js "busy") = Some busy
    /\ prop_type busy = VStr (js "boolean")
    /\ prop_methods busy
       = [named "get" (js "Busy"); named "set" (js "Busy");
          named "bind" (js "Busy"); named "unbind" (js "Busy")].
Proof.
  destruct (collectClassInfo toUpperCase_ascii sample_metadata (js "Widget"))
    as [[info|e] w] eqn:E; [|vm_compute in E; discriminate E].
  assert (Hm : member_of sample_metadata "properties" (js "busy")
                 (VObj [ (js "type", VStr (js "boolean"));
                         (js "visibility", VStr (js "hidden"));
                         (js "bindable", VBool true) ])).
  { sample_member [(js "text", VStr (js "string")); (js "enabled", VObj [])]
                  (@nil (jsstring * value)). }
  pose proof (property_members toUpperCase_ascii _ _ _ _ _ _ E Hm) as Hp.
  cbv zeta in Hp; destruct Hp as (busy & Hget & _ & Htype & _ & Hb & Hmeth).
  exists info, w, busy; rewrite Hmeth, Hb.
  split; [reflexivity|]; split; [exact Hget|]; split; [exact Htype|reflexivity].
Defined.

(** X5 at the event close of dialog_metadata. *)
Lemma event_members_witness :
  exists info w close origin,
    collectClassInfo toUpperCase_ascii dialog_metadata (js "Dialog") = (Normal info, w)
    /\ jsmap_get (ci_events info) (js "close") = Some close
    /\ ev_allowPreventDefault close = true
    /\ ev_methods close
       = [named "attach" (js "Close"); named "detach" (js "Close");
          named "fire" (js "Close")]
    /\ jsmap_get (ev_parameters close) (js "origin") = Some origin
    /\ param_type origin = VStr (js "string")
    /\ jsmap_get (ev_parameters close) (js "legacy") = None.
Proof.
  destruct (collectClassInfo toUpperCase_ascii dialog_metadata (js "Dialog"))
    as [[info|e] w] eqn:E; [|vm_compute in E; discriminate E].
  assert (Hm : member_of dialog_metadata "events" (js "close")
                 (VObj [ (js "allowPreventDefault", VBool true);
                         (js "parameters",
                          VObj [ (js "origin", VStr (js "string"));
                                 (js "reason", VObj []);
                                 (js "legacy", VNull) ]) ])).
  { sample_member (@nil (jsstring * value)) (@nil (jsstring * value)). }
  pose proof (event_members toUpperCase_ascii _ _ _ _ _ _ E Hm) as Hp.
  cbv zeta in Hp.
  destruct Hp as (close & Hget & _ & Hmeth & Hprevent & _ & Hparams & Hdomain).
  destruct (Hparams (js "origin") (VStr (js "string")))
    as (origin & Horigin & _ & Htype).
  { sample_member (@nil (jsstring * value))
      [(js "reason", VObj []); (js "legacy", VNull)]. }
  exists info, w, close, origin; rewrite Hmeth.
  split; [reflexivity|]; split; [exact Hget|]; split; [exact Hprevent|].
  split; [reflexivity|]; split; [exact Horigin|]; split; [exact Htype|].
  destruct (jsmap_get (ev_parameters close) (js "legacy")) as [p|] eqn:Hlegacy;
    [exfalso|reflexivity].
  assert (Hsome : jsmap_get (ev_parameters close) (js "legacy") <> None)
    by (rewrite Hlegacy; discriminate).
  apply Hdomain in Hsome as (entry & Hin & Hnot).
  vm_compute in Hin.
  repeat (destruct Hin as [Hin | Hin];
          [inversion Hin; subst entry; discriminate Hnot|]).
  destruct Hin.
Defined.

(** X6 at the special setting mode of dialog_metadata. *)
Lemma special_setting_members_witness :
  exists info w mode,
    collectClassInfo toUpperCase_ascii dialog_metadata (js "Dialog") = (Normal info, w)
    /\ jsmap_get (ci_specialSettings info) (js "mode") = Some mode
    /\ ss_type mode = VStr (js "string")
    /\ ss_visibility mode = VStr (js "public").
Proof.
  destruct (collectClassInfo toUpperCase_ascii dialog_metadata (js "Dialog"))
    as [[info|e] w] eqn:E; [|vm_compute in E; discriminate E].
  assert (Hm : member_of dialog_metadata "specialSettings" (js "mode")
                 (VStr (js "string"))).
  { sample_member (@nil (jsstring * value)) (@nil (jsstring * value)). }
  pose proof (special_setting_members toUpperCase_ascii _ _ _ _ _ _ E Hm) as Hp.
  cbv zeta in Hp; destruct Hp as (mode & Hget & _ & Htype & Hvis).
  exists info, w, mode.
  split; [reflexivity|]; split; [exact Hget|]; split; [exact Htype|exact Hvis].
Defined.

(** X7 at sample_metadata. *)
Lemma class_description_invariants_witness :
  exists info w,
    collectClassInfo toUpperCase_ascii sample_metadata (js "Widget") = (Normal info, w)
    /\ (forall n aggr,
          jsmap_get (ci_aggregations info) n = Some aggr ->
          aggregation_invariant n aggr)
    /\ (forall n ev,
          jsmap_get (ci_events info) n = Some ev -> event_invariant n ev).
Proof.
  destruct (collectClassInfo toUpperCase_ascii sample_metadata (js "Widget"))
    as [[info|e] w] eqn:E; [|vm_compute in E; discriminate E].
  destruct (class_description_invariants toUpperCase_ascii _ _ _ _ E)
    as (_ & _ & Haggr & _ & Hev).
  exists info, w; split; [reflexivity|]; split; assumption.
Defined.

(** X8 at sample_metadata: busy is a property, items is not. *)
Lemma recorded_names_are_the_entries_witness :
  exists info w,
    collectClassInfo toUpperCase_ascii sample_metadata (js "Widget") = (Normal info, w)
    /\ jsmap_get (ci_properties info) (js "busy") <> None
    /\ jsmap_get (ci_properties info) (js "items") = None.
Proof.
  destruct (collectClassInfo toUpperCase_ascii sample_metadata (js "Widget"))
    as [[info|e] w] eqn:E; [|vm_compute in E; discriminate E].
  exists info, w; split; [reflexivity|]; split.
  - destruct (recorded_names_are_the_entries toUpperCase_ascii _ _ _ _ E (js "busy"))
      as (_ & Hprop & _).
    apply Hprop; eexists; split;
      [vm_compute; right; right; left; reflexivity | reflexivity].
  - destruct (recorded_names_are_the_entries toUpperCase_ascii _ _ _ _ E (js "items"))
      as (_ & Hprop & _).
    destruct (jsmap_get (ci_properties info) (js "items")) as [p|];
      [exfalso|reflexivity].
    assert (Hsome : Some p <> None) by discriminate.
    apply Hprop in Hsome as (entry & Hin & _).
    vm_compute in Hin.
    repeat (destruct Hin as [Hin | Hin]; [discriminate Hin|]).
    destruct Hin.
Defined.

(** X9 at metadata_with_null: one warning, for the absent property. *)
Lemma diagnostics_are_the_absent_entries_witness :
  exists info,
    collectClassInfo toUpperCase_ascii metadata_with_null (js "Widget")
    = (Normal info, [no_valid_metadata (js "broken") VNull]).
Proof.
  destruct (collectClassInfo toUpperCase_ascii metadata_with_null (js "Widget"))
    as [[info|e] w] eqn:E; [|vm_compute in E; discriminate E].
  rewrite (diagnostics_are_the_absent_entries toUpperCase_ascii _ _ _ _ E).
  exists info; reflexivity.
Defined.

(** ** What the normaliser may do *)

Create HintDb tame.

Lemma tame_ret {A} (a : A) : tame (ret a).
Proof. split; [reflexivity|discriminate]. Qed.

Lemma tame_throw {A} : tame (@throw A TypeError).
Proof. split; [reflexivity|]; intros e He; now inversion He. Qed.

Lemma tame_warn (n : jsstring) (entry : value) :
  tame (perform (no_valid_metadata n entry)).
Proof. split; [reflexivity|discriminate]. Qed.

Lemma tame_bind {A B} (c : M A) (k : A -> M B) :
  tame c -> (forall a, tame (k a)) -> tame (bind c k).
Proof.
  unfold tame; destruct c as [[a|e] w]; intros [Hw He] Hk; cbn in *;
    [|split; [exact Hw|intros e0 H0; apply He; now inversion H0]].
  specialize (Hk a); destruct (k a) as [r w']; destruct Hk as [Hw' He'].
  split; cbn in *; [|exact He'].
  now rewrite forallb_app, Hw, Hw'.
Qed.

#[local] Hint Resolve tame_ret tame_throw tame_warn tame_bind : tame.

Section Tame.
Variable toUpperCase : jsstring -> jsstring.

Lemma tame_upper_of (v : value) : tame (lift (upper_of toUpperCase v)).
Proof.
  destruct v; split; try reflexivity; cbn; intros e He;
    now (discriminate He || inversion He).
Qed.

Lemma tame_each_entries {St} (defaultKey : option jsstring)
    (callback : jsstring -> value -> St -> M St) :
  (forall n settings st, tame (callback n settings st)) ->
  forall entries st, tame (each_entries defaultKey (on_settings callback) entries st).
Proof.
  intros Hcb entries; induction entries as [|[n entry] rest IH]; intros st;
    cbn [each_entries on_settings]; [apply tame_ret|].
  destruct (is_nullish _); auto with tame.
Qed.

Lemma tame_each {St} (defaultKey : option jsstring)
    (callback : jsstring -> value -> St -> M St) :
  (forall n settings st, tame (callback n settings st)) ->
  forall map st, tame (each defaultKey (on_settings callback) map st).
Proof.
  intros Hcb map st; unfold each.
  destruct (truthy map); [|apply tame_ret].
  destruct (hides_hasOwnProperty map); [apply tame_throw|].
  now apply tame_each_entries.
Qed.

Lemma tame_aggregation_callback n settings m :
  tame (aggregation_callback toUpperCase n settings m).
Proof.
  unfold aggregation_callback; apply tame_bind; [|auto with tame].
  destruct (jsstring_eqb _ _); [apply tame_ret|].
  apply tame_bind; [apply tame_upper_of|auto with tame].
Qed.

Lemma tame_association_callback n settings m :
  tame (association_callback toUpperCase n settings m).
Proof.
  unfold association_callback; apply tame_bind; [|auto with tame].
  destruct (jsstring_eqb _ _); [apply tame_ret|].
  apply tame_bind; [apply tame_upper_of|auto with tame].
Qed.

Lemma tame_event_callback n settings m :
  tame (event_callback toUpperCase n settings m).
Proof.
  unfold event_callback; apply tame_bind; [|auto with tame].
  apply tame_each; intros; apply tame_ret.
Qed.

Lemma tame_collectClassInfo (metadata : value) (className : jsstring) :
  tame (collectClassInfo toUpperCase metadata className).
Proof.
  unfold collectClassInfo; destruct (truthy metadata); [|apply tame_ret].
  apply tame_bind; [apply tame_each; intros; apply tame_ret|intros m1].
  apply tame_bind; [apply tame_each; intros; apply tame_ret|intros m2].
  apply tame_bind; [apply tame_each, tame_aggregation_callback|intros m3].
  apply tame_bind; [apply tame_each, tame_association_callback|intros m4].
  apply tame_bind; [apply tame_each, tame_event_callback|intros m5].
  apply tame_ret.
Qed.

(** X10: however a run of the normaliser ends, it has written warnings
    only (no log line, no generated interface), and if it ends in an
    exception, the exception is a TypeError, never an Error with a
    message. *)
Theorem collectClassInfo_warns_and_type_errors :
  forall metadata className c w,
    collectClassInfo toUpperCase metadata className = (c, w) ->
    forallb is_warning w = true
    /\ forall e, c = Throw e -> e = TypeError.
Proof.
  intros metadata className c w H.
  pose proof (tame_collectClassInfo metadata className) as Ht.
  now rewrite H in Ht.
Qed.

(** X11: in every class description the normaliser returns, the name is
    the class name passed in; designTime is false and designtime is a string
    or a boolean, whatever the metadata holds under either spelling;
    interfaces counts as true; and library, defaultProperty and
    defaultAggregation are each undefined or a value that counts as true. *)
Theorem header_fields :
  forall metadata className info w,
    collectClassInfo toUpperCase metadata className = (Normal info, w) ->
    ci_name info = className
    /\ ci_designTime info = VBool false
    /\ is_string_or_boolean (ci_designtime info) = true
    /\ truthy (ci_interfaces info) = true
    /\ undefined_or_truthy (ci_library info)
    /\ undefined_or_truthy (ci_defaultProperty info)
    /\ undefined_or_truthy (ci_defaultAggregation info).
Proof.
  assert (Hor : forall v, undefined_or_truthy (or_else v VUndefined)).
  { intros v; unfold or_else, undefined_or_truthy.
    destruct (truthy v) eqn:Hv; [now right|now left]. }
  intros metadata className info w H; unfold collectClassInfo in H.
  destruct (truthy metadata).
  - bind_inv_as H m1 H1; bind_inv_as H m2 H2; bind_inv_as H m3 H3.
    bind_inv_as H m4 H4; bind_inv_as H m5 H5.
    apply ret_Normal_inv in H as [<- _].
    cbn [ci_name ci_designTime ci_designtime ci_interfaces ci_library
         ci_defaultProperty ci_defaultAggregation].
    split; [reflexivity|]; split; [reflexivity|]; split; [|split].
    + destruct (is_string_or_boolean (or_else _ _)) eqn:Hd;
        [exact Hd|reflexivity].
    + unfold or_else.
      destruct (truthy (get_prop metadata "interfaces")) eqn:Hi;
        [exact Hi|reflexivity].
    + auto.
  - apply ret_Normal_inv in H as [<- _]; cbn.
    repeat split; now left.
Qed.
End Tame.

(** X10 at metadata_with_numeric_singular: the warning for the absent
    property is written, then the aggregation items ends the run. *)
Lemma collectClassInfo_warns_and_type_errors_witness :
  collectClassInfo toUpperCase_ascii metadata_with_numeric_singular (js "Widget")
  = (Throw TypeError, [no_valid_metadata (js "broken") VNull]).
Proof.
  destruct (collectClassInfo toUpperCase_ascii metadata_with_numeric_singular
              (js "Widget")) as [[info|e] w] eqn:E;
    [vm_compute in E; discriminate E|].
  destruct (collectClassInfo_warns_and_type_errors toUpperCase_ascii _ _ _ _ E)
    as [_ He].
  rewrite (He e eq_refl) in *.
  vm_compute in E; inversion E; reflexivity.
Defined.

(** X11 at sample_metadata. *)
Lemma header_fields_witness :
  exists info w,
    collectClassInfo toUpperCase_ascii sample_metadata (js "Widget") = (Normal info, w)
    /\ ci_name info = js "Widget"
    /\ ci_designTime info = VBool false.
Proof.
  destruct (collectClassInfo toUpperCase_ascii sample_metadata (js "Widget"))
    as [[info|e] w] eqn:E; [|vm_compute in E; discriminate E].
  destruct (header_fields toUpperCase_ascii _ _ _ _ E) as (Hname & Hd & _).
  exists info, w; split; [reflexivity|]; split; assumption.
Defined.

(** ** The singular name and the expansion, once more *)

Lemma singular_callback_shortens (s : jsstring) :
  existsb (matches_to_end s) rPlural_alternatives = true ->
  (length (singular_callback s) < length s)%nat.
Proof.
  intros E; apply some_alternative_matches in E as (entry & rule & Hin & He).
  pose proof (equal_ignoring_case_length _ _ He) as Hlen.
  destruct (singular_callback_rule _ _ _ Hin He) as [-> _].
  unfold singular_rules in Hin; simpl in Hin.
  remember (length s) as len eqn:Hs in *.
  repeat (destruct Hin as [Hin | Hin];
          [inversion Hin; subst entry rule; vm_compute in Hlen;
           rewrite ?length_firstn, <- ?Hs; simpl; lia|]).
  destruct Hin.
Qed.

Lemma guessSingularName_cases (s : jsstring) :
  (guessSingularName s = s /\ forall suffix, ~ applicable s suffix)
  \/ ((length (guessSingularName s) < length s)%nat
      /\ exists suffix, applicable s suffix).
Proof.
  induction s as [|c s IH]; rewrite guessSingularName_unfold.
  - destruct (existsb (matches_to_end []) rPlural_alternatives) eqn:E.
    + right; split; [now apply singular_callback_shortens|].
      apply some_alternative_matches in E as (entry & rule & Hin & He).
      now exists [], [], entry, rule.
    + left; split; [reflexivity|].
      intros suffix (prefix & entry & rule & Hs & Hin & He).
      symmetry in Hs; apply app_eq_nil in Hs as [_ ->].
      assert (E' : existsb (matches_to_end []) rPlural_alternatives = true)
        by (apply some_alternative_matches; eauto).
      congruence.
  - destruct (existsb (matches_to_end (c :: s)) rPlural_alternatives) eqn:E.
    + right; split; [now apply singular_callback_shortens|].
      apply some_alternative_matches in E as (entry & rule & Hin & He).
      now exists (c :: s), [], entry, rule.
    + destruct IH as [[Heq Hno] | [Hlt (suffix & prefix & entry & rule & Hs & Hr)]].
      * left; split; [now rewrite Heq|].
        intros suffix (prefix & entry & rule & Hs & Hin & He).
        destruct prefix as [|c' prefix]; simpl in Hs.
        -- subst suffix.
           assert (E' : existsb (matches_to_end (c :: s)) rPlural_alternatives = true)
             by (apply some_alternative_matches; eauto).
           congruence.
        -- inversion Hs; subst c' s.
           apply (Hno suffix); now exists prefix, entry, rule.
      * right; split; [simpl; lia|].
        exists suffix, (c :: prefix), entry, rule; simpl; now rewrite Hs.
Qed.

(** X3: [guessSingularName] never lengthens a name; it returns the name
    unchanged exactly when none of its suffixes is an entry of the table,
    and a strictly shorter name exactly when one is. *)
Theorem guessSingularName_shortens :
  forall s,
    (length (guessSingularName s) <= length s)%nat
    /\ (guessSingularName s = s <-> forall suffix, ~ applicable s suffix)
    /\ ((length (guessSingularName s) < length s)%nat
        <-> exists suffix, applicable s suffix).
Proof.
  intros s.
  destruct (guessSingularName_cases s) as [[Heq Hno] | [Hlt Hsome]].
  - rewrite Heq; split; [lia|]; split; [tauto|].
    split; [lia|]; intros (suffix & Ha); destruct (Hno _ Ha).
  - split; [lia|]; split; [|tauto].
    split; [intros Heq; rewrite Heq in Hlt; lia|].
    intros Hno; destruct Hsome as (suffix & Ha); destruct (Hno _ Ha).
Qed.

(** X13: an expansion is in its long form: expanding it again changes
    nothing, with a default key it is never a bare string, it is absent
    exactly when the entry is, and the expansion of a type name under the
    key "type" holds that name as its type. *)
Theorem expandDefaultKey_long_form :
  (forall node defaultKey,
     expandDefaultKey (expandDefaultKey node defaultKey) defaultKey
     = expandDefaultKey node defaultKey)
  /\ (forall node k s, expandDefaultKey node (Some k) <> VStr s)
  /\ (forall node defaultKey,
        is_nullish (expandDefaultKey node defaultKey) = is_nullish node)
  /\ (forall s, get_prop (expandDefaultKey (VStr s) type_key) "type" = VStr s).
Proof.
  split; [|split; [|split]].
  - intros [] [k|]; try reflexivity; cbn; unfold wrap.
    now destruct (jsstring_eqb k proto_key).
  - intros [] k s'; try discriminate; cbn; unfold wrap.
    now destruct (jsstring_eqb k proto_key).
  - intros [] [k|]; try reflexivity; cbn; unfold wrap.
    now destruct (jsstring_eqb k proto_key).
  - intros s; reflexivity.
Qed.

Lemma assoc_long_form (defaultKey : option jsstring)
    (props : list (jsstring * value)) (k : jsstring) :
  assoc (long_form defaultKey props) k
  = option_map (fun entry => expandDefaultKey entry defaultKey) (assoc props k).
Proof.
  induction props as [|[k' entry] props IH]; [reflexivity|]; cbn.
  now destruct (jsstring_eqb k' k).
Qed.

Lemma bind_assoc {A B C} (c : M A) (k : A -> M B) (k' : B -> M C) :
  bind (bind c k) k' = bind c (fun a => bind (k a) k').
Proof.
  destruct c as [[a|e] w]; cbn; [|reflexivity].
  destruct (k a) as [[b|e] w1]; cbn; [|reflexivity].
  destruct (k' b) as [r w2]; now rewrite app_assoc.
Qed.

Lemma bind_ext {A B} (c : M A) (k k' : A -> M B) :
  (forall a, k a = k' a) -> bind c k = bind c k'.
Proof. intros H; destruct c as [[a|e] w]; cbn; now rewrite ?H. Qed.

Lemma bind_ret_l {A B} (a : A) (k : A -> M B) : bind (ret a) k = k a.
Proof. cbn; now destruct (k a). Qed.

Lemma each_entries_ext {St} (defaultKey : option jsstring)
    (callback callback' : jsstring -> value -> value -> value -> St -> M St)
    (entries : list (jsstring * value)) :
  (forall n settings doclet apiMember st,
     callback n settings doclet apiMember st
     = callback' n settings doclet apiMember st) ->
  forall st,
    each_entries defaultKey callback entries st
    = each_entries defaultKey callback' entries st.
Proof.
  intros Hext; induction entries as [|[n entry] rest IH]; intros st;
    [reflexivity|].
  cbn [each_entries]; destruct (is_nullish _).
  - now apply bind_ext.
  - rewrite Hext; now apply bind_ext.
Qed.

(** X14: the loop over the members of one kind hands its callback the
    expansion of an entry and, as fourth argument, the entry itself.
    Writing every entry in its long form beforehand (a type name T as the
    record with the type T) changes that fourth argument only: the run is
    the run over the original members with a callback that is handed the
    expansion in place of the entry. For a callback that does not read its
    fourth argument, as the callbacks of collectClassInfo, it changes
    nothing: the same calls, the same warnings, the same end. *)
Theorem each_long_form :
  forall (St : Type) (defaultKey : option jsstring)
         (callback : jsstring -> value -> value -> value -> St -> M St)
         (props : list (jsstring * value)) (st : St),
    each defaultKey callback (VObj (long_form defaultKey props)) st
    = each defaultKey
        (fun n settings doclet apiMember =>
           callback n settings doclet (expandDefaultKey apiMember defaultKey))
        (VObj props) st
    /\ ((forall n settings doclet apiMember apiMember' st',
           callback n settings doclet apiMember st'
           = callback n settings doclet apiMember' st') ->
        each defaultKey callback (VObj (long_form defaultKey props)) st
        = each defaultKey callback (VObj props) st).
Proof.
  intros St defaultKey callback props st.
  assert (Hlong :
            each defaultKey callback (VObj (long_form defaultKey props)) st
            = each defaultKey
                (fun n settings doclet apiMember =>
                   callback n settings doclet
                     (expandDefaultKey apiMember defaultKey))
                (VObj props) st).
  { unfold each; cbn [truthy].
    unfold hides_hasOwnProperty; rewrite assoc_long_form.
    destruct (assoc props (js "hasOwnProperty")); [reflexivity|].
    cbn [option_map own_entries]; revert st.
    destruct expandDefaultKey_long_form as (Hidem & _ & Hnull & _).
    induction props as [|[n entry] props IH]; intros st; [reflexivity|].
    cbn [long_form List.map each_entries fst snd].
    rewrite Hidem, Hnull.
    destruct (is_nullish entry) eqn:Hentry.
    - replace (expandDefaultKey entry defaultKey) with entry
        by now destruct entry.
      apply bind_ext; intros _; apply IH.
    - apply bind_ext; intros st'; apply IH. }
  split; [exact Hlong|].
  intros Hignores; rewrite Hlong; unfold each.
  destruct (truthy (VObj props)); [|reflexivity].
  destruct (hides_hasOwnProperty (VObj props)); [reflexivity|].
  apply each_entries_ext; intros n settings doclet apiMember st'.
  apply Hignores.
Qed.

(** X14 at the properties loop of collectClassInfo. *)
Lemma each_long_form_witness :
  each type_key (on_settings (property_callback toUpperCase_ascii))
    (VObj (long_form type_key [(js "text", VStr (js "string"))])) jsmap_empty
  = each type_key (on_settings (property_callback toUpperCase_ascii))
      (VObj [(js "text", VStr (js "string"))]) jsmap_empty.
Proof.
  apply (proj2 (each_long_form _ type_key
                  (on_settings (property_callback toUpperCase_ascii))
                  [(js "text", VStr (js "string"))] jsmap_empty)).
  reflexivity.
Defined.

(** ** The constructor signatures *)

Lemma bind_lift_Normal_inv {A B} (c : completion A) (k : A -> M B)
    (b : B) (w : effects) :
  bind (lift c) k = (Normal b, w) -> exists a, c = Normal a /\ k a = (Normal b, w).
Proof.
  destruct c as [a|e]; cbn; [|discriminate].
  destruct (k a) as [r w'] eqn:E; intros H; inversion H; subst; eauto.
Qed.

Lemma merge_flags_assoc (a b c : ConstructorFlags) :
  merge_flags (merge_flags a b) c = merge_flags a (merge_flags b c).
Proof. unfold merge_flags; cbn; now rewrite !orb_assoc. Qed.

Lemma merge_flags_none (flags : ConstructorFlags) :
  merge_flags flags (signatures_among []) = flags.
Proof. destruct flags; unfold merge_flags; cbn; now rewrite !orb_false_r. Qed.

Lemma signatures_among_cons (ctor : ConstructorDeclaration)
    (rest : list ConstructorDeclaration) :
  signatures_among (ctor :: rest)
  = merge_flags (signatures_among [ctor]) (signatures_among rest).
Proof. unfold signatures_among, merge_flags; cbn; now rewrite !orb_false_r. Qed.

Lemma signatures_among_unexpected (ctor : ConstructorDeclaration) :
  is_unexpected ctor = true -> signatures_among [ctor] = signatures_among [].
Proof.
  destruct ctor as [parameters body].
  unfold is_unexpected, signatures_among, is_single_declaration,
    is_double_declaration, is_implementation, typed_string_and_reference;
    cbn [ctor_parameters has_body existsb].
  destruct parameters as [|p0 [|p1 [|p2 rest]]], body; try discriminate;
    intros _; cbn; now rewrite ?andb_false_r.
Qed.

(** One turn of the loop over the members, case by case. *)
Lemma check_member_run (name : option jsstring) (ctor : ConstructorDeclaration)
    (flags : ConstructorFlags) :
  check_member name (ConstructorMember ctor) flags
  = if reads_absent_type ctor then throw TypeError
    else if is_unexpected ctor
         then match name with
              | Some className =>
                  (Normal flags,
                   [ConsoleLog (unexpected_constructor_message className)])
              | None => throw TypeError
              end
         else ret (merge_flags flags (signatures_among [ctor])).
Proof.
  destruct ctor as [parameters body], flags as [a b c].
  unfold reads_absent_type, is_unexpected, signatures_among, merge_flags,
    is_single_declaration, is_double_declaration, is_implementation,
    typed_string_and_reference;
    cbn [check_member ctor_parameters has_body existsb
         singleParameterDeclarationFound doubleParameterDeclarationFound
         implementationFound].
  destruct parameters as [|p0 [|p1 [|p2 rest]]].
  - now destruct name.
  - destruct body; [now destruct name|].
    destruct (questionToken p0); cbn [andb negb];
      [|unfold ret; now rewrite ?andb_false_r, ?orb_false_r].
    destruct (parameter_type p0) as [[| |[|t1 [|t2 [|t3 ts]]]|]|];
      try reflexivity;
      try (unfold ret; now rewrite ?andb_false_r, ?orb_false_r).
    cbn; fold (string_and_reference t1 t2).
    destruct (string_and_reference t1 t2); cbn; unfold ret;
      now rewrite ?andb_false_r, ?orb_false_r, ?orb_true_r.
  - destruct (parameter_type p0) as [t1|], (parameter_type p1) as [t2|];
      try reflexivity.
    cbn; fold (string_and_reference t1 t2).
    destruct (string_and_reference t1 t2), body; cbn; unfold ret;
      now rewrite ?andb_false_r, ?orb_false_r, ?orb_true_r.
  - now destruct name.
Qed.

Lemma constructors_of_cons (member : ClassMember) (rest : list ClassMember) :
  constructors_of (member :: rest)
  = constructors_of [member] ++ constructors_of rest.
Proof. now destruct member. Qed.

Lemma unexpected_logs_app (name : option jsstring)
    (l1 l2 : list ConstructorDeclaration) :
  unexpected_logs name (l1 ++ l2)
  = unexpected_logs name l1 ++ unexpected_logs name l2.
Proof. unfold unexpected_logs; now rewrite filter_app, map_app. Qed.

(** The runs of the loop that return. *)
Lemma check_members_Normal (name : option jsstring) (members : list ClassMember) :
  forall flags flags' w,
    check_members name members flags = (Normal flags', w)
    <-> existsb reads_absent_type (constructors_of members) = false
        /\ (name = None -> existsb is_unexpected (constructors_of members) = false)
        /\ flags' = merge_flags flags (signatures_among (constructors_of members))
        /\ w = unexpected_logs name (constructors_of members).
Proof.
  induction members as [|member rest IH]; intros flags flags' w.
  - cbn; rewrite merge_flags_none; split.
    + intros H; inversion H; auto.
    + now intros (_ & _ & -> & ->).
  - cbn [check_members]; destruct member as [ctor|].
    + rewrite check_member_run; cbn [constructors_of existsb].
      rewrite (signatures_among_cons ctor (constructors_of rest)),
        <- merge_flags_assoc.
      change (ctor :: constructors_of rest)
        with ([ctor] ++ constructors_of rest).
      rewrite unexpected_logs_app.
      unfold unexpected_logs at 1; cbn [filter List.map].
      destruct (reads_absent_type ctor); cbn [orb];
        [split; [discriminate | now intros (H & _)]|].
      destruct (is_unexpected ctor) eqn:Hu; cbn [orb List.map].
      * rewrite (signatures_among_unexpected ctor Hu), merge_flags_none.
        destruct name as [className|]; cbn [name_or_empty];
          [|split; [discriminate | intros (_ & H & _); now specialize (H eq_refl)]].
        unfold bind at 1.
        destruct (check_members (Some className) rest flags) as [r w'] eqn:E.
        split.
        -- intros H; inversion H; subst.
           apply IH in E as (Hr & Hn & Hf & Hw); subst w'.
           repeat split; trivial; discriminate.
        -- intros (Hr & _ & Hf & Hw).
           assert (E' : check_members (Some className) rest flags
                        = (Normal flags', unexpected_logs (Some className)
                                            (constructors_of rest))).
           { apply IH; repeat split; trivial; discriminate. }
           rewrite E in E'; inversion E'; subst; reflexivity.
      * rewrite bind_ret_l, IH; cbn [app]; tauto.
    + cbn [check_member constructors_of]; rewrite bind_ret_l, IH; tauto.
Qed.

Lemma checkConstructors_found (name : option jsstring) (members : list ClassMember)
    (found : bool) (w : effects) :
  checkConstructors name members = (Normal found, w) ->
  let flags := signatures_among (constructors_of members) in
  found = singleParameterDeclarationFound flags
          && doubleParameterDeclarationFound flags
          && implementationFound flags.
Proof.
  intros H flags; unfold checkConstructors in H.
  bind_inv_as H flags' Hflags.
  apply check_members_Normal in Hflags as (_ & _ & -> & _).
  cbn [merge_flags orb singleParameterDeclarationFound
       doubleParameterDeclarationFound implementationFound] in H.
  fold flags in H.
  destruct (_ && _ && _) eqn:E.
  - now apply ret_Normal_inv in H as [<- _].
  - apply bind_lift_Normal_inv in H as (className & _ & H).
    cbn in H; now inversion H.
Qed.

(** X15: the runs of checkConstructors that return are exactly these: no
    constructor makes it read the kind of an absent type, and on a class
    without a name no constructor is unexpected and the three signatures
    are present. The result then says whether the class has, among its
    constructors and in any order, a declaration with one optional
    parameter typed as the union of string and a type reference, a
    declaration with two parameters typed string and a type reference, and
    an implementation with two such parameters. What it has logged is one
    line for each unexpected constructor (a parameter number other than 1
    or 2, or one parameter and a body), in the order of the members,
    followed, exactly when the result is false, by the line that lists the
    missing signatures. *)
Theorem checkConstructors_result :
  forall name members found w,
    let constructors := constructors_of members in
    let flags := signatures_among constructors in
    checkConstructors name members = (Normal found, w)
    <-> existsb reads_absent_type constructors = false
        /\ (name = None ->
            existsb is_unexpected constructors = false /\ all_found flags = true)
        /\ found = all_found flags
        /\ w = unexpected_logs name constructors
               ++ (if found then []
                   else [ConsoleLog (missing_signatures_message
                                       (name_or_empty name) flags)]).
Proof.
  intros name members found w constructors flags; unfold checkConstructors.
  assert (Hinit : merge_flags
                    {| singleParameterDeclarationFound := false;
                       doubleParameterDeclarationFound := false;
                       implementationFound := false |} flags = flags)
    by now destruct flags.
  destruct (check_members name members
              {| singleParameterDeclarationFound := false;
                 doubleParameterDeclarationFound := false;
                 implementationFound := false |}) as [[flags'|e] w'] eqn:E.
  - apply check_members_Normal in E as (Hr & Hn & -> & ->).
    fold constructors flags in Hr, Hn |- *; rewrite Hinit.
    unfold bind at 1; cbn beta; fold (all_found flags).
    destruct (all_found flags) eqn:Hall.
    + unfold ret; split.
      * intros H; inversion H; subst; auto.
      * now intros (_ & _ & -> & ->).
    + destruct name as [className|]; cbn [name_text lift bind perform ret app
                                          name_or_empty].
      * split.
        -- intros H; inversion H; subst; repeat split; trivial; discriminate.
        -- now intros (_ & _ & -> & ->).
      * split; [discriminate|].
        intros (_ & H & _); now destruct (H eq_refl).
  - cbn; split; [discriminate|].
    intros (Hr & Hn & _).
    assert (E' : exists flags' w'',
               check_members name members
                 {| singleParameterDeclarationFound := false;
                    doubleParameterDeclarationFound := false;
                    implementationFound := false |} = (Normal flags', w'')).
    { eexists _, _; apply check_members_Normal; repeat split; trivial.
      intros Hname; now destruct (Hn Hname). }
    destruct E' as (flags' & w'' & E'); rewrite E in E'; discriminate E'.
Qed.

(** X15 at the standard constructors of a control, which follow a
    constructor without parameters: true, after one line. *)
Lemma checkConstructors_result_witness :
  checkConstructors (Some (js "Widget")) standard_constructors
  = (Normal true, [ConsoleLog (unexpected_constructor_message (js "Widget"))]).
Proof.
  apply (proj2 (checkConstructors_result (Some (js "Widget"))
                  standard_constructors true _)).
  split; [reflexivity|]; split; [discriminate|]; split; reflexivity.
Defined.

Lemma check_members_anonymous (members : list ClassMember) :
  forall flags,
    check_members None members flags
    = if existsb reads_absent_type (constructors_of members)
         || existsb is_unexpected (constructors_of members)
      then throw TypeError
      else ret (merge_flags flags (signatures_among (constructors_of members))).
Proof.
  induction members as [|member rest IH]; intros flags.
  - cbn; now rewrite merge_flags_none.
  - cbn [check_members]; destruct member as [ctor|].
    + rewrite check_member_run; cbn [constructors_of existsb].
      destruct (reads_absent_type ctor); [reflexivity|].
      destruct (is_unexpected ctor); cbn [orb];
        [now rewrite orb_true_r|].
      rewrite bind_ret_l, IH.
      now rewrite (signatures_among_cons ctor (constructors_of rest)),
        merge_flags_assoc.
    + cbn [check_member constructors_of]; rewrite bind_ret_l; apply IH.
Qed.

(** X12: on a class without a name, checkConstructors never returns
    false, and logs nothing. It returns true when the three signatures are
    present, every constructor has one parameter and no body or two
    parameters, and the types it reads are there. In every other case it
    throws a TypeError: where it would name the class in a log line (for an
    unexpected constructor, or for the missing signatures), or where it
    reads the kind of an absent type. *)
Theorem checkConstructors_anonymous :
  forall members,
    let constructors := constructors_of members in
    checkConstructors None members
    = if existsb reads_absent_type constructors
         || existsb is_unexpected constructors
         || negb (all_found (signatures_among constructors))
      then (Throw TypeError, [])
      else (Normal true, []).
Proof.
  intros members constructors; unfold checkConstructors.
  rewrite check_members_anonymous; fold constructors.
  destruct (existsb reads_absent_type constructors
            || existsb is_unexpected constructors); [reflexivity|].
  rewrite bind_ret_l.
  cbn [merge_flags orb singleParameterDeclarationFound
       doubleParameterDeclarationFound implementationFound].
  fold (all_found (signatures_among constructors)).
  now destruct (all_found (signatures_among constructors)).
Qed.

(** ** The settings type of a base class *)

Lemma last_cons {A} (x d : A) (l : list A) : last (x :: l) d = last l x.
Proof.
  revert x d; induction l as [|y l IH]; intros x d; [reflexivity|].
  change (last (x :: y :: l) d) with (last (y :: l) d).
  now rewrite !IH.
Qed.

Lemma each_constructor_last (constructors : list ConstructorDeclaration) :
  forall settingsType r,
    each_constructor constructors settingsType = Normal r ->
    Forall (fun ctor => last_parameter_type ctor <> None) constructors
    /\ r = last (List.map Some (filter isTypeReferenceNode
                                  (last_parameter_types constructors)))
                settingsType.
Proof.
  induction constructors as [|ctor rest IH]; intros settingsType r H.
  - inversion H; split; [constructor|reflexivity].
  - cbn [each_constructor] in H.
    unfold last_parameter_types; cbn [flat_map]; unfold last_parameter_type at 2.
    destruct (last (List.map Some (ctor_parameters ctor)) None)
      as [lastParameter|] eqn:Hlast; [|discriminate H].
    destruct (parameter_type lastParameter) as [type|] eqn:Htype;
      [|discriminate H].
    apply IH in H as [Hall ->]; split.
    + constructor; [|exact Hall].
      unfold last_parameter_type; rewrite Hlast, Htype; discriminate.
    + cbn [app filter]; fold (last_parameter_types rest).
      destruct (isTypeReferenceNode type); [|reflexivity].
      cbn [List.map]; now rewrite last_cons.
Qed.

Lemma each_constructor_returns (constructors : list ConstructorDeclaration) :
  Forall (fun ctor => last_parameter_type ctor <> None) constructors ->
  forall settingsType, exists r, each_constructor constructors settingsType = Normal r.
Proof.
  induction 1 as [|ctor rest Hctor _ IH]; intros settingsType; [now eexists|].
  cbn [each_constructor]; unfold last_parameter_type in Hctor.
  destruct (last (List.map Some (ctor_parameters ctor)) None)
    as [lastParameter|]; [|now destruct Hctor].
  destruct (parameter_type lastParameter) as [type|]; [|now destruct Hctor].
  apply IH.
Qed.

(** X16: getSettingsType returns exactly when every declaration of the
    type is class-like and every constructor among them has a last
    parameter with a type (a constructor without parameters makes it
    throw); the result is then the last, in declaration order, of these
    types that is a type reference, or null when none is. *)
Theorem getSettingsType_last_reference :
  forall declarations r,
    getSettingsType declarations = Normal r
    <-> exists constructors,
          collect_constructors declarations = Normal constructors
          /\ Forall (fun ctor => last_parameter_type ctor <> None) constructors
          /\ r = last (List.map Some (filter isTypeReferenceNode
                                        (last_parameter_types constructors)))
                      None.
Proof.
  intros declarations r; unfold getSettingsType; split.
  - intros H.
    destruct (collect_constructors declarations) as [constructors|e];
      [|discriminate H].
    exists constructors; split; [reflexivity|].
    now apply each_constructor_last.
  - intros (constructors & -> & Hall & ->).
    destruct (each_constructor_returns constructors Hall None) as (r & Hr).
    rewrite Hr; f_equal.
    now apply each_constructor_last in Hr.
Qed.

(** X16 at the standard constructors without the first, declared after a
    class whose constructor takes a string. *)
Lemma getSettingsType_last_reference_witness :
  getSettingsType
    [ Some [ConstructorMember {| ctor_parameters := [string_parameter false];
                                 has_body := true |}];
      Some (tl standard_constructors) ]
  = Normal (Some (TypeReference (js "$WidgetSettings")))
  /\ getSettingsType [Some standard_constructors] = Throw TypeError.
Proof.
  split; [|reflexivity].
  apply (proj2 (getSettingsType_last_reference _ _)).
  eexists; split; [reflexivity|]; split; [|reflexivity].
  repeat constructor; discriminate.
Defined.

(** ** The imports and the statements of the generated file *)

(** X17: getImports never returns an empty list: it returns one import
    for each required import, in their order, or the one dummy import of
    Core when there is none (and then only is an import commented). Every
    import is either a default import or a single named import, and a named
    import is aliased only if the exported name differs from the local
    name. *)
Theorem getImports_well_formed :
  forall requiredImports : RequiredImports,
    getImports requiredImports <> []
    /\ length (getImports requiredImports) = Nat.max 1 (length requiredImports)
    /\ (requiredImports <> [] ->
        getImports requiredImports
        = List.map (fun entry => import_of (snd entry)) requiredImports)
    /\ (requiredImports = [] -> getImports requiredImports = [dummy_import])
    /\ Forall (fun declaration =>
                 match clause_name (importClause declaration),
                       namedBindings (importClause declaration) with
                 | Some _, None => True
                 | None, Some [specifier] =>
                     propertyName specifier <> Some (specifier_name specifier)
                 | _, _ => False
                 end
                 /\ (trailingComment declaration <> None -> requiredImports = []))
              (getImports requiredImports).
Proof.
  intros requiredImports; unfold getImports.
  destruct requiredImports as [|[dependencyName singleImport] rest].
  - cbn; repeat split; try discriminate; try congruence.
    constructor; [|constructor]; split; [exact I|reflexivity].
  - cbn [List.map snd length]; split; [discriminate|].
    split; [now rewrite length_map|].
    split; [reflexivity|]; split; [discriminate|].
    change (import_of singleImport
            :: List.map (fun entry => import_of (snd entry)) rest)
      with (List.map (fun entry => import_of (snd entry))
              ((dependencyName, singleImport) :: rest)).
    apply Forall_map, Forall_forall; intros [k single] _; cbn [snd].
    split; [|cbn; congruence].
    unfold import_of, exportName_given; cbn.
    destruct (exportName single) as [[|c e]|]; cbn; trivial.
    destruct (jsstring_eqb (localName single) (c :: e)) eqn:Heq; cbn;
      [discriminate|].
    intros H; inversion H as [He]; rewrite He, jsstring_eqb_refl in Heq.
    discriminate Heq.
Qed.

Section BuildASTFacts.
Variable Globals : Type.
Variable MethodSignature : Type.
Variable SettingsInterface : Type.
Variable generateMethods :
  ClassInfo -> RequiredImports -> Globals -> list MethodSignature * RequiredImports.
Variable generateSettingsInterface :
  ClassInfo -> jsstring -> bool -> jsstring -> RequiredImports -> Globals ->
  SettingsInterface * RequiredImports.

(** X18: buildAST returns null exactly when no method is generated.
    Otherwise it returns at least one import followed by one module
    declaration, the last statement: the module is named "./" followed by
    the module name, holds the interface named after the class with the
    generated methods, and is always set off by a line break, since the
    list of imports is never empty. *)
Theorem buildAST_shape :
  forall classInfo classFileName constructorSignaturesAvailable moduleName
         settingsTypeFullName (allKnownGlobals : Globals),
    let result :=
      buildAST Globals MethodSignature SettingsInterface generateMethods
        generateSettingsInterface classInfo classFileName
        constructorSignaturesAvailable moduleName settingsTypeFullName
        allKnownGlobals in
    let generated := fst (generateMethods classInfo [] allKnownGlobals) in
    (result = None <-> generated = [])
    /\ forall statements,
         result = Some statements ->
         exists imports module,
           statements = List.map (ImportStatement MethodSignature SettingsInterface)
                          imports
                        ++ [ModuleStatement MethodSignature SettingsInterface module]
           /\ imports <> []
           /\ module_name _ _ module = js "./" ++ moduleName
           /\ module_lineBreaks _ _ module = Some 2%nat
           /\ interface_name _ (module_interface _ _ module) = ci_name classInfo
           /\ interface_members _ (module_interface _ _ module) = generated
           /\ interface_lineBreaks _ (module_interface _ _ module) = Some 2%nat.
Proof.
  intros classInfo classFileName available moduleName settingsTypeFullName g.
  cbv zeta; unfold buildAST.
  destruct (generateMethods classInfo [] g) as [generated required]; cbn [fst].
  destruct generated as [|method generated].
  - split; [tauto|discriminate].
  - destruct (generateSettingsInterface _ _ _ _ _ _) as [settings required'].
    split; [split; discriminate|].
    intros statements H; inversion H; subst statements; clear H.
    destruct (getImports_well_formed required') as (Hne & _).
    eexists _, _; split; [reflexivity|]; split; [exact Hne|].
    cbn; repeat split.
    destruct (getImports required'); [now destruct Hne|reflexivity].
Qed.
End BuildASTFacts.

(** ** Runs over the classes of a module *)

Section GeneratorRuns.
Variable toUpperCase : jsstring -> jsstring.
Variable Hjson_parse : jsstring -> value + jsstring.
Variable Globals : Type.
Variable AST : Type.
Variable moduleName_of : jsstring -> jsstring.
Variable buildAST :
  ClassInfo -> jsstring -> bool -> jsstring -> jsstring -> Globals -> option AST.
Variable astToString : AST -> jsstring.

(** X19: a run over the classes of a module is the run over its first
    classes followed, if that returns, by the run over the remaining ones:
    the classes are processed one by one, in order, and a class sees
    nothing of the classes before it. *)
Theorem generateInterfaces_app :
  forall (first remaining : list ManagedObjectInfo) (g : Globals),
    generateInterfaces toUpperCase Hjson_parse Globals AST moduleName_of buildAST
      astToString (first ++ remaining) g
    = bind (generateInterfaces toUpperCase Hjson_parse Globals AST moduleName_of
              buildAST astToString first g)
        (fun _ => generateInterfaces toUpperCase Hjson_parse Globals AST
                    moduleName_of buildAST astToString remaining g).
Proof.
  intros first remaining g; induction first as [|mo first IH].
  - cbn [app generateInterfaces]; now rewrite bind_ret_l.
  - cbn [app generateInterfaces]; rewrite !bind_assoc.
    apply bind_ext; intros interfaceText.
    rewrite bind_assoc; apply bind_ext; intros _; exact IH.
Qed.

Lemma is_warning_not_result (w : effects) :
  forallb is_warning w = true -> forall e, In e w -> is_result e = false.
Proof.
  rewrite forallb_forall; intros H e He; specialize (H e He); now destruct e.
Qed.

Lemma filter_static_metadata_throws (ms : list ClassElement) (e : exception) :
  filter_static_metadata ms = Throw e -> e = TypeError.
Proof.
  induction ms as [|m ms IH]; cbn; [discriminate|].
  destruct (is_static_metadata m) as [keep|e'] eqn:Hm.
  - destruct (filter_static_metadata ms); [discriminate|].
    intros H; inversion H; subst; now apply IH.
  - intros H; inversion H; subst; unfold is_static_metadata in Hm.
    destruct m as [[escapedText|] [modifiers|] initializer|];
      try destruct (jsstring_eqb escapedText (js "metadata"));
      now inversion Hm.
Qed.

(** What one class writes, and the only error with a message it raises. *)
Lemma generateInterface_run (mo : ManagedObjectInfo) (g : Globals)
    (c : completion (option jsstring)) (w : effects) :
  generateInterface toUpperCase Hjson_parse Globals AST moduleName_of buildAST
    astToString mo g = (c, w) ->
  (forall e, In e w -> is_result e = false)
  /\ forall msg,
       c = Throw (Error msg) ->
       w = []
       /\ exists member text message,
            filter_static_metadata (members mo) = Normal [member]
            /\ initializer_of member = Some text
            /\ Hjson_parse text = inr message
            /\ msg = parse_error_message (className mo) (fileName mo) message.
Proof.
  assert (Hquiet : forall c' : completion (option jsstring),
             (forall msg, c' <> Throw (Error msg)) ->
             (c', @nil effect) = (c, w) ->
             (forall e, In e w -> is_result e = false)
             /\ forall msg,
                  c = Throw (Error msg) ->
                  w = []
                  /\ exists member text message,
                       filter_static_metadata (members mo) = Normal [member]
                       /\ initializer_of member = Some text
                       /\ Hjson_parse text = inr message
                       /\ msg = parse_error_message (className mo) (fileName mo)
                                  message).
  { intros c' Hc' H; inversion H; subst; split; [intros e []|].
    intros msg Hmsg; now destruct (Hc' msg). }
  unfold generateInterface.
  destruct (filter_static_metadata (members mo)) as [metadata|e] eqn:Hf.
  - destruct metadata as [|member [|member' rest]];
      try (apply Hquiet; discriminate).
    cbn [lift bind].
    destruct (initializer_of member) as [text|] eqn:Hi;
      [|apply Hquiet; discriminate].
    destruct (Hjson_parse text) as [metadataObject|message] eqn:Hp.
    + destruct (is_nullish metadataObject); [apply Hquiet; discriminate|].
      destruct (_ && _); [apply Hquiet; discriminate|].
      pose proof (tame_collectClassInfo toUpperCase metadataObject (className mo))
        as [Hwarn Hthrow].
      destruct (collectClassInfo toUpperCase metadataObject (className mo))
        as [[classInfo|e] wc]; cbn in Hwarn, Hthrow |- *.
      * destruct (buildAST _ _ _ _ _ _); cbn; intros H; inversion H; subst;
          (split; [|discriminate]);
          intros e [<- | He]; try reflexivity;
          rewrite app_nil_r in He; now apply (is_warning_not_result wc).
      * intros H; inversion H; subst; split.
        -- intros e' [<- | He]; [reflexivity|].
           now apply (is_warning_not_result wc).
        -- intros msg Hmsg; inversion Hmsg; subst e.
           specialize (Hthrow _ eq_refl); discriminate Hthrow.
    + unfold throw; intros H; injection H as <- <-; split; [intros e []|].
      intros msg Hmsg; injection Hmsg as <-; split; [reflexivity|].
      exists member, text, message; repeat split; assumption.
  - cbn; intros H; inversion H; subst; split; [intros e' []|].
    intros msg Hmsg; inversion Hmsg; subst e.
    apply filter_static_metadata_throws in Hf; discriminate Hf.
Qed.

(** X20: with buildAST and astToString taken as functions that return
    (their code is no part of this file; they are the parameters of Section
    Generator, and neither throw nor write), and whatever they and the
    parser return, the only error with a message that generateInterface
    raises is the one for metadata the parser rejects: there is then
    exactly one static metadata member, the parser has failed on its text,
    the message names the class, the file and the parser's message, and
    nothing has been written. Every other failure of generateInterface
    itself, and of collectClassInfo under it, is a TypeError. *)
Theorem generateInterface_errors :
  forall mo g msg w,
    generateInterface toUpperCase Hjson_parse Globals AST moduleName_of buildAST
      astToString mo g = (Throw (Error msg), w) ->
    w = []
    /\ exists member text message,
         filter_static_metadata (members mo) = Normal [member]
         /\ initializer_of member = Some text
         /\ Hjson_parse text = inr message
         /\ msg = parse_error_message (className mo) (fileName mo) message.
Proof.
  intros mo g msg w H.
  now apply (proj2 (generateInterface_run _ _ _ _ H) msg).
Qed.

(** X21: however a run over the classes of a module ends, every interface
    handed to the result processor is not empty and comes with the file
    name and the class name of one of the classes, and at most one
    interface is handed over for each class. *)
Theorem results_name_their_class :
  forall mos g c w,
    generateInterfaces toUpperCase Hjson_parse Globals AST moduleName_of buildAST
      astToString mos g = (c, w) ->
    (length (filter is_result w) <= length mos)%nat
    /\ forall f cn text,
         In (ResultProcessor f cn text) w ->
         text <> []
         /\ exists mo, In mo mos /\ fileName mo = f /\ className mo = cn.
Proof.
  intros mos g; induction mos as [|mo mos IH]; intros c w H.
  - inversion H; subst; split; [cbn; lia|intros f cn text []].
  - cbn [generateInterfaces] in H.
    destruct (generateInterface toUpperCase Hjson_parse Globals AST moduleName_of
                buildAST astToString mo g) as [c1 w1] eqn:H1.
    destruct (generateInterface_run _ _ _ _ H1) as [Hquiet _].
    assert (Hnone : filter is_result w1 = []).
    { clear - Hquiet; induction w1 as [|e w1 IHw]; [reflexivity|]; cbn.
      rewrite (Hquiet e (or_introl eq_refl)); apply IHw.
      intros e' He'; apply Hquiet; now right. }
    assert (Hnot : forall f cn text, ~ In (ResultProcessor f cn text) w1).
    { intros f cn text Hin; now specialize (Hquiet _ Hin). }
    destruct c1 as [interfaceText|e]; cbn [bind] in H;
      [|inversion H; subst; split;
        [rewrite Hnone; cbn; lia|intros f cn text Hin; now destruct (Hnot f cn text)]].
    destruct (generateInterfaces toUpperCase Hjson_parse Globals AST moduleName_of
                buildAST astToString mos g) as [c2 w2] eqn:H2.
    destruct (IH _ _ eq_refl) as [Hlen Hin2].
    assert (Hrest : forall f cn text,
               In (ResultProcessor f cn text) w2 ->
               text <> []
               /\ exists mo', In mo' (mo :: mos)
                              /\ fileName mo' = f /\ className mo' = cn).
    { intros f cn text Hin; destruct (Hin2 _ _ _ Hin) as (Ht & mo' & Hmo & Hf).
      split; [exact Ht|]; exists mo'; split; [now right|exact Hf]. }
    destruct interfaceText as [[|ch text]|]; cbn in H; inversion H; subst; clear H;
      rewrite ?filter_app, ?Hnone; cbn [app filter is_result length]; split;
      try lia.
    + intros f cn text Hin; apply in_app_or in Hin as [Hin | Hin];
        [now destruct (Hnot f cn text)|now apply Hrest].
    + intros f cn text' Hin; apply in_app_or in Hin as [Hin | Hin];
        [now destruct (Hnot f cn text')|].
      destruct Hin as [Heq | Hin]; [|now apply Hrest].
      inversion Heq; subst; split; [discriminate|].
      exists mo; split; [now left|split; reflexivity].
    + intros f cn text Hin; apply in_app_or in Hin as [Hin | Hin];
        [now destruct (Hnot f cn text)|now apply Hrest].
Qed.

End GeneratorRuns.

(** X20 at the class Broken, whose metadata sample_parse rejects. *)
Lemma generateInterface_errors_witness :
  generateInterface toUpperCase_ascii sample_parse unit jsstring (fun f => f)
    sample_buildAST (fun ast => ast)
    (class_with_metadata (js "Broken") rejected_text) tt
  = (Throw (Error (parse_error_message (js "Broken") (js "src/Widgets.ts")
                     rejected_message)), []).
Proof.
  destruct (generateInterface toUpperCase_ascii sample_parse unit jsstring
              (fun f => f) sample_buildAST (fun ast => ast)
              (class_with_metadata (js "Broken") rejected_text) tt)
    as [[r|[|msg]] w] eqn:E; try (vm_compute in E; discriminate E).
  destruct (generateInterface_errors _ _ _ _ _ _ _ _ _ _ _ E)
    as (-> & member & text & message & Hf & Hi & Hp & ->).
  vm_compute in Hf; inversion Hf; subst member.
  vm_compute in Hi; inversion Hi; subst text.
  vm_compute in Hp; inversion Hp; subst message.
  reflexivity.
Defined.

(** X21 at the classes Widget and Gadget of Widgets.ts. *)
Lemma results_name_their_class_witness :
  exists c w,
    generateInterfaces toUpperCase_ascii sample_parse unit jsstring (fun f => f)
      sample_buildAST (fun ast => ast)
      [class_with_metadata (js "Widget") (js "{ }");
       class_with_metadata (js "Gadget") (js "{ }")] tt
    = (c, w)
    /\ (length (filter is_result w) <= 2)%nat
    /\ In (ResultProcessor (js "src/Widgets.ts") (js "Gadget")
             (js "interface Gadget")) w.
Proof.
  destruct (generateInterfaces toUpperCase_ascii sample_parse unit jsstring
              (fun f => f) sample_buildAST (fun ast => ast)
              [class_with_metadata (js "Widget") (js "{ }");
               class_with_metadata (js "Gadget") (js "{ }")] tt)
    as [c w] eqn:E.
  destruct (results_name_their_class _ _ _ _ _ _ _ _ _ _ _ E) as [Hlen _].
  exists c, w; split; [reflexivity|]; split; [exact Hlen|].
  vm_compute in E; inversion E; subst c w.
  right; right; right; left; reflexivity.
Defined.

(** ** What the walk over the base types finds *)

Section DiscoveryResults.
Variable type : Type.
Variable symbol : Type.
Variable getSymbol : type -> option symbol.
Variable getFullyQualifiedName : symbol -> jsstring.
Variable isClassOrInterface : type -> bool.
Variable getBaseTypes : type -> list type.

Lemma for_baseTypes_result
    (visit : type -> option (completion (option RegistryValue)))
    (baseTypes : list type) (r : option RegistryValue) :
  for_baseTypes type visit baseTypes = Some (Normal r) ->
  match r with
  | Some v => exists b, In b baseTypes /\ visit b = Some (Normal (Some v))
  | None => forall b, In b baseTypes -> visit b = Some (Normal None)
  end.
Proof.
  induction baseTypes as [|b rest IH]; cbn; intros H.
  - inversion H; intros b [].
  - destruct (visit b) as [[[v|]|e]|] eqn:Hb; try discriminate H.
    + inversion H; exists b; auto.
    + specialize (IH H); destruct r as [v|].
      * destruct IH as (b' & Hin & Hv); exists b'; auto.
      * intros b' [<- | Hin]; auto.
Qed.

(** X22: when the walk over the base types returns a value, some type it
    has visited (the queried type, or one reached along base types through
    types it passes) has a symbol under whose name the registry object
    holds that value: the tier of one of the four registered names, or the
    value every object inherits under a name such as valueOf, toString or
    constructor, which is returned like a tier. When it returns undefined,
    every type it can visit has a symbol, and the registry object holds
    nothing under the name of any of them. *)
Theorem getInterestingBaseClass_finds_a_registered_ancestor :
  forall fuel t r,
    getInterestingBaseClass type symbol getSymbol getFullyQualifiedName
      isClassOrInterface getBaseTypes fuel t = Some (Normal r) ->
    match r with
    | Some v =>
        exists a s,
          walked type symbol getSymbol getFullyQualifiedName isClassOrInterface
            getBaseTypes t a
          /\ getSymbol a = Some s
          /\ registry_lookup (getFullyQualifiedName s) = Some v
          /\ match v with
             | Tier interestingBaseClass =>
                 assoc interestingBaseClasses (getFullyQualifiedName s)
                 = Some interestingBaseClass
             | Inherited key =>
                 key = getFullyQualifiedName s /\ In key Object_prototype_keys
             end
    | None =>
        forall a,
          walked type symbol getSymbol getFullyQualifiedName isClassOrInterface
            getBaseTypes t a ->
          exists s,
            getSymbol a = Some s
            /\ registry_lookup (getFullyQualifiedName s) = None
    end.
Proof.
  assert (Hvalue : forall name v,
             registry_lookup name = Some v ->
             match v with
             | Tier interestingBaseClass =>
                 assoc interestingBaseClasses name = Some interestingBaseClass
             | Inherited key => key = name /\ In key Object_prototype_keys
             end).
  { intros name v; unfold registry_lookup.
    destruct (assoc interestingBaseClasses name) as [b|];
      [intros H; now inversion H|].
    destruct (existsb (jsstring_eqb name) Object_prototype_keys) eqn:E;
      [|discriminate].
    intros H; inversion H; split; [reflexivity|].
    apply existsb_exists in E as (key & Hin & Heq).
    now apply jsstring_eqb_spec in Heq as ->. }
  induction fuel as [|fuel IH]; intros t r H; [discriminate H|].
  cbn [getInterestingBaseClass] in H.
  destruct (getSymbol t) as [s|] eqn:Hs; [|discriminate H].
  destruct (registry_lookup (getFullyQualifiedName s)) as [v|] eqn:Ht.
  - inversion H; exists t, s; split; [constructor|].
    split; [exact Hs|]; split; [exact Ht|now apply Hvalue].
  - destruct (isClassOrInterface t) eqn:Hc; cbn [negb] in H.
    + assert (Hpassed : passed type symbol getSymbol getFullyQualifiedName
                          isClassOrInterface t) by now exists s.
      apply for_baseTypes_result in H; destruct r as [v|].
      * destruct H as (b & Hin & Hb).
        apply IH in Hb as (a & s' & Hwalk & Ha).
        exists a, s'; split; [|exact Ha].
        now apply (walked_base _ _ _ _ _ _ t b a).
      * intros a Hwalk; inversion Hwalk as [|t' b a' _ Hin Hwalk']; subst;
          [now exists s|].
        exact (IH b None (H b Hin) a Hwalk').
    + inversion H; intros a Hwalk.
      inversion Hwalk as [|t' b a' (s' & _ & _ & Hc') _ _]; subst;
        [now exists s|congruence].
Qed.
End DiscoveryResults.

(** X22 on the three-tier family, where the walk from Child finds
    Grandparent, and on Gauge, whose base class is named valueOf. *)
Lemma getInterestingBaseClass_finds_a_registered_ancestor_witness :
  (exists a,
     walked family family (@Some family) family_name (fun _ => true)
       family_bases Child a
     /\ assoc interestingBaseClasses (family_name a) = Some Control)
  /\ (exists a,
        walked gauges gauges (@Some gauges) gauges_name (fun _ => true)
          gauges_bases Gauge a
        /\ gauges_name a = js "valueOf").
Proof.
  split.
  - destruct (getInterestingBaseClass_finds_a_registered_ancestor
                family family (@Some family) family_name (fun _ => true)
                family_bases 3 Child (Some (Tier Control)) eq_refl)
      as (a & s & Hwalk & Hs & _ & Ha).
    inversion Hs; subst s; now exists a.
  - destruct (getInterestingBaseClass_finds_a_registered_ancestor
                gauges gauges (@Some gauges) gauges_name (fun _ => true)
                gauges_bases 2 Gauge (Some (Inherited (js "valueOf"))) eq_refl)
      as (a & s & Hwalk & Hs & _ & Ha & _).
    inversion Hs; subst s; now exists a.
Defined.

(** ** The classes of a source file *)

Section ManagedObjectsFacts.
Variable type : Type.
Variable symbol : Type.
Variable getSymbol : type -> option symbol.
Variable getFullyQualifiedName : symbol -> jsstring.
Variable isClassOrInterface : type -> bool.
Variable getBaseTypes : type -> list type.
Variable getDeclarations : symbol -> list (option (list ClassMember)).
Variable settingsTypeFullName_of : TypeNode -> completion jsstring.

Lemma bindF_Normal_inv {A B} (c : option (M A)) (k : A -> option (M B))
    (b : B) (w : effects) :
  bindF c k = Some (Normal b, w) ->
  exists a w1 w2,
    c = Some (Normal a, w1) /\ k a = Some (Normal b, w2) /\ w = w1 ++ w2.
Proof.
  destruct c as [[[a|e] w1]|]; cbn; try discriminate.
  destruct (k a) as [[r w2]|] eqn:Hk; [|discriminate].
  intros H; inversion H; subst; now exists a, w1, w2.
Qed.

Lemma visit_heritage_type_lists (fuel : nat) (sourceFile : SourceFile type)
    (statement : ClassDeclaration type) (typeNode : HeritageType type)
    (managedObjects managedObjects' : list ManagedObjectOccurrence) (w : effects) :
  visit_heritage_type type symbol getSymbol getFullyQualifiedName
    isClassOrInterface getBaseTypes getDeclarations settingsTypeFullName_of
    fuel sourceFile statement typeNode managedObjects
  = Some (Normal managedObjects', w) ->
  managedObjects'
  = managedObjects
    ++ listed type symbol getSymbol getFullyQualifiedName isClassOrInterface
         getBaseTypes getDeclarations settingsTypeFullName_of fuel sourceFile
         statement typeNode.
Proof.
  unfold visit_heritage_type, listed.
  destruct (getSymbol (ht_type type typeNode)) as [s|]; [|discriminate].
  destruct (getSettingsType (getDeclarations s))
    as [[settingsTypeNode|]|e]; try discriminate;
    [|intros H; inversion H; now rewrite app_nil_r].
  destruct (settingsTypeFullName_of settingsTypeNode) as [fullName|e];
    [|discriminate].
  destruct (getInterestingBaseClass _ _ _ _ _ _ _ _) as [[[v|]|e]|];
    try discriminate; [|intros H; inversion H; now rewrite app_nil_r].
  intros H; inversion H as [H']; clear H.
  bind_inv_as H' available Hcheck.
  apply checkConstructors_found in Hcheck; cbv zeta in Hcheck.
  apply ret_Normal_inv in H' as [<- _].
  unfold all_signatures; now rewrite <- Hcheck.
Qed.

Lemma each_heritage_type_lists (fuel : nat) (sourceFile : SourceFile type)
    (statement : ClassDeclaration type) (types : list (HeritageType type)) :
  forall managedObjects managedObjects' w,
    each_heritage_type type symbol getSymbol getFullyQualifiedName
      isClassOrInterface getBaseTypes getDeclarations settingsTypeFullName_of
      fuel sourceFile statement types managedObjects
    = Some (Normal managedObjects', w) ->
    managedObjects'
    = managedObjects
      ++ flat_map (listed type symbol getSymbol getFullyQualifiedName
                     isClassOrInterface getBaseTypes getDeclarations
                     settingsTypeFullName_of fuel sourceFile statement) types.
Proof.
  induction types as [|typeNode rest IH]; intros mos mos' w H.
  - inversion H; now rewrite app_nil_r.
  - cbn [each_heritage_type] in H.
    apply bindF_Normal_inv in H as (mos1 & w1 & w2 & H1 & H2 & _).
    apply visit_heritage_type_lists in H1; apply IH in H2; subst.
    cbn [flat_map]; now rewrite app_assoc.
Qed.

Lemma each_heritage_clause_lists (fuel : nat) (sourceFile : SourceFile type)
    (statement : ClassDeclaration type) (clauses : list (HeritageClause type)) :
  forall managedObjects managedObjects' w,
    each_heritage_clause type symbol getSymbol getFullyQualifiedName
      isClassOrInterface getBaseTypes getDeclarations settingsTypeFullName_of
      fuel sourceFile statement clauses managedObjects
    = Some (Normal managedObjects', w) ->
    managedObjects'
    = managedObjects
      ++ flat_map (listed type symbol getSymbol getFullyQualifiedName
                     isClassOrInterface getBaseTypes getDeclarations
                     settingsTypeFullName_of fuel sourceFile statement)
           (flat_map (fun heritageClause =>
                        match hc_types type heritageClause with
                        | Some types => types
                        | None => []
                        end) clauses).
Proof.
  induction clauses as [|heritageClause rest IH]; intros mos mos' w H.
  - inversion H; now rewrite app_nil_r.
  - cbn [each_heritage_clause] in H.
    apply bindF_Normal_inv in H as (mos1 & w1 & w2 & H1 & H2 & _).
    apply IH in H2; subst mos'; cbn [flat_map]; rewrite flat_map_app, app_assoc.
    f_equal; destruct (hc_types type heritageClause) as [types|].
    + now apply each_heritage_type_lists in H1.
    + inversion H1; now rewrite app_nil_r.
Qed.

Lemma each_statement_lists (fuel : nat) (sourceFile : SourceFile type)
    (rest : list (SourceStatement type)) :
  forall managedObjects managedObjects' w,
    each_statement type symbol getSymbol getFullyQualifiedName
      isClassOrInterface getBaseTypes getDeclarations settingsTypeFullName_of
      fuel sourceFile rest managedObjects
    = Some (Normal managedObjects', w) ->
    managedObjects'
    = managedObjects
      ++ flat_map (fun statement =>
                     match statement with
                     | ClassDeclarationStatement _ statement =>
                         flat_map (listed type symbol getSymbol
                                     getFullyQualifiedName isClassOrInterface
                                     getBaseTypes getDeclarations
                                     settingsTypeFullName_of fuel sourceFile
                                     statement)
                                  (heritage_types type statement)
                     | OtherStatement _ => []
                     end) rest.
Proof.
  induction rest as [|[statement|] rest IH]; intros mos mos' w H.
  - inversion H; now rewrite app_nil_r.
  - cbn [each_statement] in H.
    apply bindF_Normal_inv in H as (mos1 & w1 & w2 & H1 & H2 & _).
    apply IH in H2; subst mos'; cbn [flat_map]; rewrite app_assoc.
    f_equal; unfold heritage_types.
    destruct (cd_heritageClauses type statement) as [clauses|].
    + now apply each_heritage_clause_lists in H1.
    + inversion H1; now rewrite app_nil_r.
  - cbn [each_statement flat_map app] in *; now apply IH in H.
Qed.

(** X23: when getManagedObjects returns, its list holds, in source order,
    one entry for each type of each heritage clause of each class
    declaration that has a settings type and for which the walk over the
    base types returns a value that counts as true, and nothing else: every
    heritage clause is looked at, also after an entry was found, so a class
    is listed once for each such type. The entry carries the name of the
    file, the name of the class or the empty string, the full name of the
    settings type, the value the walk returned (a tier, or what the
    registry object inherits under the name of a type, as for a base class
    named valueOf), and whether the three constructor signatures are
    present. *)
Theorem getManagedObjects_listing :
  forall fuel sourceFile managedObjects w,
    getManagedObjects type symbol getSymbol getFullyQualifiedName
      isClassOrInterface getBaseTypes getDeclarations settingsTypeFullName_of
      fuel sourceFile
    = Some (Normal managedObjects, w) ->
    managedObjects
    = listing type symbol getSymbol getFullyQualifiedName isClassOrInterface
        getBaseTypes getDeclarations settingsTypeFullName_of fuel sourceFile.
Proof.
  intros fuel sourceFile mos w H; unfold getManagedObjects in H.
  now apply each_statement_lists in H.
Qed.
End ManagedObjectsFacts.

(** X23 at widgets_file, where the class Widget is listed twice, once for
    each of its two heritage clauses, and at gauges_file, where Gauge is
    listed with what the registry object inherits under valueOf. *)
Lemma getManagedObjects_listing_witness :
  (exists w,
     getManagedObjects family family (@Some family) family_name (fun _ => true)
       family_bases (fun _ => [Some (tl standard_constructors)])
       (fun _ => Normal (js "$WidgetSettings")) 3 widgets_file
     = Some (Normal [widget_entry; widget_entry], w))
  /\ (exists w,
        getManagedObjects gauges gauges (@Some gauges) gauges_name
          (fun _ => true) gauges_bases
          (fun _ => [Some (tl standard_constructors)])
          (fun _ => Normal (js "$WidgetSettings")) 2 gauges_file
        = Some (Normal [gauge_entry], w)).
Proof.
  split.
  - destruct (getManagedObjects family family (@Some family) family_name
                (fun _ => true) family_bases
                (fun _ => [Some (tl standard_constructors)])
                (fun _ => Normal (js "$WidgetSettings")) 3 widgets_file)
      as [[[mos|e] w]|] eqn:E; try (vm_compute in E; discriminate E).
    rewrite (getManagedObjects_listing _ _ _ _ _ _ _ _ _ _ _ _ E).
    exists w; reflexivity.
  - destruct (getManagedObjects gauges gauges (@Some gauges) gauges_name
                (fun _ => true) gauges_bases
                (fun _ => [Some (tl standard_constructors)])
                (fun _ => Normal (js "$WidgetSettings")) 2 gauges_file)
      as [[[mos|e] w]|] eqn:E; try (vm_compute in E; discriminate E).
    rewrite (getManagedObjects_listing _ _ _ _ _ _ _ _ _ _ _ _ E).
    exists w; reflexivity.
Defined.
